(** * React hooks over an MMKV key-value store

    A shallow embedding of [hooks.js] (the reactive bindings [useMMKV],
    [useMMKVString], [useMMKVNumber], [useMMKVBoolean], [useMMKVObject] and
    [useMMKVListener]) together with the part of the [MMKV] class the hooks
    call.  The class itself is only declared ([MMKV.d.ts]); its behaviour is
    modelled from the specification and kept in the module [MMKV] below.

    JavaScript state is made explicit: a [World] holds the module-level
    variable [defaultInstance], the heap of [MMKV] objects, the cells React
    keeps for every mounted hook (state, refs, effect dependencies) and a
    trace of the calls that were made.  Code that may throw runs in the
    state-and-exception monad [M]. *)

From Stdlib Require Import Floats ZArith.
From stdpp Require Import base option list gmap strings pretty.

Set Warnings "-register-all,-clear-no-such-hyp".

(** ** JavaScript values *)

(** A reference that may be [undefined] or [null]; [x == null] holds for both. *)
Inductive Nullable (A : Type) : Type :=
  | JsUndefined
  | JsNull
  | Present (a : A).
Arguments JsUndefined {A}.
Arguments JsNull {A}.
Arguments Present {A} a.

Definition is_nullish {A} (x : Nullable A) : bool :=
  match x with
  | Present _ => false
  | _ => true
  end.

(** The values the store accepts: [boolean | string | number] of [MMKV.d.ts]. *)
Inductive Stored : Type :=
  | SBoolean (b : bool)
  | SNumber (n : float)
  | SString (s : string).

(** Values with a JSON shape: what [JSON.parse] produces. *)
Inductive Json : Type :=
  | JNull
  | JBoolean (b : bool)
  | JNumber (n : float)
  | JString (s : string)
  | JArray (items : list Json)
  | JObject (props : list (string * Json)).

(** The value universe seen by the setters.  A function value is applied by
    the typed setter to the cached value, which is a stored value or
    [undefined] ([None]). *)
Inductive JsValue : Type :=
  | VUndefined
  | VJson (j : Json)
  | VSymbol (description : string)
  | VBigInt (z : Z)
  | VHostObject (ident : nat)
  | VFunction (f : option Stored -> JsValue).

Inductive TypeTag : Type :=
  | TUndefined | TObject | TBoolean | TNumber | TString
  | TSymbol | TBigInt | TFunction.

(** The [typeof] operator. *)
Definition typeof (v : JsValue) : TypeTag :=
  match v with
  | VUndefined => TUndefined
  | VJson JNull => TObject
  | VJson (JBoolean _) => TBoolean
  | VJson (JNumber _) => TNumber
  | VJson (JString _) => TString
  | VJson (JArray _) => TObject
  | VJson (JObject _) => TObject
  | VSymbol _ => TSymbol
  | VBigInt _ => TBigInt
  | VHostObject _ => TObject
  | VFunction _ => TFunction
  end.

(** [v == null]. *)
Definition loosely_null (v : JsValue) : bool :=
  match v with
  | VUndefined | VJson JNull => true
  | _ => false
  end.

Definition of_stored (p : Stored) : JsValue :=
  match p with
  | SBoolean b => VJson (JBoolean b)
  | SNumber n => VJson (JNumber n)
  | SString s => VJson (JString s)
  end.

Definition as_stored (v : JsValue) : option Stored :=
  match v with
  | VJson (JBoolean b) => Some (SBoolean b)
  | VJson (JNumber n) => Some (SNumber n)
  | VJson (JString s) => Some (SString s)
  | _ => None
  end.

(** A getter result ([T | undefined]) as a value. *)
Definition of_cached (c : option Stored) : JsValue :=
  match c with
  | Some p => of_stored p
  | None => VUndefined
  end.

Definition is_primitive (t : TypeTag) : bool :=
  match t with
  | TNumber | TString | TBoolean => true
  | _ => false
  end.

(** ** Store configuration ([MMKVConfiguration] of [MMKV.d.ts]) *)

Record MMKVConfiguration : Type := {
  id : string;
  path : option string;
  encryptionKey : option string
}.

#[global] Instance Stored_inhabited : Inhabited Stored := populate (SBoolean false).

(** [===] on strings and on optional strings. *)
Definition string_strict_eq (a b : string) : bool := bool_decide (a = b).
Definition opt_strict_eq (a b : option string) : bool := bool_decide (a = b).

(** hooks.js, lines 17-20. *)
Definition isConfigurationEqual (left right : Nullable MMKVConfiguration) : bool :=
  match left, right with
  | Present l, Present r =>
      opt_strict_eq (encryptionKey l) (encryptionKey r)
      && string_strict_eq (id l) (id r)
      && opt_strict_eq (path l) (path r)
  | _, _ => is_nullish left && is_nullish right
  end.

(** ** The world *)

(** References to [MMKV] objects, listener identities and hook instances
    are numbers; a function supplied by the application is known by name. *)
Abbreviation HandleId := nat (only parsing).
Abbreviation ListenerId := nat (only parsing).
Abbreviation HookId := nat (only parsing).
Abbreviation UserFn := string (only parsing).

(** The typed accessors handed to [createMMKVHook] (lines 102, 115, 128). *)
Inductive Getter : Type := GetString | GetNumber | GetBoolean.

(** The closures registered as change listeners. *)
Inductive Callback : Type :=
  | HookListener (hook : HookId) (getter : Getter) (key : string) (mmkv : HandleId)
  | RefListener (hook : HookId)
  | DirectListener (fn : UserFn).

(** Modelled from the spec: one [MMKV] object (a Store Handle): its
    configuration, the engine's contents, and the listener registry. *)
Record Store : Type := {
  config : Nullable MMKVConfiguration;
  data : gmap string Stored;
  onValueChangedListeners : list (ListenerId * Callback)
}.

(** Modelled from the spec: a change notification on its way: the handle,
    the key, and the listeners that were registered when the mutation
    completed. *)
Record Notification : Type := {
  n_handle : HandleId;
  n_key : string;
  n_targets : list ListenerId
}.

Inductive Event : Type :=
  | Constructed (h : HandleId) (cfg : Nullable MMKVConfiguration)
  | CalledSet (h : HandleId) (key : string) (value : JsValue)
  | CalledDelete (h : HandleId) (key : string)
  | Subscribed (h : HandleId) (l : ListenerId)
  | Unsubscribed (h : HandleId) (l : ListenerId)
  | Invoked (l : ListenerId) (key : string)
  | UserCalled (fn : UserFn) (key : string).

(** Cells of one [createMMKVHook] binding: the [useState] cell, [valueRef],
    the dependency array [key, mmkv] shared by both effects, and the
    cleanup of the subscribing effect. *)
Record HookCell : Type := {
  state : option Stored;
  valueRef : option Stored;
  deps : option (string * HandleId);
  cleanup : option (HandleId * ListenerId)
}.

(** Cells of [useMMKV]: the refs [instance] and [lastConfiguration]. *)
Record HandleCell : Type := {
  instance_ref : option HandleId;
  lastConfiguration : Nullable MMKVConfiguration
}.

(** Cells of [useMMKVListener]: [ref], the dependency [mmkv], the cleanup. *)
Record ListenerCell : Type := {
  ref : UserFn;
  l_deps : option HandleId;
  l_cleanup : option (HandleId * ListenerId)
}.

(** The [useMemo] cell of [useMMKVObject]: dependency [string] and value. *)
Record MemoCell : Type := {
  memo_dep : option Stored;
  memo_value : option Json
}.

Record World : Type := {
  defaultInstance : option HandleId;
  heap : list Store;
  nextListener : ListenerId;
  hooks : gmap HookId HookCell;
  handleCells : gmap HookId HandleCell;
  listenerCells : gmap HookId ListenerCell;
  memoCells : gmap HookId MemoCell;
  inflight : list Notification;
  trace : list Event
}.

Definition initial : World := {|
  defaultInstance := None; heap := []; nextListener := 0;
  hooks := ∅; handleCells := ∅; listenerCells := ∅; memoCells := ∅;
  inflight := []; trace := []
|}.

Definition with_defaultInstance (x : option HandleId) (w : World) : World :=
  {| defaultInstance := x; heap := heap w; nextListener := nextListener w;
     hooks := hooks w; handleCells := handleCells w;
     listenerCells := listenerCells w; memoCells := memoCells w;
     inflight := inflight w; trace := trace w |}.

Definition with_heap (x : list Store) (w : World) : World :=
  {| defaultInstance := defaultInstance w; heap := x;
     nextListener := nextListener w;
     hooks := hooks w; handleCells := handleCells w;
     listenerCells := listenerCells w; memoCells := memoCells w;
     inflight := inflight w; trace := trace w |}.

Definition with_nextListener (x : ListenerId) (w : World) : World :=
  {| defaultInstance := defaultInstance w; heap := heap w; nextListener := x;
     hooks := hooks w; handleCells := handleCells w;
     listenerCells := listenerCells w; memoCells := memoCells w;
     inflight := inflight w; trace := trace w |}.

Definition with_hooks (x : gmap HookId HookCell) (w : World) : World :=
  {| defaultInstance := defaultInstance w; heap := heap w;
     nextListener := nextListener w;
     hooks := x; handleCells := handleCells w;
     listenerCells := listenerCells w; memoCells := memoCells w;
     inflight := inflight w; trace := trace w |}.

Definition with_handleCells (x : gmap HookId HandleCell) (w : World) : World :=
  {| defaultInstance := defaultInstance w; heap := heap w;
     nextListener := nextListener w;
     hooks := hooks w; handleCells := x;
     listenerCells := listenerCells w; memoCells := memoCells w;
     inflight := inflight w; trace := trace w |}.

Definition with_listenerCells (x : gmap HookId ListenerCell) (w : World) : World :=
  {| defaultInstance := defaultInstance w; heap := heap w;
     nextListener := nextListener w;
     hooks := hooks w; handleCells := handleCells w;
     listenerCells := x; memoCells := memoCells w;
     inflight := inflight w; trace := trace w |}.

Definition with_memoCells (x : gmap HookId MemoCell) (w : World) : World :=
  {| defaultInstance := defaultInstance w; heap := heap w;
     nextListener := nextListener w;
     hooks := hooks w; handleCells := handleCells w;
     listenerCells := listenerCells w; memoCells := x;
     inflight := inflight w; trace := trace w |}.

Definition with_inflight (x : list Notification) (w : World) : World :=
  {| defaultInstance := defaultInstance w; heap := heap w;
     nextListener := nextListener w;
     hooks := hooks w; handleCells := handleCells w;
     listenerCells := listenerCells w; memoCells := memoCells w;
     inflight := x; trace := trace w |}.

Definition with_trace (x : list Event) (w : World) : World :=
  {| defaultInstance := defaultInstance w; heap := heap w;
     nextListener := nextListener w;
     hooks := hooks w; handleCells := handleCells w;
     listenerCells := listenerCells w; memoCells := memoCells w;
     inflight := inflight w; trace := x |}.

Definition log (e : Event) (w : World) : World :=
  with_trace (trace w ++ [e]) w.

(** ** The monad of JavaScript code: state and exceptions *)

Inductive Error : Type :=
  | UnsupportedType (t : TypeTag)
  | SyntaxError (text : string)
  | TypeError.

Inductive Result (A : Type) : Type :=
  | Returned (a : A)
  | Thrown (e : Error).
Arguments Returned {A} a.
Arguments Thrown {A} e.

Definition M (A : Type) : Type := World -> Result A * World.

Definition ret {A} (a : A) : M A := fun w => (Returned a, w).
Definition throw {A} (e : Error) : M A := fun w => (Thrown e, w).
Definition bind {A B} (c : M A) (k : A -> M B) : M B :=
  fun w =>
    match c w with
    | (Returned a, w') => k a w'
    | (Thrown e, w') => (Thrown e, w')
    end.
Definition gets {A} (f : World -> A) : M A := fun w => (Returned (f w), w).
Definition modify (f : World -> World) : M unit := fun w => (Returned tt, f w).

Notation "'let!' x ':=' c 'in' k" := (bind c (fun x => k))
  (at level 10, x name, c at level 100, k at level 200).
Notation "c ';;' k" := (bind c (fun _ => k))
  (at level 100, k at level 200, right associativity).

(** The world an action leaves behind, whether it returned or threw. *)
Definition exec {A} (c : M A) (w : World) : World := (c w).2.
Definition outcome {A} (c : M A) (w : World) : Result A := (c w).1.

(** ** The host: JavaScript built-ins and the native engine

    [JSON.stringify] returns a text, returns [undefined] (for a function or a
    symbol), or throws; [JSON.parse] returns a JSON value or throws a
    [SyntaxError] ([None]); [number_toString] is the text of a number, used
    when [JSON.parse] is handed a non-string.  [engine_open] is what the
    native engine holds for a configuration when a handle is constructed. *)

Inductive Stringified : Type :=
  | Text (s : string)
  | NoText
  | Raises (e : Error).

Class Host : Type := {
  JSON_stringify : JsValue -> Stringified;
  JSON_parse : string -> option Json;
  number_toString : float -> string;
  engine_open : Nullable MMKVConfiguration -> gmap string Stored
}.

(** [String(x)] for a stored value. *)
Definition to_text `{Host} (p : Stored) : string :=
  match p with
  | SString s => s
  | SBoolean true => "true"
  | SBoolean false => "false"
  | SNumber n => number_toString n
  end.

(** Leibniz equality of numbers is decidable ([Object.is] on numbers). *)
#[global] Instance float_eq_dec : EqDecision float.
Proof.
  intros x y. destruct (PrimFloat.Leibniz.eqb x y) eqn:E.
  - left. by apply FloatAxioms.Leibniz.eqb_spec.
  - right. intros Heq. apply FloatAxioms.Leibniz.eqb_spec in Heq. congruence.
Defined.

#[global] Instance Stored_eq_dec : EqDecision Stored.
Proof. solve_decision. Defined.

#[global] Instance MMKVConfiguration_eq_dec : EqDecision MMKVConfiguration.
Proof. solve_decision. Defined.

(** A listener handle ([Listener] of [MMKV.d.ts]): the store it is
    registered on and its identity. *)
Definition Listener : Type := HandleId * ListenerId.

(** Modelled from the spec: the listener registry of a Store Handle, looked
    up by listener identity. *)
Fixpoint registered (l : ListenerId) (registry : list (ListenerId * Callback))
  : option Callback :=
  match registry with
  | [] => None
  | (l', cb) :: rest => if bool_decide (l' = l) then Some cb else registered l rest
  end.

(** Modelled from the spec: cancellation removes the observer (it is
    idempotent). *)
Definition unregister (l : ListenerId) (registry : list (ListenerId * Callback))
  : list (ListenerId * Callback) :=
  filter (fun e => e.1 <> l) registry.

(** The engine's contents and the registry of the [MMKV] object [h]. *)
Definition contents (h : HandleId) (w : World) : gmap string Stored :=
  from_option data ∅ (heap w !! h).

Definition listeners (h : HandleId) (w : World) : list (ListenerId * Callback) :=
  from_option onValueChangedListeners [] (heap w !! h).

Definition with_data (f : gmap string Stored -> gmap string Stored) (s : Store) : Store :=
  {| config := config s; data := f (data s);
     onValueChangedListeners := onValueChangedListeners s |}.

Definition with_listeners
  (f : list (ListenerId * Callback) -> list (ListenerId * Callback)) (s : Store) : Store :=
  {| config := config s; data := data s;
     onValueChangedListeners := f (onValueChangedListeners s) |}.

(** ** The [MMKV] class *)

Module MMKV.
Section WithHost.
Context `{Host}.

(** Modelled from the spec: the constructor of the [MMKV] class, which is
    declared in [MMKV.d.ts] only.  A handle owns one engine connection and
    an empty listener registry. *)
Definition new (configuration : Nullable MMKVConfiguration) : M HandleId :=
  fun w =>
    let h := length (heap w) in
    let s := {| config := configuration; data := engine_open configuration;
                onValueChangedListeners := [] |} in
    (Returned h, log (Constructed h configuration) (with_heap (heap w ++ [s]) w)).

(** Modelled from the spec: the Change Notifier's intake.  A mutation of
    [key] is announced to the listeners registered when it completed. *)
Definition notify (h : HandleId) (key : string) : M unit :=
  modify (fun w =>
    with_inflight
      (inflight w ++ [{| n_handle := h; n_key := key; n_targets := (listeners h w).*1 |}])
      w).

(** Modelled from the spec: [set] stores the value and triggers the Change
    Notifier for [key] once the engine has committed; it fails with an
    [UnsupportedType] error on a value outside boolean, number, string. *)
Definition set (h : HandleId) (key : string) (value : JsValue) : M unit :=
  modify (log (CalledSet h key value));;
  match as_stored value with
  | Some p =>
      modify (fun w => with_heap (alter (with_data <[key := p]>) h (heap w)) w);;
      notify h key
  | None => throw (UnsupportedType (typeof value))
  end.

(** Modelled from the spec: [delete] removes the key and triggers the
    Change Notifier for [key]. *)
Definition delete (h : HandleId) (key : string) : M unit :=
  modify (log (CalledDelete h key));;
  modify (fun w => with_heap (alter (with_data (base.delete key)) h (heap w)) w);;
  notify h key.

(** Modelled from the spec: the typed accessors return absent when the key
    is unset or holds a value of another type. *)
Definition getString (h : HandleId) (key : string) : M (option string) :=
  gets (fun w => match contents h w !! key with Some (SString s) => Some s | _ => None end).

(** Modelled from the spec: [getNumber], as [getString]. *)
Definition getNumber (h : HandleId) (key : string) : M (option float) :=
  gets (fun w => match contents h w !! key with Some (SNumber n) => Some n | _ => None end).

(** Modelled from the spec: [getBoolean], as [getString]. *)
Definition getBoolean (h : HandleId) (key : string) : M (option bool) :=
  gets (fun w => match contents h w !! key with Some (SBoolean b) => Some b | _ => None end).

(** Modelled from the spec: [contains] delegates to the engine. *)
Definition contains (h : HandleId) (key : string) : M bool :=
  gets (fun w => bool_decide (is_Some (contents h w !! key))).

(** Modelled from the spec: registering an observer returns a handle whose
    cancellation removes it. *)
Definition addOnValueChangedListener (h : HandleId) (onValueChanged : Callback)
  : M Listener :=
  fun w =>
    let l := nextListener w in
    (Returned (h, l),
     log (Subscribed h l)
       (with_nextListener (S l)
          (with_heap (alter (with_listeners (fun r => r ++ [(l, onValueChanged)])) h (heap w))
             w))).

(** Modelled from the spec: [Listener.remove]. *)
Definition remove (listener : Listener) : M unit :=
  modify (fun w =>
    log (Unsubscribed listener.1 listener.2)
      (with_heap (alter (with_listeners (unregister listener.2)) listener.1 (heap w)) w)).
End WithHost.
End MMKV.

(** ** hooks.js *)

(** The closure [set] of [createMMKVHook] (line 56): the binding's cells and
    the [key] and [mmkv] it captured. *)
Record Setter : Type := {
  s_hook : HookId;
  s_key : string;
  s_mmkv : HandleId
}.

Section Hooks.
Context `{Host}.

(** Lines 24-30. *)
Definition getDefaultInstance : M HandleId :=
  let! current := gets defaultInstance in
  match current with
  | None =>
      let! h := MMKV.new JsUndefined in
      modify (with_defaultInstance (Some h));;
      ret h
  | Some h => ret h
  end.

(** [instance ?? getDefaultInstance()] (lines 51 and 179). *)
Definition resolve (instance : Nullable HandleId) : M HandleId :=
  match instance with
  | Present h => ret h
  | _ => getDefaultInstance
  end.

Definition fresh_refs : HandleCell :=
  {| instance_ref := None; lastConfiguration := JsUndefined |}.

(** Lines 36-47.  [c] names the component's pair of refs; both start
    [undefined].  The test of line 41 is written as a match on
    [instance.current] so that line 46 returns a handle. *)
Definition useMMKV (c : HookId) (configuration : Nullable MMKVConfiguration)
  : M HandleId :=
  let! refs := gets (fun w => default fresh_refs (handleCells w !! c)) in
  modify (fun w => with_handleCells (<[c := refs]> (handleCells w)) w);;
  if is_nullish configuration then getDefaultInstance
  else
    let construct : M HandleId :=
      let! h := MMKV.new configuration in
      modify (fun w =>
        with_handleCells
          (<[c := {| instance_ref := Some h; lastConfiguration := configuration |}]>
             (handleCells w)) w);;
      ret h in
    match instance_ref refs with
    | None => construct
    | Some h =>
        if negb (isConfigurationEqual (lastConfiguration refs) configuration)
        then construct
        else ret h
    end.

(** The accessor closures of lines 102, 115 and 128. *)
Definition run_getter (getter : Getter) (instance : HandleId) (key : string)
  : M (option Stored) :=
  match getter with
  | GetString => let! s := MMKV.getString instance key in ret (SString <$> s)
  | GetNumber => let! n := MMKV.getNumber instance key in ret (SNumber <$> n)
  | GetBoolean => let! b := MMKV.getBoolean instance key in ret (SBoolean <$> b)
  end.

(** React's state setter of the [useState] cell of binding [b]. *)
Definition setValue (b : HookId) (x : option Stored) : M unit :=
  modify (fun w =>
    with_hooks
      (alter (fun c => {| state := x; valueRef := valueRef c;
                          deps := deps c; cleanup := cleanup c |}) b (hooks w)) w).

(** Lines 56-73: the setter. *)
Definition createMMKVHook_set (s : Setter) (v : JsValue) : M unit :=
  let! current := gets (fun w => hooks w !! s_hook s ≫= valueRef) in
  let newValue := match v with VFunction f => f current | _ => v end in
  match typeof newValue with
  | TNumber | TString | TBoolean => MMKV.set (s_mmkv s) (s_key s) newValue
  | TUndefined => MMKV.delete (s_mmkv s) (s_key s)
  | t => throw (UnsupportedType t)
  end.

(** Lines 80-84: the change listener of a binding. *)
Definition createMMKVHook_listener
  (b : HookId) (getter : Getter) (key : string) (mmkv : HandleId)
  (changedKey : string) : M unit :=
  if bool_decide (changedKey = key)
  then let! fresh := run_getter getter mmkv key in setValue b fresh
  else ret tt.

(** Lines 50-56 and 87: the render of a binding.  [useState] runs its
    initialiser on the first render only; [valueRef.current] is assigned
    on every render.  [useCallback] keeps [set] while [key] and [mmkv] are
    the same, and these are all the closure captures. *)
Definition createMMKVHook (getter : Getter) (b : HookId) (key : string)
  (instance : Nullable HandleId) : M (option Stored * Setter) :=
  let! mmkv := resolve instance in
  let! cell := gets (fun w => hooks w !! b) in
  let! value :=
    match cell with
    | Some c => ret (state c)
    | None =>
        let! v := run_getter getter mmkv key in
        modify (fun w =>
          with_hooks
            (<[b := {| state := v; valueRef := v; deps := None; cleanup := None |}]>
               (hooks w)) w);;
        ret v
    end in
  modify (fun w =>
    with_hooks
      (alter (fun c => {| state := state c; valueRef := value;
                          deps := deps c; cleanup := cleanup c |}) b (hooks w)) w);;
  ret (value, {| s_hook := b; s_key := key; s_mmkv := mmkv |}).

(** Lines 75-86: the two effects, both with dependencies [key, mmkv].
    When the dependencies changed React first runs the cleanup of the
    previous subscription, then the effects in order. *)
Definition createMMKVHook_effects (getter : Getter) (b : HookId) (key : string)
  (mmkv : HandleId) : M unit :=
  let! cell := gets (fun w => hooks w !! b) in
  match cell with
  | None => ret tt
  | Some c =>
      if bool_decide (deps c = Some (key, mmkv)) then ret tt
      else
        match cleanup c with
        | Some listener => MMKV.remove listener
        | None => ret tt
        end;;
        (let! fresh := run_getter getter mmkv key in setValue b fresh);;
        let! listener :=
          MMKV.addOnValueChangedListener mmkv (HookListener b getter key mmkv) in
        modify (fun w =>
          with_hooks
            (alter (fun c => {| state := state c; valueRef := valueRef c;
                                deps := Some (key, mmkv);
                                cleanup := Some listener |}) b (hooks w)) w)
  end.

Definition useMMKVString := createMMKVHook GetString.
Definition useMMKVNumber := createMMKVHook GetNumber.
Definition useMMKVBoolean := createMMKVHook GetBoolean.

(** Lines 146-149: the function memoised on [string]. *)
Definition useMMKVObject_value (string : option Stored) : M (option Json) :=
  match string with
  | None => ret None
  | Some text =>
      match JSON_parse (to_text text) with
      | Some j => ret (Some j)
      | None => throw (SyntaxError (to_text text))
      end
  end.

(** [useMemo(f, [string])] on the memo cell of binding [b]. *)
Definition useMemo (b : HookId) (string : option Stored) : M (option Json) :=
  let! cell := gets (fun w => memoCells w !! b) in
  let compute : M (option Json) :=
    let! v := useMMKVObject_value string in
    modify (fun w =>
      with_memoCells (<[b := {| memo_dep := string; memo_value := v |}]> (memoCells w)) w);;
    ret v in
  match cell with
  | Some c => if bool_decide (memo_dep c = string) then ret (memo_value c) else compute
  | None => compute
  end.

(** Lines 150-158: the setter of the object binding. *)
Definition useMMKVObject_setValue (setString : Setter) (v : JsValue) : M unit :=
  if loosely_null v then createMMKVHook_set setString VUndefined
  else
    match JSON_stringify v with
    | Text s => createMMKVHook_set setString (VJson (JString s))
    | NoText => createMMKVHook_set setString VUndefined
    | Raises e => throw e
    end.

(** Lines 144-160: the render of an object binding.  The returned setter
    is [useMMKVObject_setValue] on the string binding's setter. *)
Definition useMMKVObject (b : HookId) (key : string) (instance : Nullable HandleId)
  : M (option Json * Setter) :=
  let! binding := useMMKVString b key instance in
  let! value := useMemo b binding.1 in
  ret (value, binding.2).

(** Lines 176-179: the render of a listener binding. *)
Definition useMMKVListener (c : HookId) (valueChangedListener : UserFn)
  (instance : Nullable HandleId) : M unit :=
  modify (fun w =>
    let cell := default {| ref := valueChangedListener; l_deps := None; l_cleanup := None |}
                  (listenerCells w !! c) in
    with_listenerCells
      (<[c := {| ref := valueChangedListener; l_deps := l_deps cell;
                 l_cleanup := l_cleanup cell |}]> (listenerCells w)) w);;
  let! mmkv := resolve instance in
  ret tt.

(** Lines 180-185: its effect, with dependency [mmkv]. *)
Definition useMMKVListener_effect (c : HookId) (mmkv : HandleId) : M unit :=
  let! cell := gets (fun w => listenerCells w !! c) in
  match cell with
  | None => ret tt
  | Some cl =>
      if bool_decide (l_deps cl = Some mmkv) then ret tt
      else
        match l_cleanup cl with
        | Some listener => MMKV.remove listener
        | None => ret tt
        end;;
        let! listener := MMKV.addOnValueChangedListener mmkv (RefListener c) in
        modify (fun w =>
          with_listenerCells
            (alter (fun cl => {| ref := ref cl; l_deps := Some mmkv;
                                 l_cleanup := Some listener |}) c (listenerCells w)) w)
  end.

(** Lines 181-183: the listener reads [ref.current] when it is invoked. *)
Definition useMMKVListener_listener (c : HookId) (changedKey : string) : M unit :=
  let! cell := gets (fun w => listenerCells w !! c) in
  match cell with
  | Some cl => modify (log (UserCalled (ref cl) changedKey))
  | None => ret tt
  end.

(** Calling a registered closure. *)
Definition call (cb : Callback) (changedKey : string) : M unit :=
  match cb with
  | HookListener b getter key mmkv => createMMKVHook_listener b getter key mmkv changedKey
  | RefListener c => useMMKVListener_listener c changedKey
  | DirectListener fn => modify (log (UserCalled fn changedKey))
  end.
End Hooks.

(** ** The Change Notifier *)

Module ChangeNotifier.
Section WithHost.
Context `{Host}.

(** Modelled from the spec: the delivery of one notification to one
    listener of the [MMKV] class, which is declared in [MMKV.d.ts] only.
    A listener receives it when it was registered before the mutation
    completed and is not cancelled at the time of delivery. *)
Definition dispatch (h : HandleId) (key : string) (l : ListenerId) : M unit :=
  let! registry := gets (listeners h) in
  match registered l registry with
  | Some cb => modify (log (Invoked l key));; call cb key
  | None => ret tt
  end.

(** Modelled from the spec: fan-out, every listener due is invoked for a
    single mutation. *)
Fixpoint dispatch_all (h : HandleId) (key : string) (targets : list ListenerId)
  : M unit :=
  match targets with
  | [] => ret tt
  | l :: rest => dispatch h key l;; dispatch_all h key rest
  end.

(** Modelled from the spec: the Change Notifier delivers the oldest
    notification in flight to every listener it is due to (fan-out). *)
Definition deliver : M unit :=
  let! pending := gets inflight in
  match pending with
  | [] => ret tt
  | n :: rest =>
      modify (with_inflight rest);;
      dispatch_all (n_handle n) (n_key n) (n_targets n)
  end.

(** Modelled from the spec: [count] deliveries in a row. *)
Fixpoint deliver_n (count : nat) : M unit :=
  match count with
  | O => ret tt
  | S count' => deliver;; deliver_n count'
  end.

(** Modelled from the spec: the delivery of everything in flight (a
    synchronous notifier does this before the mutating call returns). *)
Definition flush : M unit :=
  let! pending := gets inflight in
  deliver_n (length pending).
End WithHost.
End ChangeNotifier.

(** ** What the application and React may do *)

Inductive Action : Type :=
  | GetDefaultInstance
  | NewMMKV (configuration : Nullable MMKVConfiguration)
  | UseMMKV (c : HookId) (configuration : Nullable MMKVConfiguration)
  | RenderHook (getter : Getter) (b : HookId) (key : string) (instance : Nullable HandleId)
  | RenderObject (b : HookId) (key : string) (instance : Nullable HandleId)
  | RenderListener (c : HookId) (fn : UserFn) (instance : Nullable HandleId)
  | UnmountHook (b : HookId)
  | UnmountListener (c : HookId)
  | CallSet (s : Setter) (v : JsValue)
  | CallSetObject (s : Setter) (v : JsValue)
  | StoreSet (h : HandleId) (key : string) (v : JsValue)
  | StoreDelete (h : HandleId) (key : string)
  | AddListener (h : HandleId) (fn : UserFn)
  | RemoveListener (listener : Listener)
  | Deliver.

Section Run.
Context `{Host}.

(** A render followed by React's commit of its effects. *)
Definition render_hook (getter : Getter) (b : HookId) (key : string)
  (instance : Nullable HandleId) : M (option Stored * Setter) :=
  let! r := createMMKVHook getter b key instance in
  createMMKVHook_effects getter b key (s_mmkv r.2);;
  ret r.

Definition render_object (b : HookId) (key : string) (instance : Nullable HandleId)
  : M (option Json * Setter) :=
  let! r := useMMKVObject b key instance in
  createMMKVHook_effects GetString b key (s_mmkv r.2);;
  ret r.

Definition render_listener (c : HookId) (fn : UserFn) (instance : Nullable HandleId)
  : M unit :=
  useMMKVListener c fn instance;;
  let! mmkv := resolve instance in
  useMMKVListener_effect c mmkv.

(** Unmounting runs the cleanup of the subscribing effect (lines 85, 184). *)
Definition unmount_hook (b : HookId) : M unit :=
  let! cell := gets (fun w => hooks w !! b) in
  match cell ≫= cleanup with
  | Some listener =>
      MMKV.remove listener;;
      modify (fun w =>
        with_hooks
          (alter (fun c => {| state := state c; valueRef := valueRef c;
                              deps := None; cleanup := None |}) b (hooks w)) w)
  | None => ret tt
  end.

Definition unmount_listener (c : HookId) : M unit :=
  let! cell := gets (fun w => listenerCells w !! c) in
  match cell ≫= l_cleanup with
  | Some listener =>
      MMKV.remove listener;;
      modify (fun w =>
        with_listenerCells
          (alter (fun cl => {| ref := ref cl; l_deps := None; l_cleanup := None |})
             c (listenerCells w)) w)
  | None => ret tt
  end.

Definition perform (a : Action) : M unit :=
  match a with
  | GetDefaultInstance => getDefaultInstance;; ret tt
  | NewMMKV configuration => MMKV.new configuration;; ret tt
  | UseMMKV c configuration => useMMKV c configuration;; ret tt
  | RenderHook getter b key instance => render_hook getter b key instance;; ret tt
  | RenderObject b key instance => render_object b key instance;; ret tt
  | RenderListener c fn instance => render_listener c fn instance
  | UnmountHook b => unmount_hook b
  | UnmountListener c => unmount_listener c
  | CallSet s v => createMMKVHook_set s v
  | CallSetObject s v => useMMKVObject_setValue s v
  | StoreSet h key v => MMKV.set h key v
  | StoreDelete h key => MMKV.delete h key
  | AddListener h fn => MMKV.addOnValueChangedListener h (DirectListener fn);; ret tt
  | RemoveListener listener => MMKV.remove listener
  | Deliver => ChangeNotifier.deliver
  end.

(** A run of the program: an action that throws leaves the world as it
    was when it threw, and the run goes on. *)
Definition run (actions : list Action) (w : World) : World :=
  foldl (fun w a => exec (perform a) w) w actions.
End Run.

(** ** A small host for the examples

    A JSON printer and reader for documents without white space, escape
    sequences or fractional numbers, and an engine whose stores start
    empty.  It instantiates [Host] where a statement is evaluated on
    concrete data. *)

Module ExampleHost.
Import Stdlib.Strings.Ascii.

Definition integer_of (n : float) : option Z :=
  match Prim2SF n with
  | S754_zero _ => Some 0%Z
  | S754_finite negative m e =>
      let magnitude :=
        if (0 <=? e)%Z then Some (Z.pos m * 2 ^ e)%Z
        else if (Z.pos m mod 2 ^ (- e) =? 0)%Z then Some (Z.pos m / 2 ^ (- e))%Z
        else None in
      (fun z => if negative then (- z)%Z else z) <$> magnitude
  | _ => None
  end.

Definition number_of (z : Z) : float :=
  if (z <? 0)%Z then (- PrimFloat.of_uint63 (Uint63.of_Z (- z)))%float
  else PrimFloat.of_uint63 (Uint63.of_Z z).

Definition print_number (n : float) : option string :=
  (fun z : Z => pretty z) <$> integer_of n.

Definition plain_char (c : ascii) : bool :=
  negb (bool_decide (c = "034"%char)) && negb (bool_decide (c = "092"%char)).

Definition plain (s : string) : bool := forallb plain_char (String.list_ascii_of_string s).

Definition quote (s : string) : option string :=
  if plain s then Some (String "034" s +:+ String "034" "") else None.

Fixpoint print (j : Json) : option string :=
  match j with
  | JNull => Some "null"
  | JBoolean true => Some "true"
  | JBoolean false => Some "false"
  | JNumber n => print_number n
  | JString s => quote s
  | JArray items =>
      let fix print_items (l : list Json) : option string :=
        match l with
        | [] => Some ""
        | [x] => print x
        | x :: rest =>
            a ← print x; b ← print_items rest; Some (a +:+ "," +:+ b)
        end in
      body ← print_items items; Some ("[" +:+ body +:+ "]")
  | JObject props =>
      let fix print_props (l : list (string * Json)) : option string :=
        match l with
        | [] => Some ""
        | [(k, x)] => q ← quote k; a ← print x; Some (q +:+ ":" +:+ a)
        | (k, x) :: rest =>
            q ← quote k; a ← print x; b ← print_props rest;
            Some (q +:+ ":" +:+ a +:+ "," +:+ b)
        end in
      body ← print_props props; Some ("{" +:+ body +:+ "}")
  end.

Definition is_digit (c : ascii) : bool :=
  (48 <=? nat_of_ascii c) && (nat_of_ascii c <=? 57).

Fixpoint read_digits (acc : Z) (input : list ascii) : Z * list ascii :=
  match input with
  | c :: rest =>
      if is_digit c
      then read_digits (10 * acc + Z.of_nat (nat_of_ascii c - 48))%Z rest
      else (acc, input)
  | [] => (acc, [])
  end.

Fixpoint read_chars (acc : list ascii) (input : list ascii)
  : option (string * list ascii) :=
  match input with
  | c :: rest =>
      if bool_decide (c = "034"%char)
      then Some (String.string_of_list_ascii (reverse acc), rest)
      else if bool_decide (c = "092"%char) then None
      else read_chars (c :: acc) rest
  | [] => None
  end.

Definition expect (word : string) (input : list ascii) : option (list ascii) :=
  let w := String.list_ascii_of_string word in
  if bool_decide (take (length w) input = w) then Some (drop (length w) input) else None.

Fixpoint read_value (fuel : nat) (input : list ascii) : option (Json * list ascii) :=
  match fuel with
  | O => None
  | S fuel' =>
      let fix read_items (n : nat) (acc : list Json) (input : list ascii)
        : option (list Json * list ascii) :=
        match n with
        | O => None
        | S n' =>
            '(x, rest) ← read_value fuel' input;
            match rest with
            | "," %char :: rest' => read_items n' (x :: acc) rest'
            | "]" %char :: rest' => Some (reverse (x :: acc), rest')
            | _ => None
            end
        end in
      let fix read_props (n : nat) (acc : list (string * Json)) (input : list ascii)
        : option (list (string * Json) * list ascii) :=
        match n with
        | O => None
        | S n' =>
            match input with
            | "034"%char :: input1 =>
                '(k, input2) ← read_chars [] input1;
                input3 ← expect ":" input2;
                '(x, rest) ← read_value fuel' input3;
                match rest with
                | "," %char :: rest' => read_props n' ((k, x) :: acc) rest'
                | "}" %char :: rest' => Some (reverse ((k, x) :: acc), rest')
                | _ => None
                end
            | _ => None
            end
        end in
      match input with
      | "n"%char :: _ => rest ← expect "null" input; Some (JNull, rest)
      | "t"%char :: _ => rest ← expect "true" input; Some (JBoolean true, rest)
      | "f"%char :: _ => rest ← expect "false" input; Some (JBoolean false, rest)
      | "034"%char :: rest => '(s, rest') ← read_chars [] rest; Some (JString s, rest')
      | "[" %char :: "]" %char :: rest => Some (JArray [], rest)
      | "[" %char :: rest => '(l, rest') ← read_items fuel' [] rest; Some (JArray l, rest')
      | "{" %char :: "}" %char :: rest => Some (JObject [], rest)
      | "{" %char :: rest => '(l, rest') ← read_props fuel' [] rest; Some (JObject l, rest')
      | "-"%char :: c :: digits =>
          if is_digit c
          then let '(z, rest') := read_digits 0 (c :: digits) in
               Some (JNumber (number_of (- z)), rest')
          else None
      | c :: _ =>
          if is_digit c
          then let '(z, rest') := read_digits 0 input in Some (JNumber (number_of z), rest')
          else None
      | [] => None
      end
  end.

Definition read (text : string) : option Json :=
  let input := String.list_ascii_of_string text in
  match read_value (S (length input)) input with
  | Some (j, []) => Some j
  | _ => None
  end.

Definition stringify (v : JsValue) : Stringified :=
  match v with
  | VUndefined | VSymbol _ | VFunction _ => NoText
  | VJson j => match print j with Some s => Text s | None => Raises TypeError end
  | VBigInt _ | VHostObject _ => Raises TypeError
  end.

#[export] Instance host : Host := {|
  JSON_stringify := stringify;
  JSON_parse := read;
  number_toString := fun n => default "NaN" (print_number n);
  engine_open := fun _ => ∅
|}.

(** The object [{a: 1}] and its JSON text. *)
Definition user : Json := JObject [("a", JNumber 1%float)].
Definition dq : string := String "034"%char "".
Definition user_text : string := "{" +:+ dq +:+ "a" +:+ dq +:+ ":1}".
End ExampleHost.

(** * The vocabulary of the properties *)

(** What the specification calls equal configurations. *)
Definition same_configuration (left right : Nullable MMKVConfiguration) : Prop :=
  match left, right with
  | Present l, Present r =>
      id l = id r /\ path l = path r /\ encryptionKey l = encryptionKey r
  | Present _, _ | _, Present _ => False
  | _, _ => True
  end.

(** [undefined] or [null], chosen by a flag. *)
Definition absent {A} (null : bool) : Nullable A :=
  if null then JsNull else JsUndefined.

(** Calls of [useMMKV] of one component without a configuration. *)
Definition absent_calls `{Host} (c : HookId) (nulls : list bool) (w : World) : World :=
  foldl (fun w n => exec (useMMKV c (absent n)) w) w nulls.

(** The handle cached by component [c], if any, is a handle of the heap. *)
Definition cache_live (w : World) (c : HookId) : Prop :=
  match handleCells w !! c ≫= instance_ref with
  | Some h => h < length (heap w)
  | None => True
  end.

(** The store that [new MMKV(configuration)] makes. *)
Definition fresh_store `{Host} (configuration : Nullable MMKVConfiguration) : Store :=
  {| config := configuration; data := engine_open configuration;
     onValueChangedListeners := [] |}.

(** The call [useMMKV(b)] of component [c] in world [w] answers with the
    handle [h] and constructs nothing: heap, trace, cache and default handle
    are as they were. *)
Definition reuses_handle `{Host} (c : HookId) (b : MMKVConfiguration) (h : HandleId)
  (w : World) : Prop :=
  let w' := exec (useMMKV c (Present b)) w in
  outcome (useMMKV c (Present b)) w = Returned h
  /\ heap w' = heap w
  /\ trace w' = trace w
  /\ handleCells w' !! c = handleCells w !! c
  /\ defaultInstance w' = defaultInstance w.

(** The call [useMMKV(b)] of component [c] in world [w] constructs one
    store, with configuration [b], answers with its handle, which did not
    exist before, and caches the handle beside [b]. *)
Definition constructs_handle `{Host} (c : HookId) (b : MMKVConfiguration) (w : World)
  : Prop :=
  let w' := exec (useMMKV c (Present b)) w in
  outcome (useMMKV c (Present b)) w = Returned (length (heap w))
  /\ heap w' = heap w ++ [fresh_store (Present b)]
  /\ trace w' = trace w ++ [Constructed (length (heap w)) (Present b)]
  /\ handleCells w' !! c
     = Some {| instance_ref := Some (length (heap w)); lastConfiguration := Present b |}
  /\ defaultInstance w' = defaultInstance w.

(** What the typed accessor of a binding reads from the store. *)
Definition typed_read (getter : Getter) (h : HandleId) (key : string) (w : World)
  : option Stored :=
  match getter, contents h w !! key with
  | GetString, Some (SString s) => Some (SString s)
  | GetNumber, Some (SNumber n) => Some (SNumber n)
  | GetBoolean, Some (SBoolean b) => Some (SBoolean b)
  | _, _ => None
  end.

(** A computation relates every world to the world it leaves behind. *)
Definition preserves {A} (R : relation World) (c : M A) : Prop :=
  forall w, R w (exec c w).

(** Once the default handle is set it stays. *)
Definition keeps_default : relation World :=
  fun w w' => forall h, defaultInstance w = Some h -> defaultInstance w' = Some h.

(** The identities registered on a handle. *)
Definition ids (h : HandleId) (w : World) : list ListenerId := (listeners h w).*1.

(** Listener identities are issued from a counter and belong to one
    handle. *)
Record wf (w : World) : Prop := {
  wf_bounded : forall h l, l ∈ ids h w -> l < nextListener w;
  wf_owner : forall h h' l, l ∈ ids h w -> l ∈ ids h' w -> h = h'
}.

(** The registry of handle [h] in a heap. *)
Definition listeners_in (stores : list Store) (h : HandleId)
  : list (ListenerId * Callback) :=
  from_option onValueChangedListeners [] (stores !! h).

(** A step keeps the registry well formed. *)
Definition keeps_wf : relation World := fun w w' => wf w -> wf w'.

(** The keys with which listener [l] was invoked, in order. *)
Definition invocations (l : ListenerId) (t : list Event) : list string :=
  omap (fun e => match e with
                 | Invoked l' key => if decide (l' = l) then Some key else None
                 | _ => None
                 end) t.

(** Listener [l] was issued and is registered on no handle. *)
Definition cancelled (l : ListenerId) (w : World) : Prop :=
  l < nextListener w /\ forall h, l ∉ ids h w.

(** A step leaves a cancelled listener cancelled and does not invoke it. *)
Definition stays_cancelled (l : ListenerId) : relation World :=
  fun w w' =>
    cancelled l w -> cancelled l w' /\ invocations l (trace w') = invocations l (trace w).

(** The handle an [instance] argument stands for: itself, or the default
    handle when it is absent and the default handle exists. *)
Definition denotes (instance : Nullable HandleId) (mmkv : HandleId) (w : World) : Prop :=
  match instance with
  | Present h => h = mmkv
  | _ => defaultInstance w = Some mmkv
  end.

(** The function memoised by [useMMKVObject], as a result. *)
Definition parsed `{Host} (string : option Stored) : Result (option Json) :=
  match string with
  | None => Returned None
  | Some text =>
      match JSON_parse (to_text text) with
      | Some j => Returned (Some j)
      | None => Thrown (SyntaxError (to_text text))
      end
  end.

(** Every memo cell holds the result of a parse that succeeded. *)
Definition memo_consistent `{Host} (w : World) : Prop :=
  forall b cell,
    memoCells w !! b = Some cell -> parsed (memo_dep cell) = Returned (memo_value cell).

(** A step keeps the memo cells consistent. *)
Definition keeps_memo `{Host} : relation World :=
  fun w w' => memo_consistent w -> memo_consistent w'.

(** The state cell of a binding, when it is mounted. *)
Definition state_of (b : HookId) (w : World) : option (option Stored) :=
  state <$> hooks w !! b.

(** The callback writes the state of binding [b]. *)
Definition writes_to (b : HookId) (cb : Callback) : Prop :=
  match cb with
  | HookListener b' _ _ _ => b' = b
  | _ => False
  end.

(** What a delivery leaves alone: the stores, the queue of notifications,
    the default handle, the memo cells, and which bindings are mounted. *)
Definition frame : relation World :=
  fun w w' =>
    heap w' = heap w /\ inflight w' = inflight w
    /\ defaultInstance w' = defaultInstance w
    /\ memoCells w' = memoCells w
    /\ forall b, is_Some (hooks w !! b) -> is_Some (hooks w' !! b).

(** A binding [b] subscribed on [h] for [key], and no other listener of
    [h] writing its state. *)
Definition subscribed (b : HookId) (getter : Getter) (key : string)
  (h : HandleId) (lb : ListenerId) (w : World) : Prop :=
  is_Some (hooks w !! b)
  /\ registered lb (listeners h w) = Some (HookListener b getter key h)
  /\ forall l cb, registered l (listeners h w) = Some cb -> writes_to b cb -> l = lb.

(** Handle [h] is an [MMKV] object of the heap, constructed with [cfg]. *)
Definition constructed_with (h : HandleId) (cfg : Nullable MMKVConfiguration)
  (w : World) : Prop :=
  config <$> heap w !! h = Some cfg.

(** The default handle was constructed without a configuration, and the
    handle a component caches with the configuration cached beside it. *)
Definition handles_sound (w : World) : Prop :=
  (forall h, defaultInstance w = Some h -> constructed_with h JsUndefined w)
  /\ (forall c cell h,
        handleCells w !! c = Some cell -> instance_ref cell = Some h ->
        constructed_with h (lastConfiguration cell) w).

Definition keeps_handles : relation World :=
  fun w w' => handles_sound w -> handles_sound w'.

(** The stores constructed so far, in order. *)
Definition constructions (t : list Event)
  : list (HandleId * Nullable MMKVConfiguration) :=
  omap (fun e => match e with
                 | Constructed h cfg => Some (h, cfg)
                 | _ => None
                 end) t.

(** The action reaches [getDefaultInstance]: a call of it, of [useMMKV]
    without a configuration, or a render of a hook without an instance. *)
Definition uses_default (a : Action) : Prop :=
  match a with
  | GetDefaultInstance => True
  | UseMMKV _ configuration => is_nullish configuration = true
  | RenderHook _ _ _ instance | RenderObject _ _ instance | RenderListener _ _ instance =>
      is_nullish instance = true
  | _ => False
  end.

(** A step that leaves the stores there are in place and constructs none,
    but for the default store, which it may construct with [new MMKV()]
    when there is none. *)
Definition settles : relation World :=
  fun w w' =>
    (forall h cfg, constructed_with h cfg w -> constructed_with h cfg w')
    /\ match defaultInstance w with
       | Some h =>
           defaultInstance w' = Some h
           /\ constructions (trace w') = constructions (trace w)
           /\ length (heap w') = length (heap w)
       | None =>
           (defaultInstance w' = None
            /\ constructions (trace w') = constructions (trace w)
            /\ length (heap w') = length (heap w))
           \/ (defaultInstance w' = Some (length (heap w))
               /\ constructed_with (length (heap w)) JsUndefined w'
               /\ constructions (trace w')
                  = constructions (trace w) ++ [(length (heap w), JsUndefined)]
               /\ length (heap w') = S (length (heap w)))
       end.

(** The computation leaves a default handle behind, in every world. *)
Definition sets_default {A} (c : M A) : Prop :=
  forall w, is_Some (defaultInstance (exec c w)).

(** The world after an effect's cleanup and new subscription: the previous
    listener, if any, is removed and [cb] is registered on [h]. *)
Definition resubscribed `{Host} (old : option Listener) (h : HandleId) (cb : Callback)
  (w : World) : World :=
  exec (MMKV.addOnValueChangedListener h cb)
    (exec (match old with
           | Some listener => MMKV.remove listener
           | None => ret tt
           end) w).

(** Every registered listener of a typed binding is the one the binding
    holds as its cleanup. *)
Definition owned (w : World) : Prop :=
  forall h l b getter key mmkv,
    (l, HookListener b getter key mmkv) ∈ listeners h w ->
    hooks w !! b ≫= cleanup = Some (h, l).

Definition keeps_owned : relation World := fun w w' => owned w -> owned w'.

(** The cells of a binding after the render of [createMMKVHook]. *)
Definition rendered_cell (getter : Getter) (key : string) (mmkv : HandleId)
  (previous : option HookCell) (w : World) : HookCell :=
  match previous with
  | Some c => {| state := state c; valueRef := state c; deps := deps c;
                 cleanup := cleanup c |}
  | None => {| state := typed_read getter mmkv key w;
               valueRef := typed_read getter mmkv key w;
               deps := None; cleanup := None |}
  end.

(** What a typed accessor makes of a stored value: the value when it has
    the accessor's type, [undefined] otherwise. *)
Definition typed_as (getter : Getter) (x : Stored) : option Stored :=
  match getter, x with
  | GetString, SString _ | GetNumber, SNumber _ | GetBoolean, SBoolean _ => Some x
  | _, _ => None
  end.

(** No registered listener writes the state of binding [b]. *)
Definition silent (b : HookId) (w : World) : Prop :=
  forall h l cb, (l, cb) ∈ listeners h w -> ~ writes_to b cb.

(** A step keeps a silent binding silent and its state as it was. *)
Definition stays_silent (b : HookId) : relation World :=
  fun w w' => silent b w -> silent b w' /\ state_of b w' = state_of b w.

(** The action renders binding [b]. *)
Definition renders (b : HookId) (a : Action) : Prop :=
  match a with
  | RenderHook _ b' _ _ | RenderObject b' _ _ => b' = b
  | _ => False
  end.

(** Every registered listener of a listener binding is the one the binding
    holds as its cleanup. *)
Definition owned_ref (w : World) : Prop :=
  forall h l c,
    (l, RefListener c) ∈ listeners h w ->
    listenerCells w !! c ≫= l_cleanup = Some (h, l).

Definition keeps_owned_ref : relation World := fun w w' => owned_ref w -> owned_ref w'.

(** No registered listener calls the callback of listener binding [c]. *)
Definition mute (c : HookId) (w : World) : Prop :=
  forall h l, (l, RefListener c) ∉ listeners h w.

Definition stays_mute (c : HookId) : relation World := fun w w' => mute c w -> mute c w'.

(** The action renders listener binding [c]. *)
Definition renders_listener (c : HookId) (a : Action) : Prop :=
  match a with
  | RenderListener c' _ _ => c' = c
  | _ => False
  end.

(** ** Worlds and values used in the examples *)

Section ExampleWorlds.
#[local] Existing Instance ExampleHost.host.

Definition user_storage : MMKVConfiguration :=
  {| id := "user-storage"; path := None; encryptionKey := None |}.

Definition secure_storage : MMKVConfiguration :=
  {| id := "user-storage"; path := None; encryptionKey := Some "key" |}.

(** The default handle exists, and component 7 holds a handle for
    [user_storage]. *)
Definition world_with_cached_handle : World :=
  exec (useMMKV 7 (Present user_storage)) (exec getDefaultInstance initial).

(** A string binding, hook 0, mounted on key [user.name] of the default
    store. *)
Definition name_setter : Setter :=
  {| s_hook := 0; s_key := "user.name"; s_mmkv := 0 |}.

Definition mounted_name : World :=
  exec (render_hook GetString 0 "user.name" JsUndefined) initial.

(** An updater function: a greeting of the previous name. *)
Definition greet (previous : option Stored) : JsValue :=
  match previous with
  | Some (SString s) => VJson (JString ("Hello " +:+ s))
  | _ => VJson (JString "nobody")
  end.

(** A listener is registered on the default store and a write is announced
    but not yet delivered. *)
Definition write_in_flight : list Action :=
  [GetDefaultInstance; AddListener 0 "onChange"; StoreSet 0 "theme" (VJson (JString "dark"))].

Definition later : list Action :=
  [Deliver; StoreSet 0 "theme" (VJson (JString "light")); Deliver; StoreDelete 0 "theme";
   Deliver].

(** A listener binding, hook 3, mounted on the default store with the
    callback [first]. *)
Definition listening : World := exec (render_listener 3 "first" JsUndefined) initial.

(** Two string bindings, hooks 1 and 2, mounted on key [user.name] of the
    default store; their listeners are 0 and 1. *)
Definition two_bindings : World :=
  run [RenderHook GetString 1 "user.name" JsUndefined;
       RenderHook GetString 2 "user.name" JsUndefined] initial.

Definition first_setter : Setter :=
  {| s_hook := 1; s_key := "user.name"; s_mmkv := 0 |}.

(** An object binding, hook 5, mounted on key [user] of the default store. *)
Definition object_binding : World := run [RenderObject 5 "user" JsUndefined] initial.

Definition user_setter : Setter := {| s_hook := 5; s_key := "user"; s_mmkv := 0 |}.

(** The string binding of [mounted_name], as a run. *)
Definition name_mounted : list Action := [RenderHook GetString 0 "user.name" JsUndefined].

(** What may follow the unmounting of a binding on key [user.name]: a
    write to the key by another party, and its delivery. *)
Definition name_written : list Action :=
  [StoreSet 0 "user.name" (VJson (JString "Ann")); Deliver].

(** A listener binding, hook 3, mounted on the default store, and a second
    store. *)
Definition listening_two_stores : list Action :=
  [RenderListener 3 "first" JsUndefined; NewMMKV (Present user_storage)].

End ExampleWorlds.

(** * Properties *)

Example print_user :
  ExampleHost.print ExampleHost.user
  = Some ExampleHost.user_text.
Proof. vm_compute. reflexivity. Qed.

Example read_user :
  ExampleHost.read ExampleHost.user_text = Some ExampleHost.user.
Proof. vm_compute. reflexivity. Qed.

Ltac unfold_m :=
  unfold exec, outcome, bind, ret, throw, gets, modify in *; simpl in *.

(** ** Configurations and [useMMKV] *)

Lemma isConfigurationEqual_spec left right :
  isConfigurationEqual left right = true <-> same_configuration left right.
Proof.
  destruct left as [| |l], right as [| |r]; simpl; try tauto; try (split; [discriminate|tauto]).
  unfold opt_strict_eq, string_strict_eq.
  rewrite !andb_true_iff, !bool_decide_eq_true. tauto.
Qed.

Lemma isConfigurationEqual_refl (x : MMKVConfiguration) :
  isConfigurationEqual (Present x) (Present x) = true.
Proof. by apply isConfigurationEqual_spec. Qed.

Section UseMMKV.
Context `{Host}.

Lemma getDefaultInstance_handleCells w :
  handleCells (exec getDefaultInstance w) = handleCells w.
Proof. unfold getDefaultInstance. unfold_m. by destruct (defaultInstance w). Qed.

Lemma getDefaultInstance_heap_length w :
  length (heap w) <= length (heap (exec getDefaultInstance w)).
Proof.
  unfold getDefaultInstance. unfold_m. destruct (defaultInstance w); simpl; [lia|].
  rewrite length_app. simpl. lia.
Qed.

Lemma useMMKV_absent c n w :
  useMMKV c (absent n) w
  = getDefaultInstance
      (with_handleCells
         (<[c := default fresh_refs (handleCells w !! c)]> (handleCells w)) w).
Proof. by destruct n. Qed.

Lemma useMMKV_absent_refs c n w :
  handleCells (exec (useMMKV c (absent n)) w) !! c
  = Some (default fresh_refs (handleCells w !! c)).
Proof.
  unfold exec. rewrite useMMKV_absent.
  change (handleCells (exec getDefaultInstance
    (with_handleCells (<[c:=default fresh_refs (handleCells w !! c)]> (handleCells w)) w))
    !! c = Some (default fresh_refs (handleCells w !! c))).
  rewrite getDefaultInstance_handleCells. simpl. apply lookup_insert_eq.
Qed.

Lemma useMMKV_absent_heap c n w :
  length (heap w) <= length (heap (exec (useMMKV c (absent n)) w)).
Proof.
  unfold exec. rewrite useMMKV_absent.
  apply (getDefaultInstance_heap_length (with_handleCells _ w)).
Qed.

Lemma useMMKV_absent_outcome c n w :
  outcome (useMMKV c (absent n)) w = outcome getDefaultInstance w.
Proof.
  unfold outcome. rewrite useMMKV_absent.
  unfold getDefaultInstance. unfold_m. by destruct (defaultInstance w).
Qed.

Lemma absent_calls_refs c nulls w cell :
  handleCells w !! c = Some cell ->
  handleCells (absent_calls c nulls w) !! c = Some cell
  /\ length (heap w) <= length (heap (absent_calls c nulls w)).
Proof.
  revert w. induction nulls as [|n nulls IH]; intros w Hc; simpl; [split; [done|lia]|].
  destruct (IH (exec (useMMKV c (absent n)) w)) as [IH1 IH2].
  - by rewrite useMMKV_absent_refs, Hc.
  - split; [done|]. pose proof (useMMKV_absent_heap c n w).
    unfold absent_calls in *. lia.
Qed.

Lemma isConfigurationEqual_present x a :
  isConfigurationEqual x (Present a) = true -> x = Present a.
Proof.
  intros Heq. apply isConfigurationEqual_spec in Heq.
  destruct x as [| |l]; simpl in Heq; try done.
  destruct l, a; simpl in *. by destruct Heq as (-> & -> & ->).
Qed.

Lemma useMMKV_present_first c a w :
  cache_live w c ->
  exists h1,
    outcome (useMMKV c (Present a)) w = Returned h1
    /\ handleCells (exec (useMMKV c (Present a)) w) !! c
       = Some {| instance_ref := Some h1; lastConfiguration := Present a |}
    /\ h1 < length (heap (exec (useMMKV c (Present a)) w)).
Proof.
  unfold cache_live. intros Hlive. unfold useMMKV, MMKV.new. unfold_m.
  destruct (handleCells w !! c) as [[[h|] last]|] eqn:Hc; simpl in *.
  - destruct (isConfigurationEqual last (Present a)) eqn:Heq; simpl.
    + apply isConfigurationEqual_present in Heq as ->.
      exists h. split; [done|]. split; [apply lookup_insert_eq|done].
    + eexists. split; [done|]. split; [apply lookup_insert_eq|].
      rewrite length_app. simpl. lia.
  - eexists. split; [done|]. split; [apply lookup_insert_eq|].
    rewrite length_app. simpl. lia.
  - eexists. split; [done|]. split; [apply lookup_insert_eq|].
    rewrite length_app. simpl. lia.
Qed.

Lemma useMMKV_present_cached c a b h1 w :
  handleCells w !! c
  = Some {| instance_ref := Some h1; lastConfiguration := Present a |} ->
  if isConfigurationEqual (Present a) (Present b)
  then outcome (useMMKV c (Present b)) w = Returned h1
       /\ heap (exec (useMMKV c (Present b)) w) = heap w
       /\ trace (exec (useMMKV c (Present b)) w) = trace w
  else outcome (useMMKV c (Present b)) w = Returned (length (heap w))
       /\ heap (exec (useMMKV c (Present b)) w)
          = heap w ++ [{| config := Present b; data := engine_open (Present b);
                          onValueChangedListeners := [] |}]
       /\ trace (exec (useMMKV c (Present b)) w)
          = trace w ++ [Constructed (length (heap w)) (Present b)].
Proof.
  intros Hc. unfold useMMKV, MMKV.new. unfold_m. rewrite Hc. simpl.
  by destruct (opt_strict_eq (encryptionKey a) (encryptionKey b)
               && string_strict_eq (id a) (id b)
               && opt_strict_eq (path a) (path b)).
Qed.

(** One call with a configuration: the cache answers when it holds a handle
    beside a configuration that compares equal, and a store is constructed
    in every other case. *)
Lemma useMMKV_present_call c b w :
  let cell := default fresh_refs (handleCells w !! c) in
  match instance_ref cell with
  | Some h =>
      if isConfigurationEqual (lastConfiguration cell) (Present b)
      then reuses_handle c b h w
      else constructs_handle c b w
  | None => constructs_handle c b w
  end.
Proof.
  unfold reuses_handle, constructs_handle, fresh_store, useMMKV, MMKV.new. unfold_m.
  destruct (handleCells w !! c) as [[[h|] last]|] eqn:Hc; simpl.
  1: destruct (isConfigurationEqual last (Present b)) eqn:Heq; simpl.
  all: repeat split; try done; apply lookup_insert_eq.
Qed.

(** One call without a configuration: the default handle is returned, and
    constructed if there was none; the cache of the component is left as it
    is. *)
Lemma useMMKV_absent_call c n w :
  let w' := exec (useMMKV c (absent n)) w in
  exists h,
    outcome (useMMKV c (absent n)) w = Returned h
    /\ defaultInstance w' = Some h
    /\ handleCells w' !! c = Some (default fresh_refs (handleCells w !! c))
    /\ match defaultInstance w with
       | Some d => h = d /\ heap w' = heap w /\ trace w' = trace w
       | None =>
           h = length (heap w)
           /\ heap w' = heap w ++ [fresh_store JsUndefined]
           /\ trace w' = trace w ++ [Constructed h JsUndefined]
       end.
Proof.
  cbv zeta. unfold exec, outcome. rewrite useMMKV_absent.
  unfold getDefaultInstance, MMKV.new, fresh_store. unfold_m.
  destruct (defaultInstance w) as [d|] eqn:Hd; simpl; rewrite ?Hd; simpl.
  - exists d. repeat split; try done. apply lookup_insert_eq.
  - eexists. repeat split; try done. apply lookup_insert_eq.
Qed.
End UseMMKV.

(** C4 (amended).  [isConfigurationEqual] holds exactly of two absent
    configurations and of two present ones with equal [id], [path] and
    [encryptionKey].  A component that called [useMMKV] with a present
    configuration [a] and then, any number of times, without one, is
    answered on a call with a present configuration [b] by the handle it
    got for [a] exactly when [a] and [b] compare equal; otherwise a handle is
    constructed that did not exist before.  A call without a configuration
    returns what [getDefaultInstance] returns.

    Any single call with a configuration [b], in any world: when the
    component caches a handle beside a configuration that compares equal to
    [b], the call returns that handle and constructs nothing; in every other
    case, an empty cache included, it constructs one store with
    configuration [b], returns its handle, which is new, and caches it
    beside [b].  Any single call without a configuration returns the default
    handle, which it constructs with [new MMKV()] and keeps when there was
    none, and leaves the cache of the component as it is. *)
Theorem useMMKV_reuse `{Host} (w : World) (c : HookId)
  (a b : MMKVConfiguration) (nulls : list bool) :
  cache_live w c ->
  (forall left right,
     isConfigurationEqual left right = true <-> same_configuration left right)
  /\ (exists h1,
        let w2 := absent_calls c nulls (exec (useMMKV c (Present a)) w) in
        outcome (useMMKV c (Present a)) w = Returned h1
        /\ (outcome (useMMKV c (Present b)) w2 = Returned h1
            <-> isConfigurationEqual (Present a) (Present b) = true)
        /\ if isConfigurationEqual (Present a) (Present b)
           then heap (exec (useMMKV c (Present b)) w2) = heap w2
                /\ trace (exec (useMMKV c (Present b)) w2) = trace w2
           else outcome (useMMKV c (Present b)) w2 = Returned (length (heap w2))
                /\ heap (exec (useMMKV c (Present b)) w2)
                   = heap w2 ++ [{| config := Present b;
                                    data := engine_open (Present b);
                                    onValueChangedListeners := [] |}])
  /\ (forall n w', outcome (useMMKV c (absent n)) w' = outcome getDefaultInstance w')
  /\ (forall c' b' u,
        let cell := default fresh_refs (handleCells u !! c') in
        match instance_ref cell with
        | Some h =>
            if isConfigurationEqual (lastConfiguration cell) (Present b')
            then reuses_handle c' b' h u
            else constructs_handle c' b' u
        | None => constructs_handle c' b' u
        end)
  /\ (forall c' n u,
        let u' := exec (useMMKV c' (absent n)) u in
        exists h,
          outcome (useMMKV c' (absent n)) u = Returned h
          /\ defaultInstance u' = Some h
          /\ handleCells u' !! c' = Some (default fresh_refs (handleCells u !! c'))
          /\ match defaultInstance u with
             | Some d => h = d /\ heap u' = heap u /\ trace u' = trace u
             | None =>
                 h = length (heap u)
                 /\ heap u' = heap u ++ [fresh_store JsUndefined]
                 /\ trace u' = trace u ++ [Constructed h JsUndefined]
             end).
Proof.
  intros Hlive. split; [apply isConfigurationEqual_spec|].
  split; [|split; [intros; apply useMMKV_absent_outcome|]].
  2: { split; [intros c' b' u; apply useMMKV_present_call|].
       intros c' n u. apply useMMKV_absent_call. }
  destruct (useMMKV_present_first c a w Hlive) as (h1 & Hout & Hcell & Hlt).
  exists h1. cbv zeta. split; [done|].
  destruct (absent_calls_refs c nulls _ _ Hcell) as [Hcell2 Hlen].
  pose proof (useMMKV_present_cached c a b h1 _ Hcell2) as Hb.
  destruct (isConfigurationEqual (Present a) (Present b)).
  - destruct Hb as (Hb1 & Hb2 & Hb3). split; [by split|by split].
  - destruct Hb as (Hb1 & Hb2 & Hb3). split; [|by split].
    rewrite Hb1. split; [|done]. intros [= Heq]. lia.
Qed.

Section UseMMKVExamples.
#[local] Existing Instance ExampleHost.host.

Lemma useMMKV_reuse_witness :
  cache_live initial 7
  /\ (outcome (useMMKV 7 (Present user_storage))
        (absent_calls 7 [false; true] (exec (useMMKV 7 (Present user_storage)) initial))
      = outcome (useMMKV 7 (Present user_storage)) initial)
  /\ (outcome (useMMKV 7 (Present secure_storage))
        (absent_calls 7 [false; true] (exec (useMMKV 7 (Present user_storage)) initial))
      <> outcome (useMMKV 7 (Present user_storage)) initial)
  /\ constructs_handle 7 secure_storage initial
  /\ constructs_handle 7 secure_storage (exec (useMMKV 7 (Present user_storage)) initial)
  /\ reuses_handle 7 user_storage 0 (exec (useMMKV 7 (Present user_storage)) initial).
Proof.
  split; [exact I|].
  destruct (useMMKV_reuse initial 7 user_storage user_storage [false; true] I)
    as (_ & (h1 & Hfirst & Hiff & _) & _ & Hcall & _).
  destruct (useMMKV_reuse initial 7 user_storage secure_storage [false; true] I)
    as (_ & (h1' & Hfirst' & Hiff' & _) & _).
  cbv zeta in *. rewrite Hfirst. split; [|split; [|split; [|split]]].
  - apply Hiff. reflexivity.
  - intros Heq. rewrite Hfirst' in Hfirst. injection Hfirst as ->.
    apply Hiff' in Heq. vm_compute in Heq. discriminate.
  - exact (Hcall 7 secure_storage initial).
  - exact (Hcall 7 secure_storage (exec (useMMKV 7 (Present user_storage)) initial)).
  - exact (Hcall 7 user_storage (exec (useMMKV 7 (Present user_storage)) initial)).
Defined.

(** C4 as stated fails for a call without a configuration.  Component 7 was
    last called with [user_storage]; [undefined] does not compare equal to
    it, yet no handle is constructed: the call returns handle 0, the default
    handle, which existed before.  The call after that, with [user_storage]
    again, returns the handle of the first call although the configuration
    supplied just before it, [undefined], does not compare equal. *)
Lemma useMMKV_absent_configuration_not_fresh :
  isConfigurationEqual (Present user_storage) JsUndefined = false
  /\ outcome (useMMKV 7 (Present user_storage)) (exec getDefaultInstance initial)
     = Returned 1
  /\ outcome (useMMKV 7 JsUndefined) world_with_cached_handle = Returned 0
  /\ length (heap world_with_cached_handle) = 2
  /\ heap (exec (useMMKV 7 JsUndefined) world_with_cached_handle)
     = heap world_with_cached_handle
  /\ isConfigurationEqual JsUndefined (Present user_storage) = false
  /\ outcome (useMMKV 7 (Present user_storage))
       (exec (useMMKV 7 JsUndefined) world_with_cached_handle)
     = Returned 1.
Proof. vm_compute. repeat split. Qed.
End UseMMKVExamples.

(** ** The store *)

Section StoreFacts.
Context `{Host}.

Lemma run_getter_read getter h key w :
  run_getter getter h key w = (Returned (typed_read getter h key w), w).
Proof.
  unfold run_getter, typed_read, MMKV.getString, MMKV.getNumber, MMKV.getBoolean.
  unfold_m. destruct getter; destruct (contents h w !! key) as [[]|]; reflexivity.
Qed.

Lemma is_primitive_as_stored v :
  is_primitive (typeof v) = true -> exists p, as_stored v = Some p /\ v = of_stored p.
Proof. destruct v as [|[]| | | |]; simpl; try discriminate; eauto. Qed.

Lemma set_trace h key v w :
  trace (exec (MMKV.set h key v) w) = trace w ++ [CalledSet h key v].
Proof. unfold MMKV.set, MMKV.notify. unfold_m. by destruct (as_stored v). Qed.

Lemma set_outcome h key p w :
  outcome (MMKV.set h key (of_stored p)) w = Returned tt.
Proof. unfold MMKV.set, MMKV.notify. unfold_m. by destruct p. Qed.

Lemma set_contents h key p w :
  contents h (exec (MMKV.set h key (of_stored p)) w)
  = match heap w !! h with Some _ => <[key := p]> (contents h w) | None => ∅ end.
Proof.
  unfold MMKV.set, MMKV.notify. unfold_m. destruct p; simpl.
  all: unfold contents; simpl; rewrite list_lookup_alter_eq; by destruct (heap w !! h).
Qed.

Lemma delete_trace h key w :
  trace (exec (MMKV.delete h key) w) = trace w ++ [CalledDelete h key].
Proof. reflexivity. Qed.

Lemma delete_contents h key w :
  contents h (exec (MMKV.delete h key) w) !! key = None.
Proof.
  unfold MMKV.delete, MMKV.notify. unfold_m. unfold contents. simpl.
  rewrite list_lookup_alter_eq.
  destruct (heap w !! h); simpl; [apply lookup_delete_eq|done].
Qed.
End StoreFacts.

(** ** The typed setter *)

Section TypedSetter.
Context `{Host}.

Lemma createMMKVHook_set_cases s v w :
  let cached := hooks w !! s_hook s ≫= valueRef in
  let newValue := match v with VFunction f => f cached | _ => v end in
  createMMKVHook_set s v w
  = match typeof newValue with
    | TNumber | TString | TBoolean => MMKV.set (s_mmkv s) (s_key s) newValue w
    | TUndefined => MMKV.delete (s_mmkv s) (s_key s) w
    | t => (Thrown (UnsupportedType t), w)
    end.
Proof. unfold createMMKVHook_set. unfold_m. by destruct (typeof _). Qed.

Lemma createMMKVHook_valueRef getter b key instance w :
  exists value mmkv,
    outcome (createMMKVHook getter b key instance) w
    = Returned (value, {| s_hook := b; s_key := key; s_mmkv := mmkv |})
    /\ outcome (resolve instance) w = Returned mmkv
    /\ hooks (exec (createMMKVHook getter b key instance) w) !! b ≫= valueRef = value.
Proof.
  unfold createMMKVHook, resolve, getDefaultInstance, MMKV.new. unfold_m.
  destruct instance as [| |h]; simpl.
  1,2: destruct (defaultInstance w) as [d|]; simpl.
  all: destruct (hooks w !! b) as [cell|] eqn:Hb; simpl.
  all: try (rewrite run_getter_read; simpl).
  all: do 2 eexists; split; [reflexivity|]; split; [reflexivity|].
  all: simpl; try rewrite lookup_alter_eq; try rewrite Hb;
       try rewrite lookup_insert_eq; reflexivity.
Qed.

Lemma createMMKVHook_listener_valueRef b getter key mmkv changedKey b' w :
  hooks (exec (createMMKVHook_listener b getter key mmkv changedKey) w) !! b' ≫= valueRef
  = hooks w !! b' ≫= valueRef.
Proof.
  unfold createMMKVHook_listener, setValue.
  case_bool_decide; [|done].
  unfold_m. rewrite run_getter_read. simpl.
  destruct (decide (b = b')) as [->|Hne].
  - rewrite lookup_alter_eq. by destruct (hooks w !! b').
  - by rewrite lookup_alter_ne.
Qed.
End TypedSetter.

(** C1.  The setter of a typed binding applies a function argument to
    [valueRef.current], passes any other argument on as it is, and then
    dispatches on the type of the result: a boolean, number or string goes to
    [set] on the bound store, [undefined] to [delete], and anything else
    throws the unsupported-type error, with nothing else done.
    [valueRef.current] is the value the last render returned; a change
    notification does not refresh it. *)
Theorem createMMKVHook_set_dispatch `{Host} (s : Setter) (v : JsValue) (w : World) :
  let cached := hooks w !! s_hook s ≫= valueRef in
  let newValue := match v with VFunction f => f cached | _ => v end in
  (is_primitive (typeof newValue) = true ->
     createMMKVHook_set s v w = MMKV.set (s_mmkv s) (s_key s) newValue w
     /\ outcome (createMMKVHook_set s v) w = Returned tt
     /\ trace (exec (createMMKVHook_set s v) w)
        = trace w ++ [CalledSet (s_mmkv s) (s_key s) newValue])
  /\ (typeof newValue = TUndefined ->
     createMMKVHook_set s v w = MMKV.delete (s_mmkv s) (s_key s) w
     /\ outcome (createMMKVHook_set s v) w = Returned tt
     /\ trace (exec (createMMKVHook_set s v) w)
        = trace w ++ [CalledDelete (s_mmkv s) (s_key s)])
  /\ (is_primitive (typeof newValue) = false -> typeof newValue <> TUndefined ->
     createMMKVHook_set s v w = (Thrown (UnsupportedType (typeof newValue)), w))
  /\ (forall getter key instance w0,
       exists value mmkv,
         outcome (createMMKVHook getter (s_hook s) key instance) w0
         = Returned (value, {| s_hook := s_hook s; s_key := key; s_mmkv := mmkv |})
         /\ hooks (exec (createMMKVHook getter (s_hook s) key instance) w0)
              !! s_hook s ≫= valueRef = value)
  /\ (forall b getter key mmkv changedKey,
       hooks (exec (createMMKVHook_listener b getter key mmkv changedKey) w)
         !! s_hook s ≫= valueRef = cached).
Proof.
  intros cached newValue.
  assert (Hcases : createMMKVHook_set s v w
    = match typeof newValue with
      | TNumber | TString | TBoolean => MMKV.set (s_mmkv s) (s_key s) newValue w
      | TUndefined => MMKV.delete (s_mmkv s) (s_key s) w
      | t => (Thrown (UnsupportedType t), w)
      end) by apply createMMKVHook_set_cases.
  clearbody newValue.
  split; [|split; [|split; [|split]]].
  - intros Hp. split; [|split].
    + rewrite Hcases. destruct (typeof newValue); simpl in Hp; done.
    + unfold outcome. rewrite Hcases.
      destruct (is_primitive_as_stored _ Hp) as (p & _ & ->).
      pose proof (set_outcome (s_mmkv s) (s_key s) p w) as Hout. unfold outcome in Hout.
      by destruct (typeof (of_stored p)).
    + unfold exec. rewrite Hcases.
      pose proof (set_trace (s_mmkv s) (s_key s) newValue w) as Htr. unfold exec in Htr.
      by destruct (typeof newValue); simpl in Hp.
  - intros Hu. unfold outcome, exec. by rewrite Hcases, Hu.
  - intros Hp Hu. rewrite Hcases. by destruct (typeof newValue); simpl in Hp.
  - intros getter key instance w0.
    destruct (createMMKVHook_valueRef getter (s_hook s) key instance w0)
      as (value & mmkv & Hout & _ & Href).
    by exists value, mmkv.
  - intros. apply createMMKVHook_listener_valueRef.
Qed.

(** C3 (amended).  When the argument of a typed setter, or for a function
    argument its result on the cached value, is not a boolean, a number, a
    string or [undefined], the call throws the unsupported-type error and
    the world is left as it was: neither [set] nor [delete] is called, and
    every getter reads what it read before. *)
Theorem createMMKVHook_set_unsupported `{Host} (s : Setter) (v : JsValue) (w : World) :
  let cached := hooks w !! s_hook s ≫= valueRef in
  let newValue := match v with VFunction f => f cached | _ => v end in
  is_primitive (typeof newValue) = false ->
  typeof newValue <> TUndefined ->
  outcome (createMMKVHook_set s v) w = Thrown (UnsupportedType (typeof newValue))
  /\ exec (createMMKVHook_set s v) w = w
  /\ trace (exec (createMMKVHook_set s v) w) = trace w
  /\ forall getter h key,
       outcome (run_getter getter h key) (exec (createMMKVHook_set s v) w)
       = outcome (run_getter getter h key) w.
Proof.
  intros cached newValue Hp Hu.
  assert (Hcases : createMMKVHook_set s v w
                   = (Thrown (UnsupportedType (typeof newValue)), w)).
  { rewrite createMMKVHook_set_cases. fold cached. fold newValue.
    by destruct (typeof newValue). }
  unfold outcome, exec. rewrite Hcases. simpl. by repeat split.
Qed.

(** C10.  [null] has type ["object"]: the typed setter throws on it and
    leaves the world as it was.  The setter of the object binding treats
    [null] as it treats [undefined]: it calls [delete] on the bound store,
    after which the key is gone. *)
Theorem null_throws_typed_deletes_object `{Host} (s : Setter) (w : World) :
  typeof (VJson JNull) = TObject
  /\ createMMKVHook_set s (VJson JNull) w = (Thrown (UnsupportedType TObject), w)
  /\ useMMKVObject_setValue s (VJson JNull) w = useMMKVObject_setValue s VUndefined w
  /\ useMMKVObject_setValue s (VJson JNull) w = MMKV.delete (s_mmkv s) (s_key s) w
  /\ trace (exec (useMMKVObject_setValue s (VJson JNull)) w)
     = trace w ++ [CalledDelete (s_mmkv s) (s_key s)]
  /\ contents (s_mmkv s) (exec (useMMKVObject_setValue s (VJson JNull)) w) !! s_key s
     = None
  /\ outcome (MMKV.contains (s_mmkv s) (s_key s))
       (exec (useMMKVObject_setValue s (VJson JNull)) w) = Returned false.
Proof.
  assert (Hdel : useMMKVObject_setValue s (VJson JNull) w
                 = MMKV.delete (s_mmkv s) (s_key s) w) by reflexivity.
  split; [done|]. split; [done|]. split; [done|]. split; [done|].
  unfold exec. rewrite Hdel. split; [done|].
  pose proof (delete_contents (s_mmkv s) (s_key s) w) as Hgone. unfold exec in Hgone.
  split; [done|].
  unfold MMKV.contains. unfold_m. f_equal.
  apply bool_decide_eq_false. rewrite Hgone. by intros [? ?].
Qed.

Section SetterExamples.
#[local] Existing Instance ExampleHost.host.

Example mounted_name_setter :
  outcome (render_hook GetString 0 "user.name" JsUndefined) initial
  = Returned (None, name_setter).
Proof. vm_compute. reflexivity. Qed.

(** Another party wrote the key and the notification was delivered, but
    the binding has not rendered since: the updater still receives the
    value of the last render, [undefined], not the name in the store. *)
Example set_applies_updater_to_cached_value :
  let w := exec ChangeNotifier.flush
             (exec (MMKV.set 0 "user.name" (VJson (JString "Ann"))) mounted_name) in
  typed_read GetString 0 "user.name" w = Some (SString "Ann")
  /\ hooks w !! 0 ≫= valueRef = None
  /\ typed_read GetString 0 "user.name" (exec (createMMKVHook_set name_setter (VFunction greet)) w)
     = Some (SString "nobody").
Proof. vm_compute. repeat split. Qed.

Lemma createMMKVHook_set_unsupported_witness :
  let nested := VJson (JObject [("a", JObject [("b", JNumber 1%float)])]) in
  is_primitive (typeof nested) = false
  /\ typeof nested <> TUndefined
  /\ outcome (createMMKVHook_set name_setter nested) mounted_name
     = Thrown (UnsupportedType TObject)
  /\ exec (createMMKVHook_set name_setter nested) mounted_name = mounted_name.
Proof.
  intros nested.
  assert (Hp : is_primitive (typeof nested) = false) by reflexivity.
  assert (Hu : typeof nested <> TUndefined) by discriminate.
  destruct (createMMKVHook_set_unsupported name_setter nested mounted_name Hp Hu)
    as (Hout & Hworld & _).
  by repeat split.
Defined.

(** C3 as stated fails for a function: a function is a value outside
    boolean, number, string and [undefined], yet passing one does not throw.
    It is applied to the cached value and its result, here a string, is
    stored. *)
Lemma createMMKVHook_set_function_does_not_throw :
  typeof (VFunction greet) = TFunction
  /\ outcome (createMMKVHook_set name_setter (VFunction greet)) mounted_name
     = Returned tt
  /\ typed_read GetString 0 "user.name" mounted_name = None
  /\ typed_read GetString 0 "user.name"
       (exec (createMMKVHook_set name_setter (VFunction greet)) mounted_name)
     = Some (SString "nobody").
Proof. vm_compute. repeat split. Qed.
End SetterExamples.

(** ** Relations every step of a run maintains *)

Section Preserves.
Context (R : relation World) `{!PreOrder R}.

Lemma preserves_ret {A} (a : A) : preserves R (ret a).
Proof. intros w. reflexivity. Qed.

Lemma preserves_throw {A} e : preserves R (@throw A e).
Proof. intros w. reflexivity. Qed.

Lemma preserves_gets {A} (f : World -> A) : preserves R (gets f).
Proof. intros w. reflexivity. Qed.

Lemma preserves_modify f : (forall w, R w (f w)) -> preserves R (modify f).
Proof. intros Hf w. apply Hf. Qed.

Lemma preserves_bind {A B} (c : M A) (k : A -> M B) :
  preserves R c -> (forall a, preserves R (k a)) -> preserves R (bind c k).
Proof.
  intros Hc Hk w. specialize (Hc w). unfold exec, bind in *.
  destruct (c w) as [[a|e] w']; simpl in *; [|done].
  etransitivity; [exact Hc|]. apply Hk.
Qed.

Lemma preserves_run `{Host} :
  (forall a, preserves R (perform a)) -> forall actions w, R w (run actions w).
Proof.
  intros Hp actions.
  induction actions as [|a actions IH]; intros w; simpl; [reflexivity|].
  etransitivity; [apply Hp|]. apply IH.
Qed.
End Preserves.

Ltac preserves_step :=
  lazymatch goal with
  | |- preserves _ (bind _ _) => apply preserves_bind; [apply _| |intros]
  | |- preserves _ (ret _) => apply preserves_ret; apply _
  | |- preserves _ (throw _) => apply preserves_throw; apply _
  | |- preserves _ (gets _) => apply preserves_gets; apply _
  | |- preserves _ (modify _) => apply preserves_modify; intros
  | |- preserves _ (match ?x with _ => _ end) => destruct x
  | |- preserves _ (let _ := _ in _) => cbv zeta
  end.

Ltac unfold_program :=
  unfold render_hook, render_object, render_listener, unmount_hook, unmount_listener,
    useMMKV, useMMKVObject, useMMKVString, createMMKVHook, createMMKVHook_effects,
    useMMKVListener, useMMKVListener_effect, useMemo, useMMKVObject_value,
    useMMKVObject_setValue, createMMKVHook_set, createMMKVHook_listener,
    useMMKVListener_listener, resolve, setValue, run_getter,
    MMKV.set, MMKV.delete, MMKV.notify, MMKV.getString, MMKV.getNumber,
    MMKV.getBoolean, MMKV.remove, ChangeNotifier.deliver.

(** The same, down to the operations on handles and listeners. *)
Ltac unfold_hooks :=
  unfold render_hook, render_object, render_listener, unmount_hook, unmount_listener,
    useMMKV, useMMKVObject, useMMKVString, createMMKVHook, createMMKVHook_effects,
    useMMKVListener, useMMKVListener_effect, useMemo, useMMKVObject_value,
    useMMKVObject_setValue, createMMKVHook_set, createMMKVHook_listener,
    useMMKVListener_listener, resolve, setValue, run_getter,
    MMKV.set, MMKV.delete, MMKV.notify, MMKV.getString, MMKV.getNumber,
    MMKV.getBoolean, ChangeNotifier.deliver.

(** ** The default instance *)

Lemma constructed_alter (f : Store -> Store) (h h' : nat) cfg (stores : list Store) :
  (forall s, config (f s) = config s) ->
  config <$> alter f h' stores !! h = Some cfg <-> config <$> stores !! h = Some cfg.
Proof.
  intros Hf. destruct (decide (h = h')) as [->|Hne].
  - rewrite list_lookup_alter_eq. destruct (stores !! h'); simpl; [by rewrite Hf|done].
  - by rewrite list_lookup_alter_ne.
Qed.

Lemma constructed_app (h : nat) cfg (stores : list Store) s :
  config <$> stores !! h = Some cfg -> config <$> (stores ++ [s]) !! h = Some cfg.
Proof.
  intros Hc. destruct (stores !! h) eqn:Hs; [|done].
  by rewrite (lookup_app_l_Some _ _ _ _ Hs).
Qed.

#[global] Instance settles_preorder : PreOrder settles.
Proof.
  split.
  - intros w. split; [done|]. destruct (defaultInstance w); [done|by left].
  - intros x y z [Hk1 H1] [Hk2 H2]. split; [by intros h cfg Hc; apply Hk2, Hk1|].
    destruct (defaultInstance x) as [h|].
    + destruct H1 as (Hd & Hc & Hl). rewrite Hd in H2. destruct H2 as (Hd' & Hc' & Hl').
      split; [done|]. split; congruence.
    + destruct H1 as [(Hd & Hc & Hl)|(Hd & Hw & Hc & Hl)]; rewrite Hd in H2.
      * destruct H2 as [(Hd' & Hc' & Hl')|(Hd' & Hw' & Hc' & Hl')].
        -- left. split; [done|]. split; congruence.
        -- right. rewrite Hl in *. split; [done|]. split; [done|]. split; congruence.
      * destruct H2 as (Hd' & Hc' & Hl'). right. split; [done|].
        split; [by apply Hk2|]. split; congruence.
Qed.

#[global] Instance keeps_default_preorder : PreOrder keeps_default.
Proof. split; [by intros w h|]. intros a b c Hab Hbc h Hh. by apply Hbc, Hab. Qed.

Section DefaultInstance.
Context `{Host}.

Lemma getDefaultInstance_keeps : preserves keeps_default getDefaultInstance.
Proof. intros w h Hh. unfold getDefaultInstance. unfold_m. by rewrite Hh. Qed.

Ltac keeps_default_tac :=
  repeat first
    [ apply getDefaultInstance_keeps
    | preserves_step
    | by intros ? ?
    | by intros ? ? ? ].

Lemma call_keeps_default cb key : preserves keeps_default (call cb key).
Proof. destruct cb; simpl; unfold_program; keeps_default_tac. Qed.

Lemma dispatch_all_keeps_default h key targets :
  preserves keeps_default (ChangeNotifier.dispatch_all h key targets).
Proof.
  induction targets as [|l targets IH]; simpl; [keeps_default_tac|].
  unfold ChangeNotifier.dispatch.
  repeat first [ apply call_keeps_default | apply IH | keeps_default_tac ].
Qed.

Lemma perform_keeps_default a : preserves keeps_default (perform a).
Proof.
  destruct a; simpl; unfold_program.
  all: repeat first [ apply dispatch_all_keeps_default | keeps_default_tac ].
Qed.

Lemma getDefaultInstance_sets w :
  exists h,
    outcome getDefaultInstance w = Returned h
    /\ defaultInstance (exec getDefaultInstance w) = Some h.
Proof.
  unfold getDefaultInstance, MMKV.new. unfold_m.
  destruct (defaultInstance w) as [h|] eqn:Hd; simpl; eauto.
Qed.

Lemma getDefaultInstance_set h w :
  defaultInstance w = Some h -> getDefaultInstance w = (Returned h, w).
Proof. intros Hd. unfold getDefaultInstance. unfold_m. by rewrite Hd. Qed.

Lemma resolve_absent {n} h w :
  defaultInstance w = Some h -> resolve (absent n) w = (Returned h, w).
Proof. intros Hd. destruct n; by apply getDefaultInstance_set. Qed.

Lemma render_listener_default c fn n h w :
  defaultInstance w = Some h ->
  listenerCells (exec (render_listener c fn (absent n)) w) !! c ≫= l_deps = Some h.
Proof.
  intros Hd. unfold render_listener, useMMKVListener, useMMKVListener_effect.
  unfold exec, bind at 1 2. unfold modify at 1. simpl.
  set (w1 := with_listenerCells _ w).
  assert (Hd1 : defaultInstance w1 = Some h) by done.
  unfold bind at 1. rewrite (resolve_absent h w1 Hd1). simpl.
  unfold bind at 1. rewrite (resolve_absent h w1 Hd1). simpl.
  unfold bind at 1. unfold gets at 1. simpl. rewrite lookup_insert_eq. simpl.
  case_bool_decide as Hdeps.
  - simpl. rewrite lookup_insert_eq. simpl. done.
  - unfold MMKV.remove, MMKV.addOnValueChangedListener. unfold_m.
    destruct (l_cleanup _); simpl; by rewrite lookup_alter_eq, lookup_insert_eq.
Qed.

Lemma bind_returned {A B} (c : M A) (k : A -> M B) w a w' :
  c w = (Returned a, w') -> bind c k w = k a w'.
Proof. intros Hc. unfold bind. by rewrite Hc. Qed.

Lemma render_listener_sets c fn n w :
  let w' := exec (render_listener c fn (absent n)) w in
  exists h,
    outcome getDefaultInstance w = Returned h
    /\ defaultInstance w' = Some h
    /\ listenerCells w' !! c ≫= l_deps = Some h.
Proof.
  cbv zeta.
  pose (cell0 := default {| ref := fn; l_deps := None; l_cleanup := None |}
                   (listenerCells w !! c)).
  pose (cell1 := {| ref := fn; l_deps := l_deps cell0; l_cleanup := l_cleanup cell0 |}).
  pose (w1 := with_listenerCells (<[c := cell1]> (listenerCells w)) w).
  destruct (getDefaultInstance_sets w1) as (h & Hout & Hset).
  assert (Hres : resolve (absent n) w1 = (Returned h, exec getDefaultInstance w1)).
  { transitivity (getDefaultInstance w1); [by destruct n|].
    unfold outcome, exec in *. destruct (getDefaultInstance w1) as [r w2].
    simpl in *. by subst. }
  assert (Hcells : listenerCells (exec getDefaultInstance w1) !! c = Some cell1).
  { rewrite <- (lookup_insert_eq (listenerCells w) c cell1).
    unfold getDefaultInstance, MMKV.new. unfold_m. by destruct (defaultInstance w). }
  assert (Hsame : outcome getDefaultInstance w = Returned h).
  { rewrite <- Hout. unfold outcome, getDefaultInstance, MMKV.new. unfold_m.
    by destruct (defaultInstance w). }
  set (w2 := exec getDefaultInstance w1) in *.
  assert (Hrender : useMMKVListener c fn (absent n) w = (Returned tt, w2)).
  { transitivity ((resolve (absent n);; ret tt) w1); [reflexivity|].
    by rewrite (bind_returned _ _ _ _ _ Hres). }
  assert (Hrun : render_listener c fn (absent n) w = useMMKVListener_effect c h w2).
  { unfold render_listener. rewrite (bind_returned _ _ _ _ _ Hrender).
    by rewrite (bind_returned _ _ _ _ _ (resolve_absent h w2 Hset)). }
  exists h. split; [exact Hsame|]. unfold exec at 1 2. rewrite Hrun.
  clearbody w2. clear Hrun Hrender Hres Hout Hsame.
  unfold useMMKVListener_effect, MMKV.remove, MMKV.addOnValueChangedListener. unfold_m.
  rewrite Hcells. case_bool_decide as Hdeps; simpl.
  - rewrite Hcells. by split.
  - destruct (l_cleanup cell0); simpl; (split; [done|]).
    all: by rewrite lookup_alter_eq, Hcells.
Qed.

Lemma createMMKVHook_sets getter b key n w :
  let w' := exec (createMMKVHook getter b key (absent n)) w in
  exists h value,
    outcome getDefaultInstance w = Returned h
    /\ outcome (createMMKVHook getter b key (absent n)) w
       = Returned (value, {| s_hook := b; s_key := key; s_mmkv := h |})
    /\ defaultInstance w' = Some h.
Proof.
  cbv zeta. unfold createMMKVHook, resolve, getDefaultInstance, MMKV.new. unfold_m.
  destruct n; simpl.
  all: destruct (defaultInstance w) as [d|] eqn:Hd; simpl.
  all: destruct (hooks w !! b) as [cell|] eqn:Hb; simpl.
  all: try (rewrite run_getter_read; simpl).
  all: by eexists _, _.
Qed.

(** *** What constructs the default store *)

Lemma constructions_log e t :
  (forall h cfg, e <> Constructed h cfg) -> constructions (t ++ [e]) = constructions t.
Proof.
  intros He. unfold constructions. rewrite omap_app. simpl.
  destruct e; rewrite ?app_nil_r; try done. by destruct (He h cfg).
Qed.

Lemma settles_intro w w' :
  defaultInstance w' = defaultInstance w ->
  constructions (trace w') = constructions (trace w) ->
  length (heap w') = length (heap w) ->
  (forall h cfg, constructed_with h cfg w -> constructed_with h cfg w') ->
  settles w w'.
Proof.
  intros Hd Hc Hl Hk. split; [done|]. rewrite Hd. destruct (defaultInstance w); [done|by left].
Qed.

Lemma settles_same w w' :
  heap w' = heap w -> defaultInstance w' = defaultInstance w -> trace w' = trace w ->
  settles w w'.
Proof.
  intros Hh Hd Ht. apply settles_intro; rewrite ?Ht, ?Hh; try done.
  unfold constructed_with. by rewrite Hh.
Qed.

Lemma getDefaultInstance_settles : preserves settles getDefaultInstance.
Proof.
  intros w. unfold getDefaultInstance, MMKV.new. unfold_m.
  destruct (defaultInstance w) as [d|] eqn:Hd; simpl.
  - apply settles_intro; by rewrite ?Hd.
  - split.
    + intros h cfg. unfold constructed_with. simpl. apply constructed_app.
    + rewrite Hd. right. split; [done|]. split; [|split].
      * unfold constructed_with. simpl. by rewrite list_lookup_middle.
      * simpl. unfold constructions. by rewrite omap_app.
      * simpl. rewrite length_app. simpl. lia.
Qed.

Lemma add_settles h cb : preserves settles (MMKV.addOnValueChangedListener h cb).
Proof.
  intros w. unfold MMKV.addOnValueChangedListener, exec. simpl.
  apply settles_intro; simpl.
  - done.
  - by apply constructions_log.
  - apply length_alter.
  - intros h0 cfg. unfold constructed_with. simpl. by rewrite constructed_alter.
Qed.

Lemma remove_settles listener : preserves settles (MMKV.remove listener).
Proof.
  intros w. unfold MMKV.remove, exec. simpl.
  apply settles_intro; simpl.
  - done.
  - by apply constructions_log.
  - apply length_alter.
  - intros h0 cfg. unfold constructed_with. simpl. by rewrite constructed_alter.
Qed.

Ltac settles_step :=
  first
    [ preserves_step
    | lazymatch goal with
      | |- preserves _ getDefaultInstance => apply getDefaultInstance_settles
      | |- preserves _ (MMKV.addOnValueChangedListener _ _) => apply add_settles
      | |- preserves _ (MMKV.remove _) => apply remove_settles
      | |- settles _ _ => by apply settles_same
      end ].

Lemma perform_settles a : uses_default a -> preserves settles (perform a).
Proof.
  destruct a as [|cfg|c cfg|getter b key i|b key i|c fn i| | | | | | | | |]; simpl; try done.
  2: destruct cfg; [| |done].
  4-6: destruct i; try done.
  all: intros _; unfold_hooks; cbn [is_nullish]; repeat settles_step.
Qed.

Lemma sets_bind {A B} (c : M A) (k : A -> M B) :
  sets_default c -> (forall a, preserves keeps_default (k a)) -> sets_default (bind c k).
Proof.
  intros Hc Hk w. specialize (Hc w). unfold exec, bind in *.
  destruct (c w) as [[a|e] w1] eqn:Hcw; simpl in *; [|done].
  destruct Hc as [h Hh]. exists h. by apply (Hk a w1 h).
Qed.

Lemma sets_modify {B} f (k : unit -> M B) :
  (forall u, sets_default (k u)) -> sets_default (bind (modify f) k).
Proof. intros Hk w. apply (Hk tt (f w)). Qed.

Lemma sets_gets {A B} (f : World -> A) (k : A -> M B) :
  (forall a, sets_default (k a)) -> sets_default (bind (gets f) k).
Proof. intros Hk w. apply (Hk (f w) w). Qed.

Lemma getDefaultInstance_sets_default : sets_default getDefaultInstance.
Proof. intros w. destruct (getDefaultInstance_sets w) as (h & _ & Hh). by exists h. Qed.

Ltac sets_default_step :=
  lazymatch goal with
  | |- sets_default (bind (gets _) _) => apply sets_gets; intros
  | |- sets_default (bind (modify _) _) => apply sets_modify; intros
  | |- sets_default (bind _ _) =>
      apply sets_bind; [|intros; unfold_hooks; keeps_default_tac]
  | |- sets_default getDefaultInstance => apply getDefaultInstance_sets_default
  end.

Lemma perform_sets_default a : uses_default a -> sets_default (perform a).
Proof.
  destruct a as [|cfg|c cfg|getter b key i|b key i|c fn i| | | | | | | | |]; simpl; try done.
  2: destruct cfg; [| |done].
  4-6: destruct i; try done.
  all: intros _.
  all: unfold render_hook, render_object, render_listener, useMMKVObject, useMMKVString,
         createMMKVHook, useMMKVListener, useMMKV, resolve; cbn [is_nullish].
  all: repeat sets_default_step.
Qed.

(** An action that reaches [getDefaultInstance] leaves the default handle
    behind: the one there was, or one it constructed. *)
Lemma perform_default a w :
  uses_default a ->
  let w' := exec (perform a) w in
  exists h,
    defaultInstance w' = Some h
    /\ (forall h' cfg, constructed_with h' cfg w -> constructed_with h' cfg w')
    /\ match defaultInstance w with
       | Some d =>
           h = d /\ constructions (trace w') = constructions (trace w)
           /\ length (heap w') = length (heap w)
       | None =>
           h = length (heap w)
           /\ constructed_with h JsUndefined w'
           /\ constructions (trace w') = constructions (trace w) ++ [(h, JsUndefined)]
           /\ length (heap w') = S (length (heap w))
       end.
Proof.
  intros Hu w'. destruct (perform_sets_default a Hu w) as [h Hh]. fold w' in Hh.
  destruct (perform_settles a Hu w) as [Hkeep Hcase]. fold w' in Hkeep, Hcase.
  exists h. split; [done|]. split; [done|].
  destruct (defaultInstance w) as [d|].
  - destruct Hcase as (Hd & Hc & Hl). split; [congruence|done].
  - destruct Hcase as [(Hd & _)|(Hd & Hw & Hc & Hl)]; [congruence|].
    assert (h = length (heap w)) as -> by congruence. done.
Qed.
End DefaultInstance.

(** C6.  The default handle does not exist when the module is loaded.  A
    call of [getDefaultInstance] that finds none constructs one with
    [new MMKV()] and stores it.  After any first call, and whatever the
    program does next, [getDefaultInstance] returns that handle and leaves
    the world untouched (it constructs nothing), and so do [useMMKV] without
    a configuration and every hook called without an instance: the typed
    bindings write to it and the listener binding subscribes to it.  Nothing
    clears [defaultInstance].

    The first call may be any call that reaches [getDefaultInstance], which
    the module does not export: [useMMKV] without a configuration or the
    render of a hook without an instance.  In a world without a default
    handle such a call constructs exactly one store, with [new MMKV()],
    and keeps its handle as the default one; in a world with a default
    handle it constructs nothing.  The handle it answers with, writes to or
    subscribes to is the default handle it leaves behind.  After it, whatever
    the program does, the default handle stays that one and no call that
    reaches [getDefaultInstance] constructs a store. *)
Theorem default_instance_singleton `{Host} :
  defaultInstance initial = None
  /\ (forall w,
       defaultInstance w = None ->
       outcome getDefaultInstance w = Returned (length (heap w))
       /\ defaultInstance (exec getDefaultInstance w) = Some (length (heap w))
       /\ trace (exec getDefaultInstance w)
          = trace w ++ [Constructed (length (heap w)) JsUndefined])
  /\ (forall w actions,
       exists h,
         outcome getDefaultInstance w = Returned h
         /\ let w' := run actions (exec getDefaultInstance w) in
            defaultInstance w' = Some h
            /\ getDefaultInstance w' = (Returned h, w')
            /\ (forall c n, outcome (useMMKV c (absent n)) w' = Returned h)
            /\ (forall getter b key n,
                 exists value,
                   outcome (createMMKVHook getter b key (absent n)) w'
                   = Returned (value, {| s_hook := b; s_key := key; s_mmkv := h |}))
            /\ (forall c fn n,
                 listenerCells (exec (render_listener c fn (absent n)) w') !! c ≫= l_deps
                 = Some h))
  /\ (forall w first actions,
       uses_default first ->
       let w1 := exec (perform first) w in
       exists h,
         defaultInstance w1 = Some h
         /\ match defaultInstance w with
            | Some d =>
                h = d /\ constructions (trace w1) = constructions (trace w)
                /\ length (heap w1) = length (heap w)
            | None =>
                h = length (heap w)
                /\ constructed_with h JsUndefined w1
                /\ constructions (trace w1) = constructions (trace w) ++ [(h, JsUndefined)]
                /\ length (heap w1) = S (length (heap w))
            end
         /\ let w' := run actions w1 in
            defaultInstance w' = Some h
            /\ getDefaultInstance w' = (Returned h, w')
            /\ (forall c n, outcome (useMMKV c (absent n)) w' = Returned h)
            /\ (forall getter b key n,
                 exists value,
                   outcome (createMMKVHook getter b key (absent n)) w'
                   = Returned (value, {| s_hook := b; s_key := key; s_mmkv := h |}))
            /\ (forall c fn n,
                 listenerCells (exec (render_listener c fn (absent n)) w') !! c ≫= l_deps
                 = Some h)
            /\ (forall next,
                 uses_default next ->
                 defaultInstance (exec (perform next) w') = Some h
                 /\ constructions (trace (exec (perform next) w'))
                    = constructions (trace w')
                 /\ length (heap (exec (perform next) w')) = length (heap w')))
  /\ (forall w,
       exists h,
         outcome getDefaultInstance w = Returned h
         /\ (forall c n,
              outcome (useMMKV c (absent n)) w = Returned h
              /\ defaultInstance (exec (useMMKV c (absent n)) w) = Some h)
         /\ (forall getter b key n,
              exists value,
                outcome (createMMKVHook getter b key (absent n)) w
                = Returned (value, {| s_hook := b; s_key := key; s_mmkv := h |})
                /\ defaultInstance (exec (createMMKVHook getter b key (absent n)) w)
                   = Some h)
         /\ (forall c fn n,
              defaultInstance (exec (render_listener c fn (absent n)) w) = Some h
              /\ listenerCells (exec (render_listener c fn (absent n)) w) !! c ≫= l_deps
                 = Some h)).
Proof.
  split; [done|]. split; [|split; [|split]].
  4: { intros w. destruct (getDefaultInstance_sets w) as (h & Hout & _).
       exists h. split; [exact Hout|]. split; [|split].
       - intros c n. destruct (useMMKV_absent_call c n w) as (h' & Hcall & Hd & _).
         rewrite useMMKV_absent_outcome, Hout in Hcall. injection Hcall as <-.
         split; [|exact Hd]. by rewrite useMMKV_absent_outcome.
       - intros getter b key n.
         destruct (createMMKVHook_sets getter b key n w) as (h' & value & Hg & Hhook & Hd).
         rewrite Hout in Hg. injection Hg as <-. by exists value.
       - intros c fn n. destruct (render_listener_sets c fn n w) as (h' & Hg & Hd & Hl).
         rewrite Hout in Hg. injection Hg as <-. by split. }
  3: { intros w first actions Huses w1.
       destruct (perform_default first w Huses) as (h & Hset & _ & Hfirst).
       fold w1 in Hset, Hfirst. exists h. split; [exact Hset|]. split; [exact Hfirst|].
       cbv zeta.
       assert (Hd : defaultInstance (run actions w1) = Some h)
         by (by apply (preserves_run keeps_default perform_keeps_default actions)).
       split; [done|]. split; [by apply getDefaultInstance_set|].
       split; [|split; [|split]].
       - intros c n. rewrite useMMKV_absent_outcome. unfold outcome.
         by rewrite (getDefaultInstance_set h).
       - intros getter b key n.
         destruct (createMMKVHook_valueRef getter b key (absent n) (run actions w1))
           as (value & mmkv & Hhook & Hres & _).
         unfold outcome in Hres. rewrite (resolve_absent h _ Hd) in Hres.
         injection Hres as <-. by exists value.
       - intros c fn n. by apply render_listener_default.
       - intros next Hnext.
         destruct (perform_default next (run actions w1) Hnext) as (h' & Hset' & _ & Hnone).
         rewrite Hd in Hnone. destruct Hnone as (-> & Hc & Hl). done. }
  - intros w Hd. unfold getDefaultInstance, MMKV.new. unfold_m. by rewrite Hd.
  - intros w actions. destruct (getDefaultInstance_sets w) as (h & Hout & Hset).
    exists h. split; [done|]. cbv zeta.
    assert (Hd : defaultInstance (run actions (exec getDefaultInstance w)) = Some h).
    { by apply (preserves_run keeps_default perform_keeps_default actions). }
    split; [done|]. split; [by apply getDefaultInstance_set|]. split; [|split].
    + intros c n. rewrite useMMKV_absent_outcome. unfold outcome.
      by rewrite (getDefaultInstance_set h).
    + intros getter b key n.
      destruct (createMMKVHook_valueRef getter b key (absent n)
                  (run actions (exec getDefaultInstance w)))
        as (value & mmkv & Hhook & Hres & _).
      unfold outcome in Hres. rewrite (resolve_absent h _ Hd) in Hres.
      injection Hres as <-. by exists value.
    + intros c fn n. by apply render_listener_default.
Qed.

(** ** The listener registry *)

Section Listeners.
Context `{Host}.

Lemma listeners_unfold h w : listeners h w = listeners_in (heap w) h.
Proof. reflexivity. Qed.

Lemma listeners_alter_listeners g h h' stores :
  listeners_in (alter (with_listeners g) h' stores) h
  = if decide (h = h' /\ h' < length stores) then g (listeners_in stores h)
    else listeners_in stores h.
Proof.
  unfold listeners_in. destruct (decide (h = h')) as [->|Hne].
  - rewrite list_lookup_alter_eq. destruct (stores !! h') as [s|] eqn:Hs; simpl.
    + apply lookup_lt_Some in Hs. by rewrite decide_True.
    + apply lookup_ge_None in Hs. rewrite decide_False; [done|lia].
  - rewrite list_lookup_alter_ne by done. rewrite decide_False; [done|]. by intros [? _].
Qed.

Lemma listeners_alter_data f h h' stores :
  listeners_in (alter (with_data f) h' stores) h = listeners_in stores h.
Proof.
  unfold listeners_in. destruct (decide (h = h')) as [->|Hne].
  - rewrite list_lookup_alter_eq. by destruct (stores !! h').
  - by rewrite list_lookup_alter_ne.
Qed.

Lemma listeners_new s h stores :
  listeners_in (stores ++ [s]) h
  = if decide (h = length stores) then onValueChangedListeners s
    else listeners_in stores h.
Proof.
  unfold listeners_in. destruct (decide (h = length stores)) as [->|Hne].
  - by rewrite list_lookup_middle.
  - destruct (decide (h < length stores)).
    + by rewrite lookup_app_l.
    + rewrite !lookup_ge_None_2; [done|lia|]. rewrite length_app. simpl. lia.
Qed.

Lemma elem_of_unregister l l' r :
  l' ∈ (unregister l r).*1 <-> l' ∈ r.*1 /\ l' <> l.
Proof.
  unfold unregister. rewrite !list_elem_of_fmap. split.
  - intros ([x cb] & -> & Hin). apply list_elem_of_filter in Hin as [Hne Hin].
    split; [|done]. by exists (x, cb).
  - intros (([x cb] & -> & Hin) & Hne). exists (x, cb). split; [done|].
    by apply list_elem_of_filter.
Qed.

Lemma registered_Some l r cb : registered l r = Some cb -> (l, cb) ∈ r.
Proof.
  induction r as [|[l' cb'] r IH]; simpl; [done|].
  case_bool_decide as Hl.
  - intros [= ->]. subst. apply list_elem_of_here.
  - intros Hr. apply list_elem_of_further. by apply IH.
Qed.

Lemma registered_None l r : registered l r = None <-> l ∉ r.*1.
Proof.
  induction r as [|[l' cb'] r IH]; simpl.
  - split; [intros _; apply not_elem_of_nil|done].
  - case_bool_decide as Hl.
    + subst. split; [done|]. intros Hn. exfalso. apply Hn. apply list_elem_of_here.
    + rewrite IH. rewrite not_elem_of_cons. naive_solver.
Qed.

Lemma registered_app_fresh l r cb :
  l ∉ r.*1 -> registered l (r ++ [(l, cb)]) = Some cb.
Proof.
  induction r as [|[l' cb'] r IH]; simpl; intros Hn.
  - by rewrite bool_decide_eq_true_2.
  - apply not_elem_of_cons in Hn as [Hne Hn]. rewrite bool_decide_eq_false_2 by done.
    by apply IH.
Qed.

#[global] Instance keeps_wf_preorder : PreOrder keeps_wf.
Proof. split; [by intros w Hw|]. intros a b c Hab Hbc Ha. by apply Hbc, Hab. Qed.

Lemma wf_same w w' :
  heap w' = heap w -> nextListener w' = nextListener w -> keeps_wf w w'.
Proof.
  unfold keeps_wf. intros Hh Hn [Hb Ho].
  split; unfold ids, listeners in *; rewrite ?Hh, ?Hn; done.
Qed.

Lemma wf_with_data f h w :
  keeps_wf w (with_heap (alter (with_data f) h (heap w)) w).
Proof.
  unfold keeps_wf. intros [Hb Ho]. split; unfold ids in *.
  - intros h0 l. rewrite !listeners_unfold. simpl. rewrite listeners_alter_data. apply Hb.
  - intros h0 h1 l. rewrite !listeners_unfold. simpl. rewrite !listeners_alter_data.
    apply Ho.
Qed.

Lemma new_keeps_wf configuration : preserves keeps_wf (MMKV.new configuration).
Proof.
  unfold preserves, keeps_wf. intros w [Hb Ho]. unfold MMKV.new, exec. simpl.
  split; unfold ids in *.
  - intros h l. rewrite listeners_unfold. simpl. rewrite listeners_new.
    case_decide; simpl; [by intros ?%elem_of_nil|apply Hb].
  - intros h h' l. rewrite !listeners_unfold. simpl. rewrite !listeners_new.
    repeat case_decide; simpl; try by intros ?%elem_of_nil.
    + by intros _ ?%elem_of_nil.
    + apply Ho.
Qed.

Lemma add_keeps_wf h cb : preserves keeps_wf (MMKV.addOnValueChangedListener h cb).
Proof.
  unfold preserves, keeps_wf. intros w [Hb Ho].
  unfold MMKV.addOnValueChangedListener, exec. simpl.
  split; unfold ids in *; simpl.
  - intros h0 l. rewrite listeners_unfold. simpl. rewrite listeners_alter_listeners.
    case_decide as Hd.
    + rewrite fmap_app, elem_of_app. simpl. intros [Hin|Hin%list_elem_of_singleton].
      * apply Hb in Hin. lia.
      * lia.
    + intros Hin%Hb. lia.
  - intros h0 h1 l. rewrite !listeners_unfold. simpl. rewrite !listeners_alter_listeners.
    repeat case_decide; rewrite ?fmap_app, ?elem_of_app; simpl.
    + naive_solver.
    + intros [Hin|Hin%list_elem_of_singleton] Hin'.
      * by apply (Ho h0 h1 l).
      * apply Hb in Hin'. lia.
    + intros Hin' [Hin|Hin%list_elem_of_singleton].
      * by apply (Ho h0 h1 l).
      * apply Hb in Hin'. lia.
    + apply Ho.
Qed.

Lemma remove_keeps_wf listener : preserves keeps_wf (MMKV.remove listener).
Proof.
  unfold preserves, keeps_wf. intros w [Hb Ho]. unfold MMKV.remove, exec. simpl.
  split; unfold ids in *; simpl.
  - intros h0 l. rewrite listeners_unfold. simpl. rewrite listeners_alter_listeners.
    case_decide; [|apply Hb]. intros [Hin _]%elem_of_unregister. by apply Hb in Hin.
  - intros h0 h1 l. rewrite !listeners_unfold. simpl. rewrite !listeners_alter_listeners.
    repeat case_decide; rewrite ?elem_of_unregister; naive_solver.
Qed.

Ltac keeps_wf_step :=
  first
    [ preserves_step
    | lazymatch goal with
      | |- preserves _ (MMKV.new _) => apply new_keeps_wf
      | |- preserves _ (MMKV.addOnValueChangedListener _ _) => apply add_keeps_wf
      | |- preserves _ (MMKV.remove _) => apply remove_keeps_wf
      | |- keeps_wf _ (with_heap (alter (with_data _) _ _) _) => apply wf_with_data
      | |- keeps_wf _ _ => by apply wf_same
      end ].

Ltac keeps_wf_tac := repeat keeps_wf_step.

Lemma getDefaultInstance_keeps_wf : preserves keeps_wf getDefaultInstance.
Proof. unfold getDefaultInstance. keeps_wf_tac. Qed.

Lemma call_keeps_wf cb key : preserves keeps_wf (call cb key).
Proof. destruct cb; simpl; unfold_program; keeps_wf_tac. Qed.

Lemma dispatch_all_keeps_wf h key targets :
  preserves keeps_wf (ChangeNotifier.dispatch_all h key targets).
Proof.
  induction targets as [|l targets IH]; simpl; [keeps_wf_tac|].
  unfold ChangeNotifier.dispatch.
  repeat first [ apply call_keeps_wf | apply IH | keeps_wf_tac ].
Qed.

Lemma perform_keeps_wf a : preserves keeps_wf (perform a).
Proof.
  destruct a; simpl; unfold_hooks.
  all: repeat first
    [ keeps_wf_step
    | lazymatch goal with
      | |- preserves _ (ChangeNotifier.dispatch_all _ _ _) => apply dispatch_all_keeps_wf
      | |- preserves _ getDefaultInstance => apply getDefaultInstance_keeps_wf
      end ].
Qed.

#[global] Instance stays_cancelled_preorder l : PreOrder (stays_cancelled l).
Proof.
  split; [by intros w Hw|].
  intros a b c Hab Hbc Ha. destruct (Hab Ha) as [Hb Hab'].
  destruct (Hbc Hb) as [Hc Hbc']. split; [done|]. by rewrite Hbc'.
Qed.

Lemma cancelled_same l w w' :
  heap w' = heap w -> nextListener w' = nextListener w -> trace w' = trace w ->
  stays_cancelled l w w'.
Proof.
  unfold stays_cancelled, cancelled. intros Hh Hn Ht [Hlt Hno].
  unfold ids, listeners in *. rewrite Hh, Hn, Ht. done.
Qed.

Lemma cancelled_log l e w :
  (forall key, e <> Invoked l key) -> stays_cancelled l w (log e w).
Proof.
  unfold stays_cancelled, cancelled. intros He [Hlt Hno]. split; [done|].
  unfold invocations. simpl. rewrite omap_app. simpl.
  destruct e; simpl; rewrite ?app_nil_r; try done.
  case_decide; [|by rewrite app_nil_r]. subst. by destruct (He key).
Qed.

Lemma cancelled_with_data l f h w :
  stays_cancelled l w (with_heap (alter (with_data f) h (heap w)) w).
Proof.
  unfold stays_cancelled, cancelled. intros [Hlt Hno]. split; [|done].
  split; [done|]. intros h0. unfold ids. rewrite listeners_unfold. simpl.
  rewrite listeners_alter_data. apply Hno.
Qed.

Lemma new_stays_cancelled l configuration :
  preserves (stays_cancelled l) (MMKV.new configuration).
Proof.
  unfold preserves, stays_cancelled, cancelled. intros w [Hlt Hno].
  unfold MMKV.new, exec. simpl. split.
  - split; [done|]. intros h. unfold ids. rewrite listeners_unfold. simpl.
    rewrite listeners_new. case_decide; simpl; [apply not_elem_of_nil|apply Hno].
  - unfold invocations. rewrite omap_app. simpl. by rewrite app_nil_r.
Qed.

Lemma add_stays_cancelled l h cb :
  preserves (stays_cancelled l) (MMKV.addOnValueChangedListener h cb).
Proof.
  unfold preserves, stays_cancelled, cancelled. intros w [Hlt Hno].
  unfold MMKV.addOnValueChangedListener, exec. simpl. split.
  - split; [lia|]. intros h0. unfold ids. rewrite listeners_unfold. simpl.
    rewrite listeners_alter_listeners. case_decide; [|apply Hno].
    rewrite fmap_app, elem_of_app. simpl. intros [Hin|Hin%list_elem_of_singleton].
    + by apply (Hno h0).
    + lia.
  - unfold invocations. rewrite omap_app. simpl. by rewrite app_nil_r.
Qed.

Lemma remove_stays_cancelled l listener :
  preserves (stays_cancelled l) (MMKV.remove listener).
Proof.
  unfold preserves, stays_cancelled, cancelled. intros w [Hlt Hno].
  unfold MMKV.remove, exec. simpl. split.
  - split; [done|]. intros h0. unfold ids. rewrite listeners_unfold. simpl.
    rewrite listeners_alter_listeners. case_decide; [|apply Hno].
    intros [Hin _]%elem_of_unregister. by apply (Hno h0).
  - unfold invocations. rewrite omap_app. simpl. by rewrite app_nil_r.
Qed.

Ltac stays_cancelled_step :=
  first
    [ preserves_step
    | lazymatch goal with
      | |- preserves _ (MMKV.new _) => apply new_stays_cancelled
      | |- preserves _ (MMKV.addOnValueChangedListener _ _) => apply add_stays_cancelled
      | |- preserves _ (MMKV.remove _) => apply remove_stays_cancelled
      | |- stays_cancelled _ _ (with_heap (alter (with_data _) _ _) _) =>
          apply cancelled_with_data
      | |- stays_cancelled _ _ (log _ _) => by apply cancelled_log
      | |- stays_cancelled _ _ _ => by apply cancelled_same
      end ].

Ltac stays_cancelled_tac := repeat stays_cancelled_step.

Lemma getDefaultInstance_stays_cancelled l :
  preserves (stays_cancelled l) getDefaultInstance.
Proof. unfold getDefaultInstance. stays_cancelled_tac. Qed.

Lemma call_stays_cancelled l cb key : preserves (stays_cancelled l) (call cb key).
Proof. destruct cb; simpl; unfold_program; stays_cancelled_tac. Qed.

Lemma dispatch_stays_cancelled l h key l' :
  preserves (stays_cancelled l) (ChangeNotifier.dispatch h key l').
Proof.
  intros w Hc. unfold ChangeNotifier.dispatch.
  change (exec (let! registry := gets (listeners h) in _) w)
    with (exec (match registered l' (listeners h w) with
                | Some cb => modify (log (Invoked l' key));; call cb key
                | None => ret tt
                end) w).
  destruct (registered l' (listeners h w)) as [cb|] eqn:Hreg; [|by apply cancelled_same].
  assert (Hne : l' <> l).
  { intros ->. destruct Hc as [_ Hno]. apply (Hno h).
    apply registered_Some in Hreg. unfold ids. by apply (list_elem_of_fmap_2 fst) in Hreg. }
  assert (Hstep : preserves (stays_cancelled l)
                    (modify (log (Invoked l' key));; call cb key)).
  { stays_cancelled_tac.
    - apply cancelled_log. intros key' [= ?]. done.
    - apply call_stays_cancelled. }
  by apply Hstep.
Qed.

Lemma dispatch_all_stays_cancelled l h key targets :
  preserves (stays_cancelled l) (ChangeNotifier.dispatch_all h key targets).
Proof.
  induction targets as [|l' targets IH]; simpl; [stays_cancelled_tac|].
  apply preserves_bind; [apply _|apply dispatch_stays_cancelled|intros; apply IH].
Qed.

Lemma perform_stays_cancelled l a : preserves (stays_cancelled l) (perform a).
Proof.
  destruct a; simpl; unfold_hooks.
  all: repeat first
    [ stays_cancelled_step
    | lazymatch goal with
      | |- preserves _ (ChangeNotifier.dispatch_all _ _ _) =>
          apply dispatch_all_stays_cancelled
      | |- preserves _ getDefaultInstance => apply getDefaultInstance_stays_cancelled
      end ].
Qed.

Lemma wf_initial : wf initial.
Proof. split; unfold ids, listeners; simpl; intros; by apply elem_of_nil in H0. Qed.

Lemma wf_run actions : wf (run actions initial).
Proof. apply (preserves_run keeps_wf perform_keeps_wf actions initial), wf_initial. Qed.
End Listeners.

(** C8.  In any world the program can reach, once [remove()] has returned
    on the handle of a registered listener, no run of the program invokes
    that listener again: its invocations stay what they were when the
    cancellation completed, whatever is mutated, registered or delivered
    afterwards, notifications that were in flight at that time included. *)
Theorem cancelled_listener_never_invoked `{Host}
  (before : list Action) (h : HandleId) (l : ListenerId) (after : list Action) :
  let w := run before initial in
  l ∈ ids h w ->
  let w' := exec (MMKV.remove (h, l)) w in
  invocations l (trace (run after w')) = invocations l (trace w')
  /\ forall h', l ∉ ids h' (run after w').
Proof.
  intros w Hreg w'.
  assert (Hwf : wf w) by apply wf_run.
  assert (Hc : cancelled l w').
  { split.
    - apply (wf_bounded w Hwf h l Hreg).
    - intros h'. unfold w', MMKV.remove, exec, ids. rewrite listeners_unfold. simpl.
      rewrite listeners_alter_listeners. case_decide as Hd.
      + intros [_ Hne]%elem_of_unregister. done.
      + intros Hin. apply Hd. split; [by apply (wf_owner w Hwf h' h l)|].
        unfold ids, listeners in Hreg.
        destruct (heap w !! h) eqn:Hs; [by apply lookup_lt_Some in Hs|].
        by apply elem_of_nil in Hreg. }
  destruct (preserves_run (stays_cancelled l) (perform_stays_cancelled l) after w' Hc)
    as [[_ Hno] Hinv].
  by split.
Qed.

Lemma resolve_denotes `{Host} instance mmkv w :
  denotes instance mmkv w -> resolve instance w = (Returned mmkv, w).
Proof.
  destruct instance; simpl; intros Hd; subst; try done.
  all: by apply getDefaultInstance_set.
Qed.

(** C9.  A listener binding that is subscribed to a handle and is rendered
    again with another callback against the same handle keeps its
    subscription: nothing is removed from or added to the registry, and the
    listener that was registered then, when a notification is dispatched to
    it, calls the callback of the latest render. *)
Theorem useMMKVListener_latest_callback `{Host} (w : World) (c : HookId)
  (fn1 fn2 : UserFn) (instance : Nullable HandleId) (mmkv : HandleId) (l : ListenerId) :
  listenerCells w !! c
  = Some {| ref := fn1; l_deps := Some mmkv; l_cleanup := Some (mmkv, l) |} ->
  registered l (listeners mmkv w) = Some (RefListener c) ->
  denotes instance mmkv w ->
  let w' := exec (render_listener c fn2 instance) w in
  listenerCells w' !! c
  = Some {| ref := fn2; l_deps := Some mmkv; l_cleanup := Some (mmkv, l) |}
  /\ heap w' = heap w
  /\ nextListener w' = nextListener w
  /\ trace w' = trace w
  /\ registered l (listeners mmkv w') = Some (RefListener c)
  /\ forall key,
       trace (exec (ChangeNotifier.dispatch mmkv key l) w)
       = trace w ++ [Invoked l key; UserCalled fn1 key]
       /\ trace (exec (ChangeNotifier.dispatch mmkv key l) w')
          = trace w' ++ [Invoked l key; UserCalled fn2 key].
Proof.
  intros Hcell Hreg Hres w'.
  assert (Hw' : w' = with_listenerCells
                       (<[c := {| ref := fn2; l_deps := Some mmkv;
                                  l_cleanup := Some (mmkv, l) |}]> (listenerCells w)) w).
  { unfold w', render_listener, useMMKVListener, useMMKVListener_effect.
    unfold exec, bind at 1 2. unfold modify at 1. simpl. rewrite Hcell. simpl.
    set (w1 := with_listenerCells _ w).
    assert (Hres1 : resolve instance w1 = (Returned mmkv, w1)).
    { apply resolve_denotes. by destruct instance. }
    unfold bind at 1. rewrite Hres1. simpl.
    unfold bind at 1. rewrite Hres1. simpl.
    unfold bind at 1. unfold gets at 1. simpl. rewrite lookup_insert_eq. simpl.
    by rewrite bool_decide_eq_true_2. }
  rewrite Hw'. simpl. rewrite lookup_insert_eq. repeat split; try done.
  - unfold ChangeNotifier.dispatch, useMMKVListener_listener. unfold_m.
    rewrite Hreg. simpl. unfold useMMKVListener_listener. unfold_m.
    rewrite Hcell. simpl. by rewrite <- app_assoc.
  - unfold ChangeNotifier.dispatch, useMMKVListener_listener. unfold_m.
    change (listeners mmkv (with_listenerCells _ w)) with (listeners mmkv w).
    rewrite Hreg. simpl. unfold useMMKVListener_listener. unfold_m.
    rewrite lookup_insert_eq. simpl. by rewrite <- app_assoc.
Qed.

Section ListenerExamples.
#[local] Existing Instance ExampleHost.host.

Lemma cancelled_listener_never_invoked_witness :
  0 ∈ ids 0 (run write_in_flight initial)
  /\ inflight (run write_in_flight initial)
     = [{| n_handle := 0; n_key := "theme"; n_targets := [0] |}]
  /\ invocations 0 (trace (run later (exec (MMKV.remove (0, 0)) (run write_in_flight initial))))
     = [].
Proof.
  assert (Hin : 0 ∈ ids 0 (run write_in_flight initial)) by (vm_compute; left).
  split; [exact Hin|]. split; [reflexivity|].
  destruct (cancelled_listener_never_invoked write_in_flight 0 0 later Hin) as [Hinv _].
  rewrite Hinv. reflexivity.
Defined.

(** Without the cancellation the same run invokes the listener thrice. *)
Example listener_invoked_when_not_cancelled :
  invocations 0 (trace (run later (run write_in_flight initial)))
  = ["theme"; "theme"; "theme"].
Proof. vm_compute. reflexivity. Qed.

Lemma useMMKVListener_latest_callback_witness :
  listenerCells listening !! 3
  = Some {| ref := "first"; l_deps := Some 0; l_cleanup := Some (0, 0) |}
  /\ registered 0 (listeners 0 listening) = Some (RefListener 3)
  /\ denotes JsUndefined 0 listening
  /\ trace (exec (ChangeNotifier.dispatch 0 "theme" 0)
              (exec (render_listener 3 "second" JsUndefined) listening))
     = trace listening ++ [Invoked 0 "theme"; UserCalled "second" "theme"].
Proof.
  assert (Hcell : listenerCells listening !! 3
    = Some {| ref := "first"; l_deps := Some 0; l_cleanup := Some (0, 0) |})
    by (vm_compute; reflexivity).
  assert (Hreg : registered 0 (listeners 0 listening) = Some (RefListener 3))
    by (vm_compute; reflexivity).
  assert (Hden : denotes JsUndefined 0 listening) by (vm_compute; reflexivity).
  split; [exact Hcell|]. split; [exact Hreg|]. split; [exact Hden|].
  destruct (useMMKVListener_latest_callback listening 3 "first" "second" JsUndefined 0 0
              Hcell Hreg Hden) as (_ & _ & _ & Htrace & _ & Hcall).
  destruct (Hcall "theme") as [_ Hsecond]. rewrite Hsecond. by rewrite Htrace.
Defined.

(** The first render of a hook without an instance constructs the default
    store; [useMMKV()], another hook and [getDefaultInstance] then construct
    nothing. *)
Example default_instance_made_by_first_hook :
  let w := run [RenderHook GetString 0 "user.name" JsUndefined; UseMMKV 7 JsNull;
                RenderListener 3 "first" JsUndefined; GetDefaultInstance] initial in
  defaultInstance w = Some 0
  /\ length (heap w) = 1
  /\ constructions (trace w) = [(0, JsUndefined)].
Proof. vm_compute. repeat split. Qed.
End ListenerExamples.

(** ** The object binding *)

#[global] Instance keeps_memo_preorder `{Host} : PreOrder keeps_memo.
Proof. split; [by intros w Hw|]. intros a b c Hab Hbc Ha. by apply Hbc, Hab. Qed.

Section Memo.
Context `{Host}.

Lemma useMMKVObject_value_parsed string w :
  useMMKVObject_value string w = (parsed string, w).
Proof.
  unfold useMMKVObject_value, parsed. destruct string as [text|]; [|done].
  by destruct (JSON_parse (to_text text)).
Qed.

Lemma memo_same w w' : memoCells w' = memoCells w -> keeps_memo w w'.
Proof. unfold keeps_memo, memo_consistent. intros ->. done. Qed.

Lemma useMemo_spec b string w :
  memo_consistent w ->
  outcome (useMemo b string) w = parsed string
  /\ memo_consistent (exec (useMemo b string) w).
Proof.
  intros Hm. unfold useMemo. unfold_m.
  destruct (memoCells w !! b) as [cell|] eqn:Hcell.
  - case_bool_decide as Hdep; simpl.
    + split; [|done]. subst. symmetry. by apply (Hm b).
    + rewrite useMMKVObject_value_parsed. destruct (parsed string) as [v|e] eqn:Hp; simpl.
      * split; [done|]. intros b' cell'. simpl.
        destruct (decide (b = b')) as [->|Hne].
        -- rewrite lookup_insert_eq. by intros [= <-].
        -- rewrite lookup_insert_ne by done. apply Hm.
      * done.
  - rewrite useMMKVObject_value_parsed. destruct (parsed string) as [v|e] eqn:Hp; simpl.
    + split; [done|]. intros b' cell'. simpl.
      destruct (decide (b = b')) as [->|Hne].
      * rewrite lookup_insert_eq. by intros [= <-].
      * rewrite lookup_insert_ne by done. apply Hm.
    + done.
Qed.

Lemma useMemo_keeps b string : preserves keeps_memo (useMemo b string).
Proof. intros w Hm. by apply useMemo_spec. Qed.

Ltac keeps_memo_tac :=
  repeat first
    [ apply useMemo_keeps
    | preserves_step
    | by (apply memo_same)
    | by (intros ?; apply memo_same) ].

Lemma call_keeps_memo cb key : preserves keeps_memo (call cb key).
Proof. destruct cb; simpl; unfold_program; keeps_memo_tac. Qed.

Lemma dispatch_all_keeps_memo h key targets :
  preserves keeps_memo (ChangeNotifier.dispatch_all h key targets).
Proof.
  induction targets as [|l targets IH]; simpl; [keeps_memo_tac|].
  unfold ChangeNotifier.dispatch.
  repeat first [ apply call_keeps_memo | apply IH | keeps_memo_tac ].
Qed.

Lemma perform_keeps_memo a : preserves keeps_memo (perform a).
Proof.
  destruct a; simpl.
  all: unfold render_hook, render_object, render_listener, unmount_hook, unmount_listener,
    useMMKV, useMMKVObject, useMMKVString, createMMKVHook, createMMKVHook_effects,
    useMMKVListener, useMMKVListener_effect,
    useMMKVObject_setValue, createMMKVHook_set, createMMKVHook_listener,
    useMMKVListener_listener, resolve, getDefaultInstance, setValue, run_getter,
    MMKV.set, MMKV.delete, MMKV.notify, MMKV.getString, MMKV.getNumber,
    MMKV.getBoolean, MMKV.remove, MMKV.new, MMKV.addOnValueChangedListener,
    ChangeNotifier.deliver.
  all: repeat first [ apply dispatch_all_keeps_memo | keeps_memo_tac ].
Qed.

Lemma memo_consistent_run actions : memo_consistent (run actions initial).
Proof.
  apply (preserves_run keeps_memo perform_keeps_memo actions initial).
  intros b cell Hcell. simpl in Hcell. by rewrite lookup_empty in Hcell.
Qed.

Lemma createMMKVHook_memoCells getter b key instance w :
  memoCells (exec (createMMKVHook getter b key instance) w) = memoCells w.
Proof.
  unfold createMMKVHook, resolve, getDefaultInstance, MMKV.new. unfold_m.
  destruct instance as [| |h]; simpl.
  1,2: destruct (defaultInstance w) as [d|]; simpl.
  all: destruct (hooks w !! b) as [cell|] eqn:Hb; simpl.
  all: try (rewrite run_getter_read; simpl).
  all: reflexivity.
Qed.

Lemma useMMKVObject_outcome b key instance w :
  memo_consistent w ->
  exists string set,
    outcome (useMMKVString b key instance) w = Returned (string, set)
    /\ outcome (useMMKVObject b key instance) w
       = match parsed string with
         | Returned value => Returned (value, set)
         | Thrown e => Thrown e
         end.
Proof.
  intros Hm. unfold useMMKVString.
  destruct (createMMKVHook_valueRef GetString b key instance w)
    as (value & mmkv & Hout & _ & _).
  eexists _, _. split; [exact Hout|].
  unfold useMMKVObject, useMMKVString, outcome, bind at 1.
  unfold outcome in Hout.
  pose proof (createMMKVHook_memoCells GetString b key instance w) as Hcells.
  unfold exec in Hcells.
  destruct (createMMKVHook GetString b key instance w) as [r w1]. simpl in *.
  subst r. 
  assert (Hm1 : memo_consistent w1).
  { intros b' cell'. rewrite Hcells. apply Hm. }
  destruct (useMemo_spec b value w1 Hm1) as [Hmemo _].
  unfold outcome in Hmemo. unfold bind. simpl.
  destruct (useMemo b value w1) as [r w2]. simpl in *. subst r.
  by destruct (parsed value).
Qed.

Lemma createMMKVHook_value getter b key instance w value set :
  outcome (createMMKVHook getter b key instance) w = Returned (value, set) ->
  match hooks w !! b with
  | Some cell => value = state cell
  | None => forall h, instance = Present h -> value = typed_read getter h key w
  end.
Proof.
  unfold createMMKVHook, resolve, getDefaultInstance, MMKV.new. unfold_m.
  destruct instance as [| |h]; simpl.
  1,2: destruct (defaultInstance w) as [d|]; simpl.
  all: destruct (hooks w !! b) as [cell|] eqn:Hb; simpl.
  all: try (rewrite run_getter_read; simpl).
  all: intros [= <- <-]; try done.
  by intros h' [= <-].
Qed.

(** The first render of a binding reads the store the instance argument
    resolves to, the default store included, after the default store was
    constructed if it had to be. *)
Lemma createMMKVHook_first_value getter b key instance w :
  hooks w !! b = None ->
  exists mmkv,
    outcome (resolve instance) w = Returned mmkv
    /\ outcome (createMMKVHook getter b key instance) w
       = Returned (typed_read getter mmkv key (exec (resolve instance) w),
                   {| s_hook := b; s_key := key; s_mmkv := mmkv |}).
Proof.
  intros Hb. unfold createMMKVHook, resolve, getDefaultInstance, MMKV.new. unfold_m.
  destruct instance as [| |h]; simpl.
  1,2: destruct (defaultInstance w) as [d|]; simpl.
  all: rewrite Hb; simpl; rewrite run_getter_read; simpl.
  all: eexists; split; reflexivity.
Qed.
End Memo.

(** C7.  In any world the program can reach, a render of the object binding
    yields what [JSON.parse] makes of the string binding's value: when that
    value is a text that does not parse, the render throws the syntax error
    to its caller; it yields [undefined] when, and only when, the string
    binding's value is [undefined].  The string binding's value is its
    state, and on the first render what [getString] reads from the store.

    On the first render the store is the one the instance argument resolves
    to, the default store when there is no argument: when that store holds
    under the key a string that does not parse, the render throws the syntax
    error; when it holds a string that parses, the render yields the parsed
    value; and the render yields [undefined] exactly when the store holds no
    string under the key. *)
Theorem useMMKVObject_parse_failure `{Host} (actions : list Action) (b : HookId)
  (key : string) (instance : Nullable HandleId) :
  let w := run actions initial in
  exists string set,
    outcome (useMMKVString b key instance) w = Returned (string, set)
    /\ match hooks w !! b with
       | Some cell => string = state cell
       | None => forall h, instance = Present h -> string = typed_read GetString h key w
       end
    /\ (forall text,
         string = Some text -> JSON_parse (to_text text) = None ->
         outcome (useMMKVObject b key instance) w = Thrown (SyntaxError (to_text text)))
    /\ (forall text j,
         string = Some text -> JSON_parse (to_text text) = Some j ->
         outcome (useMMKVObject b key instance) w = Returned (Some j, set))
    /\ (string = None -> outcome (useMMKVObject b key instance) w = Returned (None, set))
    /\ (forall set',
         outcome (useMMKVObject b key instance) w = Returned (None, set') -> string = None)
    /\ (hooks w !! b = None ->
        let stored := contents (s_mmkv set) (exec (resolve instance) w) !! key in
        outcome (resolve instance) w = Returned (s_mmkv set)
        /\ string = typed_read GetString (s_mmkv set) key (exec (resolve instance) w)
        /\ (forall text,
              stored = Some (SString text) -> JSON_parse text = None ->
              outcome (useMMKVObject b key instance) w = Thrown (SyntaxError text))
        /\ (forall text j,
              stored = Some (SString text) -> JSON_parse text = Some j ->
              outcome (useMMKVObject b key instance) w = Returned (Some j, set))
        /\ ((forall text, stored <> Some (SString text))
            <-> outcome (useMMKVObject b key instance) w = Returned (None, set))).
Proof.
  intros w.
  destruct (useMMKVObject_outcome b key instance w (memo_consistent_run actions))
    as (string & set & Hstring & Hobject).
  exists string, set. split; [done|].
  split; [by apply (createMMKVHook_value GetString b key instance w string set)|].
  rewrite Hobject. unfold parsed.
  split; [|split; [|split; [|split]]].
  - intros text -> Hparse. by rewrite Hparse.
  - intros text j -> Hparse. by rewrite Hparse.
  - by intros ->.
  - intros set'. destruct string as [text|]; [|done].
    by destruct (JSON_parse (to_text text)).
  - intros Hfirst.
    destruct (createMMKVHook_first_value GetString b key instance w Hfirst)
      as (mmkv & Hres & Hout).
    unfold useMMKVString in Hstring. rewrite Hout in Hstring.
    injection Hstring as <- <-. cbn [s_mmkv]. split; [exact Hres|]. split; [done|].
    unfold typed_read.
    destruct (contents mmkv (exec (resolve instance) w) !! key) as [[flag|n|text]|]; simpl.
    1,2,4: split; [by intros ? [=]|]; split; [by intros ? ? [=]|];
           split; [done|by intros _ ? [=]].
    split; [|split; [|split]].
    + intros text' [= <-] Hparse. by rewrite Hparse.
    + intros text' j [= <-] Hparse. by rewrite Hparse.
    + intros Hnone. by destruct (Hnone text).
    + by destruct (JSON_parse text).
Qed.

(** ** Delivery of change notifications *)

#[global] Instance frame_preorder : PreOrder frame.
Proof.
  split; [by intros w|].
  intros a b c (Hh1 & Hi1 & Hd1 & Hc1 & Hm1) (Hh2 & Hi2 & Hd2 & Hc2 & Hm2).
  repeat (split; [congruence|]). intros x Hx. by apply Hm2, Hm1.
Qed.

Section Delivery.
Context `{Host}.

Lemma typed_read_heap getter h key w w' :
  heap w' = heap w -> typed_read getter h key w' = typed_read getter h key w.
Proof. intros Hh. unfold typed_read, contents. by rewrite Hh. Qed.

Lemma frame_setValue b x w :
  frame w (with_hooks
             (alter (fun c => {| state := x; valueRef := valueRef c;
                                 deps := deps c; cleanup := cleanup c |}) b (hooks w)) w).
Proof.
  repeat (split; [done|]). intros b' Hb'. simpl.
  destruct (decide (b = b')) as [->|Hne].
  - rewrite lookup_alter_eq. by apply fmap_is_Some.
  - by rewrite lookup_alter_ne.
Qed.

Lemma call_frame cb key : preserves frame (call cb key).
Proof.
  destruct cb; simpl; unfold_program.
  all: repeat first [ apply frame_setValue | preserves_step | done ].
Qed.

Lemma dispatch_frame h key l : preserves frame (ChangeNotifier.dispatch h key l).
Proof.
  unfold ChangeNotifier.dispatch.
  repeat first [ apply call_frame | preserves_step | done ].
Qed.

Lemma dispatch_all_frame h key targets :
  preserves frame (ChangeNotifier.dispatch_all h key targets).
Proof.
  induction targets as [|l targets IH]; simpl.
  - by apply preserves_ret; apply _.
  - apply preserves_bind; [apply _|apply dispatch_frame|intros; apply IH].
Qed.

Lemma exec_bind {A B} (c : M A) (k : A -> M B) w :
  exec (bind c k) w
  = match outcome c w with
    | Returned a => exec (k a) (exec c w)
    | Thrown _ => exec c w
    end.
Proof. unfold exec, outcome, bind. by destruct (c w) as [[a|e] w']. Qed.

Lemma outcome_bind {A B} (c : M A) (k : A -> M B) w :
  outcome (bind c k) w
  = match outcome c w with
    | Returned a => outcome (k a) (exec c w)
    | Thrown e => Thrown e
    end.
Proof. unfold exec, outcome, bind. by destruct (c w) as [[a|e] w']. Qed.

Lemma call_returns cb key w : outcome (call cb key) w = Returned tt.
Proof.
  destruct cb as [b' getter key' mmkv|c|fn]; simpl; [| |done].
  - unfold createMMKVHook_listener, setValue. case_bool_decide; [|done].
    unfold_m. by rewrite run_getter_read.
  - unfold useMMKVListener_listener. unfold_m. by destruct (listenerCells w !! c).
Qed.

Lemma dispatch_returns h key l w : outcome (ChangeNotifier.dispatch h key l) w = Returned tt.
Proof.
  unfold ChangeNotifier.dispatch.
  change (outcome (let! registry := gets (listeners h) in _) w)
    with (outcome (match registered l (listeners h w) with
                   | Some cb => modify (log (Invoked l key));; call cb key
                   | None => ret tt
                   end) w).
  destruct (registered l (listeners h w)) as [cb|]; [|done].
  apply (call_returns cb key (log (Invoked l key) w)).
Qed.

Lemma dispatch_all_returns h key targets w :
  outcome (ChangeNotifier.dispatch_all h key targets) w = Returned tt.
Proof.
  revert w. induction targets as [|l targets IH]; intros w; simpl; [done|].
  rewrite outcome_bind, dispatch_returns. apply IH.
Qed.

Lemma call_state cb changedKey b w :
  state_of b (exec (call cb changedKey) w)
  = match cb with
    | HookListener b' getter key mmkv =>
        if decide (b' = b /\ changedKey = key)
        then (fun _ => typed_read getter mmkv key w) <$> state_of b w
        else state_of b w
    | _ => state_of b w
    end.
Proof.
  unfold state_of. destruct cb as [b' getter key mmkv|c|fn]; simpl.
  - unfold createMMKVHook_listener, setValue. case_bool_decide as Hk.
    + unfold_m. rewrite run_getter_read. simpl. destruct (decide (b' = b)) as [->|Hne].
      * rewrite decide_True by done. rewrite lookup_alter_eq.
        by destruct (hooks w !! b).
      * rewrite decide_False by (by intros [? _]). by rewrite lookup_alter_ne.
    + rewrite decide_False by (by intros [_ ?]). done.
  - unfold useMMKVListener_listener. unfold_m. by destruct (listenerCells w !! c).
  - done.
Qed.

Lemma dispatch_state h key l b w :
  state_of b (exec (ChangeNotifier.dispatch h key l) w)
  = match registered l (listeners h w) with
    | Some (HookListener b' getter key' mmkv) =>
        if decide (b' = b /\ key = key')
        then (fun _ => typed_read getter mmkv key' w) <$> state_of b w
        else state_of b w
    | _ => state_of b w
    end.
Proof.
  unfold ChangeNotifier.dispatch.
  change (exec (let! registry := gets (listeners h) in _) w)
    with (exec (match registered l (listeners h w) with
                | Some cb => modify (log (Invoked l key));; call cb key
                | None => ret tt
                end) w).
  destruct (registered l (listeners h w)) as [cb|]; [|done].
  change (exec (modify (log (Invoked l key));; call cb key) w)
    with (exec (call cb key) (log (Invoked l key) w)).
  rewrite call_state. by destruct cb.
Qed.

(** Fan-out reaches the listener of binding [b]: once the notification has
    been dispatched to every target, the state of [b] is a fresh read. *)
Lemma dispatch_all_state h key targets b lb getter w :
  registered lb (listeners h w) = Some (HookListener b getter key h) ->
  (forall l cb, registered l (listeners h w) = Some cb -> writes_to b cb -> l = lb) ->
  is_Some (hooks w !! b) ->
  state_of b w = Some (typed_read getter h key w) \/ lb ∈ targets ->
  state_of b (exec (ChangeNotifier.dispatch_all h key targets) w)
  = Some (typed_read getter h key w).
Proof.
  revert w. induction targets as [|l targets IH]; intros w Hreg Hsole Hmounted Hcase.
  - destruct Hcase as [Hq|Hin]; [done|by apply elem_of_nil in Hin].
  - simpl.
    rewrite exec_bind, dispatch_returns.
    set (w1 := exec (ChangeNotifier.dispatch h key l) w).
    assert (Hheap : heap w1 = heap w) by apply dispatch_frame.
    assert (Hlist : listeners h w1 = listeners h w) by (unfold listeners; by rewrite Hheap).
    assert (Hstate := dispatch_state h key l b w). fold w1 in Hstate.
    rewrite <- (typed_read_heap getter h key w w1 Hheap).
    apply IH.
    + by rewrite Hlist.
    + intros l' cb. rewrite Hlist. apply Hsole.
    + by apply (dispatch_frame h key l w).
    + rewrite (typed_read_heap getter h key w w1 Hheap).
      destruct (decide (l = lb)) as [->|Hne].
      * left. rewrite Hstate, Hreg. rewrite decide_True by done.
        destruct Hmounted as [cell Hcell]. unfold state_of. by rewrite Hcell.
      * assert (Hsame : state_of b w1 = state_of b w).
        { rewrite Hstate. destruct (registered l (listeners h w)) as [cb|] eqn:Hl; [|done].
          destruct cb as [b' g' k' m'| |]; try done.
          case_decide as Hd; [|done]. destruct Hd as [-> _].
          destruct Hne. by apply (Hsole l (HookListener b g' k' m')). }
        rewrite Hsame. destruct Hcase as [Hq|Hin]; [by left|].
        right. apply elem_of_cons in Hin as [->|Hin]; done.
Qed.

Lemma deliver_head n rest w :
  inflight w = n :: rest ->
  exec ChangeNotifier.deliver w
  = exec (ChangeNotifier.dispatch_all (n_handle n) (n_key n) (n_targets n))
      (with_inflight rest w)
  /\ outcome ChangeNotifier.deliver w = Returned tt.
Proof.
  intros Hq. unfold ChangeNotifier.deliver. split.
  - change (exec (let! pending := gets inflight in _) w)
      with (exec (match inflight w with
                  | [] => ret tt
                  | n :: rest =>
                      modify (with_inflight rest);;
                      ChangeNotifier.dispatch_all (n_handle n) (n_key n) (n_targets n)
                  end) w).
    by rewrite Hq.
  - change (outcome (let! pending := gets inflight in _) w)
      with (outcome (match inflight w with
                     | [] => ret tt
                     | n :: rest =>
                         modify (with_inflight rest);;
                         ChangeNotifier.dispatch_all (n_handle n) (n_key n) (n_targets n)
                     end) w).
    rewrite Hq. apply (dispatch_all_returns _ _ _ (with_inflight rest w)).
Qed.

Lemma subscribed_frame b getter key h lb w w' :
  heap w' = heap w ->
  (is_Some (hooks w !! b) -> is_Some (hooks w' !! b)) ->
  subscribed b getter key h lb w -> subscribed b getter key h lb w'.
Proof.
  intros Hh Hm (Hb & Hreg & Hsole). unfold subscribed, listeners in *.
  rewrite Hh. split; [by apply Hm|done].
Qed.

Lemma deliver_n_fresh b getter key h lb queue targets w :
  subscribed b getter key h lb w ->
  inflight w = queue ++ [{| n_handle := h; n_key := key; n_targets := targets |}] ->
  lb ∈ targets ->
  let w' := exec (ChangeNotifier.deliver_n (S (length queue))) w in
  state_of b w' = Some (typed_read getter h key w)
  /\ heap w' = heap w /\ inflight w' = []
  /\ defaultInstance w' = defaultInstance w /\ memoCells w' = memoCells w.
Proof.
  revert w. induction queue as [|n queue IH]; intros w Hsub Hq Hin; simpl in *.
  - destruct (deliver_head _ _ w Hq) as [Hexec Hout]. simpl in *.
    rewrite exec_bind, Hout. unfold exec at 1. simpl. rewrite Hexec.
    destruct Hsub as (Hb & Hreg & Hsole).
    pose proof (dispatch_all_frame h key targets (with_inflight [] w))
      as (Hh & Hi & Hd & Hc & _).
    split; [|split; [exact Hh|split; [exact Hi|split; [exact Hd|exact Hc]]]].
    apply (dispatch_all_state h key targets b lb getter (with_inflight [] w)); try done.
    by right.
  - destruct (deliver_head _ _ w Hq) as [Hexec Hout].
    rewrite exec_bind, Hout.
    set (w1 := exec ChangeNotifier.deliver w).
    assert (Hframe : frame (with_inflight (queue ++ [{| n_handle := h; n_key := key;
                              n_targets := targets |}]) w) w1).
    { unfold w1. rewrite Hexec. apply dispatch_all_frame. }
    destruct Hframe as (Hh & Hi & Hd & Hc & Hm). simpl in Hh, Hi, Hd, Hc.
    assert (Hsub1 : subscribed b getter key h lb w1).
    { apply (subscribed_frame b getter key h lb w); [done|apply Hm|done]. }
    destruct (IH w1 Hsub1 Hi Hin) as (Hs & Hh' & Hi' & Hd' & Hc').
    rewrite (typed_read_heap getter h key w w1 Hh) in Hs.
    split; [done|]. repeat split; congruence.
Qed.

Lemma set_shape h key p w :
  let w1 := exec (MMKV.set h key (of_stored p)) w in
  heap w1 = alter (with_data <[key := p]>) h (heap w)
  /\ hooks w1 = hooks w
  /\ defaultInstance w1 = defaultInstance w
  /\ memoCells w1 = memoCells w
  /\ inflight w1 = inflight w ++ [{| n_handle := h; n_key := key; n_targets := ids h w |}].
Proof.
  unfold MMKV.set, MMKV.notify. unfold_m. destruct p; simpl.
  all: repeat (split; [done|]).
  all: unfold ids; rewrite listeners_unfold; simpl; by rewrite listeners_alter_data.
Qed.

Lemma delete_shape h key w :
  let w1 := exec (MMKV.delete h key) w in
  heap w1 = alter (with_data (delete key)) h (heap w)
  /\ hooks w1 = hooks w
  /\ defaultInstance w1 = defaultInstance w
  /\ memoCells w1 = memoCells w
  /\ inflight w1 = inflight w ++ [{| n_handle := h; n_key := key; n_targets := ids h w |}].
Proof.
  unfold MMKV.delete, MMKV.notify. unfold_m.
  repeat (split; [done|]).
  unfold ids; rewrite listeners_unfold; simpl; by rewrite listeners_alter_data.
Qed.

(** A mutation of [key] on [h] followed by the delivery of everything in
    flight leaves the state of a subscribed binding equal to a fresh read. *)
Lemma mutation_reaches_binding b getter key h lb f w w1 :
  subscribed b getter key h lb w ->
  heap w1 = alter (with_data f) h (heap w) ->
  hooks w1 = hooks w ->
  defaultInstance w1 = defaultInstance w ->
  memoCells w1 = memoCells w ->
  inflight w1 = inflight w ++ [{| n_handle := h; n_key := key; n_targets := ids h w |}] ->
  let w2 := exec ChangeNotifier.flush w1 in
  state_of b w2 = Some (typed_read getter h key w2)
  /\ contents h w2 = f (contents h w)
  /\ inflight w2 = []
  /\ defaultInstance w2 = defaultInstance w
  /\ memoCells w2 = memoCells w
  /\ is_Some (hooks w2 !! b).
Proof.
  intros (Hb & Hreg & Hsole) Hheap Hhooks Hdef Hmemo Hq w2.
  assert (Hlist : listeners h w1 = listeners h w).
  { rewrite !listeners_unfold, Hheap. apply listeners_alter_data. }
  assert (Hsub1 : subscribed b getter key h lb w1).
  { unfold subscribed. by rewrite Hhooks, Hlist. }
  assert (Hin : lb ∈ ids h w).
  { apply registered_Some in Hreg. by apply (list_elem_of_fmap_2 fst) in Hreg. }
  assert (Hw2 : w2 = exec (ChangeNotifier.deliver_n (S (length (inflight w)))) w1).
  { unfold w2, ChangeNotifier.flush.
    change (exec (let! pending := gets inflight in _) w1)
      with (exec (ChangeNotifier.deliver_n (length (inflight w1))) w1).
    rewrite Hq, length_app. simpl. by rewrite Nat.add_1_r. }
  destruct (deliver_n_fresh b getter key h lb (inflight w) (ids h w) w1 Hsub1 Hq Hin)
    as (Hstate & Hh2 & Hi2 & Hd2 & Hc2).
  rewrite <- Hw2 in Hstate, Hh2, Hi2, Hd2, Hc2.
  split; [by rewrite (typed_read_heap getter h key w1 w2 Hh2)|]. split.
  { unfold contents. rewrite Hh2, Hheap, list_lookup_alter_eq.
    apply registered_Some in Hreg. unfold listeners in Hreg.
    destruct (heap w !! h); [done|]. by apply elem_of_nil in Hreg. }
  split; [done|]. split; [congruence|]. split; [congruence|].
  unfold state_of in Hstate. by destruct (hooks w2 !! b).
Qed.

Lemma setter_reaches_binding b getter lb writer v w :
  let cached := hooks w !! s_hook writer ≫= valueRef in
  let newValue := match v with VFunction f => f cached | _ => v end in
  subscribed b getter (s_key writer) (s_mmkv writer) lb w ->
  is_primitive (typeof newValue) = true \/ typeof newValue = TUndefined ->
  let w2 := exec ChangeNotifier.flush (exec (createMMKVHook_set writer v) w) in
  state_of b w2 = Some (typed_read getter (s_mmkv writer) (s_key writer) w2)
  /\ contents (s_mmkv writer) w2 !! s_key writer = as_stored newValue
  /\ inflight w2 = []
  /\ defaultInstance w2 = defaultInstance w
  /\ memoCells w2 = memoCells w
  /\ is_Some (hooks w2 !! b).
Proof.
  intros cached newValue Hsub Htype.
  assert (Hcases : createMMKVHook_set writer v w
    = match typeof newValue with
      | TNumber | TString | TBoolean => MMKV.set (s_mmkv writer) (s_key writer) newValue w
      | TUndefined => MMKV.delete (s_mmkv writer) (s_key writer) w
      | t => (Thrown (UnsupportedType t), w)
      end) by apply createMMKVHook_set_cases.
  clearbody newValue.
  destruct Htype as [Hp|Hu].
  - destruct (is_primitive_as_stored _ Hp) as (p & Hstored & ->).
    destruct (set_shape (s_mmkv writer) (s_key writer) p w) as (Hh & Hk & Hd & Hc & Hq).
    assert (Hw1 : exec (createMMKVHook_set writer v) w
                  = exec (MMKV.set (s_mmkv writer) (s_key writer) (of_stored p)) w).
    { unfold exec. rewrite Hcases. by destruct p. }
    rewrite Hw1.
    destruct (mutation_reaches_binding b getter _ _ lb _ w _ Hsub Hh Hk Hd Hc Hq)
      as (Hs & Hcont & Hrest).
    split; [exact Hs|]. split; [|exact Hrest].
    rewrite Hcont, Hstored. apply lookup_insert_eq.
  - assert (Hw1 : exec (createMMKVHook_set writer v) w
                  = exec (MMKV.delete (s_mmkv writer) (s_key writer)) w).
    { unfold exec. by rewrite Hcases, Hu. }
    rewrite Hw1.
    destruct (delete_shape (s_mmkv writer) (s_key writer) w) as (Hh & Hk & Hd & Hc & Hq).
    destruct (mutation_reaches_binding b getter _ _ lb _ w _ Hsub Hh Hk Hd Hc Hq)
      as (Hs & Hcont & Hrest).
    split; [exact Hs|]. split; [|exact Hrest].
    rewrite Hcont.
    destruct newValue as [|[]| | | |]; try discriminate. apply lookup_delete_eq.
Qed.
End Delivery.

(** C2.  A change notification for the bound key sets the binding's state
    to a fresh typed read of the bound store, whoever made the change; one
    for another key leaves it alone.  Hence, when binding [b] is subscribed
    to the store and key that a setter writes to, a write through that
    setter, once the notifications in flight are delivered, leaves the state
    of [b] equal to a fresh read of the store, which holds the written
    value; [b] itself wrote nothing. *)
Theorem write_reaches_other_binding `{Host} (writer : Setter) (v : JsValue)
  (b : HookId) (getter : Getter) (lb : ListenerId) (w : World) :
  let cached := hooks w !! s_hook writer ≫= valueRef in
  let newValue := match v with VFunction f => f cached | _ => v end in
  subscribed b getter (s_key writer) (s_mmkv writer) lb w ->
  is_primitive (typeof newValue) = true \/ typeof newValue = TUndefined ->
  let w2 := exec ChangeNotifier.flush (exec (createMMKVHook_set writer v) w) in
  (forall changedKey u,
     state_of b
       (exec (createMMKVHook_listener b getter (s_key writer) (s_mmkv writer) changedKey) u)
     = if decide (changedKey = s_key writer)
       then (fun _ => typed_read getter (s_mmkv writer) (s_key writer) u) <$> state_of b u
       else state_of b u)
  /\ state_of b w2 = Some (typed_read getter (s_mmkv writer) (s_key writer) w2)
  /\ contents (s_mmkv writer) w2 !! s_key writer = as_stored newValue.
Proof.
  intros cached newValue Hsub Htype w2. split.
  - intros changedKey u.
    pose proof (call_state (HookListener b getter (s_key writer) (s_mmkv writer))
                  changedKey b u) as Hcall.
    simpl in Hcall. rewrite Hcall. by repeat case_decide; try naive_solver.
  - destruct (setter_reaches_binding b getter lb writer v w Hsub Htype) as (Hs & Hc & _).
    by split.
Qed.

Section ObjectBinding.
Context `{Host}.

Lemma denotes_default instance h w w' :
  defaultInstance w' = defaultInstance w -> denotes instance h w -> denotes instance h w'.
Proof. intros Hd. destruct instance; simpl; congruence. Qed.

Lemma memo_consistent_cells w w' :
  memoCells w' = memoCells w -> memo_consistent w -> memo_consistent w'.
Proof. unfold memo_consistent. by intros ->. Qed.

(** The render of an object binding whose string binding is mounted. *)
Lemma useMMKVObject_mounted b key instance h string w :
  denotes instance h w ->
  memo_consistent w ->
  state_of b w = Some string ->
  outcome (useMMKVObject b key instance) w
  = match parsed string with
    | Returned value => Returned (value, {| s_hook := b; s_key := key; s_mmkv := h |})
    | Thrown e => Thrown e
    end.
Proof.
  intros Hden Hmemo Hstate.
  destruct (useMMKVObject_outcome b key instance w Hmemo) as (string' & set & Hs & Ho).
  destruct (createMMKVHook_valueRef GetString b key instance w)
    as (value & mmkv & Hout & Hres & _).
  unfold useMMKVString in Hs. rewrite Hout in Hs. injection Hs as <- <-.
  unfold outcome in Hres. rewrite (resolve_denotes instance h w Hden) in Hres.
  injection Hres as <-.
  pose proof (createMMKVHook_value GetString b key instance w _ _ Hout) as Hvalue.
  unfold state_of in Hstate. destruct (hooks w !! b) as [cell|]; [|done].
  injection Hstate as Hcell. rewrite Hvalue, Hcell in Ho. exact Ho.
Qed.
End ObjectBinding.

(** C5.  For a mounted object binding and a value [v] that [JSON.stringify]
    turns into a text which [JSON.parse] turns back into [v]: after
    [setValue(v)] and the delivery of the notifications in flight, the
    binding renders [v], and the store holds the text.  After
    [setValue(undefined)] it renders [undefined] and [contains(key)] is
    false. *)
Theorem useMMKVObject_roundtrip `{Host} (b : HookId) (key : string)
  (instance : Nullable HandleId) (h : HandleId) (lb : ListenerId)
  (v : Json) (text : string) (w : World) :
  let writer := {| s_hook := b; s_key := key; s_mmkv := h |} in
  subscribed b GetString key h lb w ->
  denotes instance h w ->
  memo_consistent w ->
  loosely_null (VJson v) = false ->
  JSON_stringify (VJson v) = Text text ->
  JSON_parse text = Some v ->
  (let w2 := exec ChangeNotifier.flush (exec (useMMKVObject_setValue writer (VJson v)) w) in
   outcome (useMMKVObject b key instance) w2 = Returned (Some v, writer)
   /\ contents h w2 !! key = Some (SString text))
  /\ (let w2 := exec ChangeNotifier.flush (exec (useMMKVObject_setValue writer VUndefined) w) in
      outcome (useMMKVObject b key instance) w2 = Returned (None, writer)
      /\ outcome (MMKV.contains h key) w2 = Returned false).
Proof.
  intros writer Hsub Hden Hmemo Hnull Hprint Hparse. split.
  - assert (Hset : useMMKVObject_setValue writer (VJson v) w
                   = createMMKVHook_set writer (VJson (JString text)) w).
    { unfold useMMKVObject_setValue. by rewrite Hnull, Hprint. }
    assert (Hw : exec (useMMKVObject_setValue writer (VJson v)) w
                 = exec (createMMKVHook_set writer (VJson (JString text))) w)
      by (unfold exec; by rewrite Hset).
    intros w2. unfold w2. rewrite Hw.
    destruct (setter_reaches_binding b GetString lb writer (VJson (JString text)) w Hsub)
      as (Hs & Hc & _ & Hd & Hm & _); [by left|].
    simpl in Hs, Hc, Hd, Hm. split; [|exact Hc].
    rewrite (useMMKVObject_mounted b key instance h (Some (SString text))).
    + simpl. by rewrite Hparse.
    + by apply (denotes_default instance h w).
    + by apply (memo_consistent_cells w).
    + rewrite Hs. unfold typed_read. by rewrite Hc.
  - assert (Hset : useMMKVObject_setValue writer VUndefined w
                   = createMMKVHook_set writer VUndefined w) by done.
    assert (Hw : exec (useMMKVObject_setValue writer VUndefined) w
                 = exec (createMMKVHook_set writer VUndefined) w)
      by (unfold exec; by rewrite Hset).
    intros w2. unfold w2. rewrite Hw.
    destruct (setter_reaches_binding b GetString lb writer VUndefined w Hsub)
      as (Hs & Hc & _ & Hd & Hm & _); [by right|].
    simpl in Hs, Hc, Hd, Hm. split.
    + rewrite (useMMKVObject_mounted b key instance h None).
      * done.
      * by apply (denotes_default instance h w).
      * by apply (memo_consistent_cells w).
      * rewrite Hs. unfold typed_read. by rewrite Hc.
    + unfold MMKV.contains. unfold_m. f_equal. apply bool_decide_eq_false.
      rewrite Hc. by intros [? ?].
Qed.

Section BindingExamples.
#[local] Existing Instance ExampleHost.host.

Lemma two_bindings_subscribed : subscribed 2 GetString "user.name" 0 1 two_bindings.
Proof.
  assert (Hl : listeners 0 two_bindings
               = [(0, HookListener 1 GetString "user.name" 0);
                  (1, HookListener 2 GetString "user.name" 0)])
    by (vm_compute; reflexivity).
  split; [vm_compute; eauto|]. rewrite Hl. split; [reflexivity|].
  intros l cb Hr Hw. simpl in Hr.
  repeat case_bool_decide; simplify_eq; simpl in Hw; done.
Defined.

Lemma write_reaches_other_binding_witness :
  subscribed 2 GetString "user.name" 0 1 two_bindings
  /\ state_of 2 two_bindings = Some None
  /\ state_of 2
       (exec ChangeNotifier.flush
          (exec (createMMKVHook_set first_setter (VJson (JString "Ann"))) two_bindings))
     = Some (Some (SString "Ann")).
Proof.
  split; [exact two_bindings_subscribed|]. split; [vm_compute; reflexivity|].
  destruct (write_reaches_other_binding first_setter (VJson (JString "Ann")) 2 GetString 1
              two_bindings two_bindings_subscribed (or_introl eq_refl))
    as (_ & Hstate & Hcontents).
  rewrite Hstate. unfold typed_read. by rewrite Hcontents.
Defined.

Lemma object_binding_subscribed : subscribed 5 GetString "user" 0 0 object_binding.
Proof.
  assert (Hl : listeners 0 object_binding = [(0, HookListener 5 GetString "user" 0)])
    by (vm_compute; reflexivity).
  split; [vm_compute; eauto|]. rewrite Hl. split; [reflexivity|].
  intros l cb Hr Hw. simpl in Hr.
  repeat case_bool_decide; simplify_eq; simpl in Hw; done.
Defined.

Lemma useMMKVObject_roundtrip_witness :
  subscribed 5 GetString "user" 0 0 object_binding
  /\ denotes JsUndefined 0 object_binding
  /\ memo_consistent object_binding
  /\ JSON_stringify (VJson ExampleHost.user) = Text ExampleHost.user_text
  /\ JSON_parse ExampleHost.user_text = Some ExampleHost.user
  /\ outcome (useMMKVObject 5 "user" JsUndefined)
       (exec ChangeNotifier.flush
          (exec (useMMKVObject_setValue user_setter (VJson ExampleHost.user)) object_binding))
     = Returned (Some ExampleHost.user, user_setter)
  /\ outcome (useMMKVObject 5 "user" JsUndefined)
       (exec ChangeNotifier.flush
          (exec (useMMKVObject_setValue user_setter VUndefined) object_binding))
     = Returned (None, user_setter).
Proof.
  assert (Hden : denotes JsUndefined 0 object_binding) by (vm_compute; reflexivity).
  assert (Hmemo : memo_consistent object_binding) by apply memo_consistent_run.
  assert (Hprint : JSON_stringify (VJson ExampleHost.user) = Text ExampleHost.user_text)
    by (vm_compute; reflexivity).
  assert (Hparse : JSON_parse ExampleHost.user_text = Some ExampleHost.user)
    by (vm_compute; reflexivity).
  destruct (useMMKVObject_roundtrip 5 "user" JsUndefined 0 0 ExampleHost.user
              ExampleHost.user_text object_binding object_binding_subscribed Hden Hmemo
              eq_refl Hprint Hparse) as [[Hwrite _] [Hclear _]].
  split; [exact object_binding_subscribed|]. split; [exact Hden|].
  split; [exact Hmemo|]. split; [exact Hprint|]. split; [exact Hparse|].
  split; [exact Hwrite|exact Hclear].
Defined.

(** A text that is not JSON, written to the store by another party, makes
    the first render of an object binding throw. *)
Example useMMKVObject_throws_on_malformed_text :
  let w := run [GetDefaultInstance; StoreSet 0 "user" (VJson (JString "{oops"))] initial in
  outcome (useMMKVObject 5 "user" JsUndefined) w = Thrown (SyntaxError "{oops")
  /\ outcome (useMMKVObject 5 "other" JsUndefined) w
     = Returned (None, {| s_hook := 5; s_key := "other"; s_mmkv := 0 |}).
Proof. vm_compute. split; reflexivity. Qed.
End BindingExamples.

(** ** Configurations compared *)

(** X1.  [isConfigurationEqual] is an equivalence on what a caller may pass
    as a configuration: it is reflexive, symmetric and transitive.  [null]
    and [undefined] are equal to each other and to no configuration object,
    and two configuration objects are equal exactly when their [id], [path]
    and [encryptionKey] are. *)
Theorem isConfigurationEqual_equivalence :
  (forall a, isConfigurationEqual a a = true)
  /\ (forall a b, isConfigurationEqual a b = isConfigurationEqual b a)
  /\ (forall a b c,
        isConfigurationEqual a b = true -> isConfigurationEqual b c = true ->
        isConfigurationEqual a c = true)
  /\ (forall a b, is_nullish a = true ->
        isConfigurationEqual a b = is_nullish b /\ isConfigurationEqual b a = is_nullish b)
  /\ (forall x y,
        isConfigurationEqual (Present x) (Present y) = true
        <-> id x = id y /\ path x = path y /\ encryptionKey x = encryptionKey y).
Proof.
  assert (Hsym : forall a b, isConfigurationEqual a b = isConfigurationEqual b a).
  { intros a b. apply eq_true_iff_eq. rewrite !isConfigurationEqual_spec.
    destruct a, b; simpl; try tauto. split; intros (-> & -> & ->); done. }
  split; [|split; [exact Hsym|split; [|split]]].
  - intros a. apply isConfigurationEqual_spec. by destruct a.
  - intros a b c. rewrite !isConfigurationEqual_spec.
    destruct a, b, c; simpl; try tauto.
    intros (-> & -> & ->) (-> & -> & ->). done.
  - intros a b Ha. rewrite (Hsym b a). by destruct a, b.
  - intros x y. rewrite isConfigurationEqual_spec. simpl. tauto.
Qed.

(** ** The handles of [useMMKV] *)

#[global] Instance keeps_handles_preorder : PreOrder keeps_handles.
Proof. split; [by intros w Hw|]. intros a b c Hab Hbc Ha. by apply Hbc, Hab. Qed.

Section Handles.
Context `{Host}.














End Handles.


(** ** The setter of the object binding *)

Section ObjectSetter.
Context `{Host}.

(** X3.  What the setter of an object binding does is decided by the value:
    for [null] and [undefined], and for a value that [JSON.stringify] turns
    into [undefined], it is [delete] on the bound store and key, after which
    the key is gone; for a value with a JSON text it is [set] with that text
    as a string, after which a live store holds the text under the key; and
    when [JSON.stringify] throws, the setter throws the same error and the
    world is as it was.  The setter throws in no other case. *)
Theorem useMMKVObject_setValue_stores_text (s : Setter) (v : JsValue) (w : World) :
  let w' := exec (useMMKVObject_setValue s v) w in
  (loosely_null v = true \/ JSON_stringify v = NoText ->
   useMMKVObject_setValue s v w = MMKV.delete (s_mmkv s) (s_key s) w
   /\ outcome (useMMKVObject_setValue s v) w = Returned tt
   /\ trace w' = trace w ++ [CalledDelete (s_mmkv s) (s_key s)]
   /\ contents (s_mmkv s) w' !! s_key s = None)
  /\ (forall text,
        loosely_null v = false -> JSON_stringify v = Text text ->
        useMMKVObject_setValue s v w
        = MMKV.set (s_mmkv s) (s_key s) (VJson (JString text)) w
        /\ outcome (useMMKVObject_setValue s v) w = Returned tt
        /\ trace w' = trace w ++ [CalledSet (s_mmkv s) (s_key s) (VJson (JString text))]
        /\ (s_mmkv s < length (heap w) ->
            contents (s_mmkv s) w' !! s_key s = Some (SString text)))
  /\ (forall e,
        loosely_null v = false -> JSON_stringify v = Raises e ->
        useMMKVObject_setValue s v w = (Thrown e, w))
  /\ (forall e,
        outcome (useMMKVObject_setValue s v) w = Thrown e ->
        loosely_null v = false /\ JSON_stringify v = Raises e).
Proof.
  intros w'.
  assert (Hdelete : useMMKVObject_setValue s v w = MMKV.delete (s_mmkv s) (s_key s) w ->
            useMMKVObject_setValue s v w = MMKV.delete (s_mmkv s) (s_key s) w
            /\ outcome (useMMKVObject_setValue s v) w = Returned tt
            /\ trace w' = trace w ++ [CalledDelete (s_mmkv s) (s_key s)]
            /\ contents (s_mmkv s) w' !! s_key s = None).
  { intros Heq. unfold w', outcome, exec. rewrite Heq. split; [done|]. split; [done|].
    split; [done|]. apply delete_contents. }
  split; [|split; [|split]].
  - intros Hcase. apply Hdelete. unfold useMMKVObject_setValue.
    destruct (loosely_null v); [done|]. destruct Hcase as [|Hprint]; [done|].
    by rewrite Hprint.
  - intros text Hnull Hprint.
    assert (Heq : useMMKVObject_setValue s v w
                  = MMKV.set (s_mmkv s) (s_key s) (VJson (JString text)) w).
    { unfold useMMKVObject_setValue. by rewrite Hnull, Hprint. }
    split; [exact Heq|]. unfold w', outcome, exec. rewrite Heq.
    change (VJson (JString text)) with (of_stored (SString text)).
    split; [apply set_outcome|]. split; [apply (set_trace _ _ _ w)|].
    intros Hlive. pose proof (set_contents (s_mmkv s) (s_key s) (SString text) w) as Hc.
    unfold exec in Hc. rewrite Hc.
    destruct (heap w !! s_mmkv s) eqn:Hs; [apply lookup_insert_eq|].
    apply lookup_ge_None in Hs. lia.
  - intros e Hnull Hprint. unfold useMMKVObject_setValue. by rewrite Hnull, Hprint.
  - intros e. unfold outcome, useMMKVObject_setValue.
    destruct (loosely_null v); [done|].
    destruct (JSON_stringify v) as [text| |e']; simpl; try done.
    by intros [= ->].
Qed.
End ObjectSetter.

(** ** Subscribing again *)

Section Resubscribe.
Context `{Host}.

Lemma elem_of_unregister_pair l0 l (cb : Callback) r :
  (l, cb) ∈ unregister l0 r <-> (l, cb) ∈ r /\ l <> l0.
Proof. unfold unregister. rewrite list_elem_of_filter. simpl. tauto. Qed.

Lemma listeners_dangling h w : ~ h < length (heap w) -> listeners h w = [].
Proof. intros Hn. unfold listeners. rewrite lookup_ge_None_2; [done|lia]. Qed.

Lemma remove_listeners h0 l0 h l (c : Callback) w :
  (l, c) ∈ listeners h (exec (MMKV.remove (h0, l0)) w)
  <-> (l, c) ∈ listeners h w /\ (h0, l0) <> (h, l).
Proof.
  unfold MMKV.remove, exec. simpl. rewrite listeners_unfold. simpl.
  rewrite listeners_alter_listeners, <- listeners_unfold.
  case_decide as Hd.
  - destruct Hd as [-> Hlive]. rewrite elem_of_unregister_pair.
    split; intros [Hin Hne]; (split; [done|congruence]).
  - split; [|by intros [? _]]. intros Hin. split; [done|]. intros [= -> ->].
    apply Hd. split; [done|]. destruct (decide (h < length (heap w))); [done|].
    rewrite listeners_dangling in Hin by done. by apply elem_of_nil in Hin.
Qed.

Lemma add_listeners h0 cb h l (c : Callback) w :
  (l, c) ∈ listeners h (exec (MMKV.addOnValueChangedListener h0 cb) w)
  <-> (l, c) ∈ listeners h w
      \/ (h = h0 /\ h0 < length (heap w) /\ l = nextListener w /\ c = cb).
Proof.
  unfold MMKV.addOnValueChangedListener, exec. simpl. rewrite listeners_unfold. simpl.
  rewrite listeners_alter_listeners, <- listeners_unfold.
  case_decide as Hd.
  - destruct Hd as [-> Hlive]. rewrite elem_of_app, list_elem_of_singleton.
    split; (intros [Hin|Hnew]; [by left|right]).
    + by injection Hnew as -> ->.
    + by destruct Hnew as (_ & _ & -> & ->).
  - split; [by left|]. intros [Hin|(-> & Hlive & _)]; [done|]. by destruct Hd.
Qed.

(** The registry of every handle after the cleanup and the new
    subscription. *)
Lemma resubscribed_listeners old h cb h' l c w :
  (l, c) ∈ listeners h' (resubscribed old h cb w)
  <-> ((l, c) ∈ listeners h' w /\ old <> Some (h', l))
      \/ (h' = h /\ h < length (heap w) /\ l = nextListener w /\ c = cb).
Proof.
  unfold resubscribed. rewrite add_listeners. destruct old as [[h0 l0]|].
  - rewrite remove_listeners.
    change (nextListener (exec (MMKV.remove (h0, l0)) w)) with (nextListener w).
    assert (Hlen : length (heap (exec (MMKV.remove (h0, l0)) w)) = length (heap w)).
    { unfold MMKV.remove, exec. simpl. apply length_alter. }
    rewrite Hlen.
    split; (intros [[Hin Hne]|Hnew]; [left; split; [done|]|by right]).
    + intros [= -> ->]. by apply Hne.
    + intros [= -> ->]. by apply Hne.
  - change (exec (ret tt) w) with w.
    split; (intros [Hin|Hnew]; [left|by right]); [done|by destruct Hin].
Qed.

Lemma resubscribed_registered old h cb w :
  wf w -> h < length (heap w) ->
  registered (nextListener w) (listeners h (resubscribed old h cb w)) = Some cb.
Proof.
  intros Hwf Hlive.
  assert (Hfresh : nextListener w ∉ ids h (exec (match old with
                      | Some listener => MMKV.remove listener
                      | None => ret tt end) w)).
  { intros Hin. unfold ids in Hin.
    apply list_elem_of_fmap in Hin as ([l c] & Heq & Hin). simpl in Heq.
    assert (Hold : (l, c) ∈ listeners h w).
    { destruct old as [[h0 l0]|]; [by apply remove_listeners in Hin as [? _]|done]. }
    apply (list_elem_of_fmap_2 fst) in Hold.
    pose proof (wf_bounded w Hwf h l Hold) as Hlt. lia. }
  unfold resubscribed, MMKV.addOnValueChangedListener, exec at 1. simpl.
  rewrite listeners_unfold. simpl. rewrite listeners_alter_listeners.
  assert (Hlen : length (heap (exec (match old with
                      | Some listener => MMKV.remove listener
                      | None => ret tt end) w)) = length (heap w)).
  { destruct old as [[h0 l0]|]; [|done]. unfold MMKV.remove, exec. simpl.
    apply length_alter. }
  rewrite decide_True by (by rewrite Hlen).
  assert (Hnext : nextListener (exec (match old with
                      | Some listener => MMKV.remove listener
                      | None => ret tt end) w) = nextListener w).
  { by destruct old as [[h0 l0]|]. }
  rewrite Hnext. apply registered_app_fresh. rewrite <- listeners_unfold. exact Hfresh.
Qed.
End Resubscribe.

(** ** The effects of a render *)

Section ListenerRebind.
Context `{Host}.

Lemma world_eq (w1 w2 : World) :
  defaultInstance w1 = defaultInstance w2 -> heap w1 = heap w2 ->
  nextListener w1 = nextListener w2 -> hooks w1 = hooks w2 ->
  handleCells w1 = handleCells w2 -> listenerCells w1 = listenerCells w2 ->
  memoCells w1 = memoCells w2 -> inflight w1 = inflight w2 -> trace w1 = trace w2 ->
  w1 = w2.
Proof. destruct w1, w2. simpl. by intros -> -> -> -> -> -> -> -> ->. Qed.

Lemma useMMKVListener_effect_changed c mmkv cell w :
  listenerCells w !! c = Some cell ->
  l_deps cell <> Some mmkv ->
  exec (useMMKVListener_effect c mmkv) w
  = with_listenerCells
      (alter (fun cl => {| ref := ref cl; l_deps := Some mmkv;
                           l_cleanup := Some (mmkv, nextListener w) |}) c (listenerCells w))
      (resubscribed (l_cleanup cell) mmkv (RefListener c) w).
Proof.
  intros Hcell Hdeps. unfold useMMKVListener_effect, resubscribed.
  unfold MMKV.remove, MMKV.addOnValueChangedListener. unfold_m.
  rewrite Hcell. simpl. rewrite bool_decide_eq_false_2 by done.
  by destruct (l_cleanup cell) as [[h0 l0]|].
Qed.

(** The render and commit of a listener binding on another store. *)
Lemma render_listener_changed c fn instance mmkv w :
  denotes instance mmkv w ->
  listenerCells w !! c ≫= l_deps <> Some mmkv ->
  let old := listenerCells w !! c ≫= l_cleanup in
  exec (render_listener c fn instance) w
  = with_listenerCells
      (<[c := {| ref := fn; l_deps := Some mmkv;
                 l_cleanup := Some (mmkv, nextListener w) |}]> (listenerCells w))
      (resubscribed old mmkv (RefListener c) w).
Proof.
  intros Hden Hdeps old. unfold render_listener, useMMKVListener.
  set (cell0 := default {| ref := fn; l_deps := None; l_cleanup := None |}
                  (listenerCells w !! c)).
  set (cell1 := {| ref := fn; l_deps := l_deps cell0; l_cleanup := l_cleanup cell0 |}).
  set (w1 := with_listenerCells (<[c := cell1]> (listenerCells w)) w).
  assert (Hden1 : denotes instance mmkv w1) by (by destruct instance).
  transitivity (exec (useMMKVListener_effect c mmkv) w1).
  { unfold exec, bind at 1 2. unfold modify at 1. simpl. fold cell0. fold cell1. fold w1.
    unfold bind at 1. rewrite (resolve_denotes instance mmkv w1 Hden1). simpl.
    unfold bind at 1. by rewrite (resolve_denotes instance mmkv w1 Hden1). }
  assert (Hcell1 : listenerCells w1 !! c = Some cell1) by apply lookup_insert_eq.
  assert (Hdeps1 : l_deps cell1 <> Some mmkv).
  { unfold cell1, cell0. simpl. by destruct (listenerCells w !! c). }
  rewrite (useMMKVListener_effect_changed c mmkv cell1 w1 Hcell1 Hdeps1).
  assert (Hold : l_cleanup cell1 = old).
  { unfold cell1, cell0, old. simpl. by destruct (listenerCells w !! c). }
  rewrite Hold. unfold resubscribed, MMKV.addOnValueChangedListener, MMKV.remove, exec.
  destruct old as [[h0 l0]|]; apply world_eq; simpl; try reflexivity.
  all: apply map_eq; intros c'; destruct (decide (c = c')) as [<-|Hne].
  all: rewrite ?lookup_alter_eq, ?lookup_alter_ne, ?lookup_insert_eq, ?lookup_insert_ne by done.
  all: done.
Qed.
End ListenerRebind.


(** ** The listener of a typed binding *)

#[global] Instance keeps_owned_preorder : PreOrder keeps_owned.
Proof. split; [by intros w Hw|]. intros a b c Hab Hbc Ha. by apply Hbc, Hab. Qed.

Section Owned.
Context `{Host}.

Lemma resolve_returns instance w :
  exists mmkv, resolve instance w = (Returned mmkv, exec (resolve instance) w)
               /\ hooks (exec (resolve instance) w) = hooks w.
Proof.
  unfold resolve, getDefaultInstance, MMKV.new. unfold_m.
  destruct instance as [| |h]; [| |by exists h].
  all: destruct (defaultInstance w) as [d|]; simpl; eauto.
Qed.

Lemma createMMKVHook_present getter b key h w :
  let cell := rendered_cell getter key h (hooks w !! b) w in
  createMMKVHook getter b key (Present h) w
  = (Returned (state cell, {| s_hook := b; s_key := key; s_mmkv := h |}),
     with_hooks (<[b := cell]> (hooks w)) w).
Proof.
  intros cell. unfold createMMKVHook, resolve. unfold_m. unfold cell, rendered_cell.
  destruct (hooks w !! b) as [c|] eqn:Hb; simpl.
  - f_equal. apply world_eq; simpl; try reflexivity.
    apply map_eq. intros b'. destruct (decide (b = b')) as [<-|Hne].
    + by rewrite lookup_alter_eq, lookup_insert_eq, Hb.
    + by rewrite lookup_alter_ne, lookup_insert_ne.
  - rewrite run_getter_read. simpl. f_equal. apply world_eq; simpl; try reflexivity.
    apply map_eq. intros b'. destruct (decide (b = b')) as [<-|Hne].
    + by rewrite lookup_alter_eq, !lookup_insert_eq.
    + by rewrite lookup_alter_ne, !lookup_insert_ne.
Qed.

(** A render resolves the handle and writes the cells of the binding. *)
Lemma createMMKVHook_exec getter b key instance mmkv w :
  outcome (resolve instance) w = Returned mmkv ->
  let w0 := exec (resolve instance) w in
  let cell := rendered_cell getter key mmkv (hooks w !! b) w0 in
  createMMKVHook getter b key instance w
  = (Returned (state cell, {| s_hook := b; s_key := key; s_mmkv := mmkv |}),
     with_hooks (<[b := cell]> (hooks w0)) w0).
Proof.
  intros Hres w0 cell.
  destruct (resolve_returns instance w) as (mmkv' & Hr & Hhooks).
  unfold outcome in Hres. rewrite Hr in Hres. injection Hres as ->.
  transitivity (createMMKVHook getter b key (Present mmkv) w0).
  { unfold createMMKVHook. unfold bind at 1 3. by rewrite Hr. }
  rewrite createMMKVHook_present. unfold cell, w0. by rewrite Hhooks.
Qed.

Lemma contents_resubscribed h old h' cb w :
  contents h (resubscribed old h' cb w) = contents h w.
Proof.
  unfold contents, resubscribed, MMKV.addOnValueChangedListener, MMKV.remove, exec.
  assert (Hdata : forall f (stores : list Store),
            (forall s, data (f s) = data s) ->
            from_option data ∅ (alter f h' stores !! h) = from_option data ∅ (stores !! h)).
  { intros f stores Hf. destruct (decide (h = h')) as [->|Hne].
    - rewrite list_lookup_alter_eq. destruct (stores !! h'); simpl; [by rewrite Hf|done].
    - by rewrite list_lookup_alter_ne. }
  destruct old as [[h0 l0]|]; simpl.
  - rewrite Hdata by done.
    destruct (decide (h = h0)) as [->|Hne].
    + rewrite list_lookup_alter_eq. by destruct (heap w !! h0).
    + by rewrite list_lookup_alter_ne.
  - by rewrite Hdata.
Qed.

Lemma typed_read_resubscribed getter h key old h' cb w :
  typed_read getter h key (resubscribed old h' cb w) = typed_read getter h key w.
Proof. unfold typed_read. by rewrite contents_resubscribed. Qed.

(** The commit when the key or the store is not the one of the last
    commit: cleanup, fresh read, new subscription. *)
Lemma createMMKVHook_effects_changed getter b key mmkv cell w :
  hooks w !! b = Some cell ->
  deps cell <> Some (key, mmkv) ->
  exec (createMMKVHook_effects getter b key mmkv) w
  = with_hooks
      (<[b := {| state := typed_read getter mmkv key w; valueRef := valueRef cell;
                 deps := Some (key, mmkv);
                 cleanup := Some (mmkv, nextListener w) |}]> (hooks w))
      (resubscribed (cleanup cell) mmkv (HookListener b getter key mmkv) w).
Proof.
  intros Hcell Hdeps. unfold createMMKVHook_effects.
  unfold exec, bind at 1. unfold gets at 1. simpl. rewrite Hcell.
  rewrite bool_decide_eq_false_2 by done.
  unfold resubscribed, setValue, MMKV.remove, MMKV.addOnValueChangedListener.
  destruct (cleanup cell) as [[h0 l0]|]; unfold_m; rewrite run_getter_read; simpl.
  all: apply world_eq; simpl; try reflexivity.
  all: apply map_eq; intros b'; destruct (decide (b = b')) as [<-|Hne].
  all: rewrite ?lookup_alter_eq, ?lookup_alter_ne, ?lookup_insert_eq, ?lookup_insert_ne
         by done.
  all: rewrite ?Hcell; simpl; try done.
  do 2 f_equal. unfold typed_read, contents. simpl.
  destruct (decide (mmkv = h0)) as [->|Hne].
  + rewrite list_lookup_alter_eq. by destruct (heap w !! h0).
  + by rewrite list_lookup_alter_ne.
Qed.

Lemma createMMKVHook_effects_unchanged getter b key mmkv w :
  match hooks w !! b with
  | Some cell => deps cell = Some (key, mmkv)
  | None => True
  end ->
  createMMKVHook_effects getter b key mmkv w = (Returned tt, w).
Proof.
  intros Hdeps. unfold createMMKVHook_effects. unfold_m.
  destruct (hooks w !! b) as [cell|]; [|done]. by rewrite bool_decide_eq_true_2.
Qed.

Lemma owned_weaken w w' :
  (forall h l cb, (l, cb) ∈ listeners h w' -> (l, cb) ∈ listeners h w) ->
  (forall b, hooks w' !! b ≫= cleanup = hooks w !! b ≫= cleanup) ->
  keeps_owned w w'.
Proof.
  intros Hsub Hclean Ho h l b getter key mmkv Hin.
  rewrite Hclean. by apply (Ho h l b getter key mmkv), Hsub.
Qed.

Lemma owned_same w w' : heap w' = heap w -> hooks w' = hooks w -> keeps_owned w w'.
Proof.
  intros Hh Hk. apply owned_weaken.
  - intros h l cb. unfold listeners. by rewrite Hh.
  - intros b. by rewrite Hk.
Qed.

Lemma owned_alter_hooks f b w :
  (forall c, cleanup (f c) = cleanup c) ->
  keeps_owned w (with_hooks (alter f b (hooks w)) w).
Proof.
  intros Hf. apply owned_weaken; [done|]. intros b'. simpl.
  destruct (decide (b = b')) as [<-|Hne].
  - rewrite lookup_alter_eq. destruct (hooks w !! b); simpl; [apply Hf|done].
  - by rewrite lookup_alter_ne.
Qed.

Lemma owned_with_data f h w :
  keeps_owned w (with_heap (alter (with_data f) h (heap w)) w).
Proof.
  apply owned_weaken; [|done]. intros h0 l cb.
  rewrite listeners_unfold. simpl. by rewrite listeners_alter_data.
Qed.

Lemma new_keeps_owned configuration : preserves keeps_owned (MMKV.new configuration).
Proof.
  intros w. apply owned_weaken; [|done]. intros h l cb.
  unfold MMKV.new, exec. rewrite listeners_unfold. simpl. rewrite listeners_new.
  case_decide; [by intros ?%elem_of_nil|done].
Qed.

Lemma remove_keeps_owned listener : preserves keeps_owned (MMKV.remove listener).
Proof.
  intros w. apply owned_weaken; [|done]. intros h l cb. destruct listener as [h0 l0].
  rewrite remove_listeners. by intros [? _].
Qed.

Lemma add_keeps_owned h cb :
  (forall b, ~ writes_to b cb) ->
  preserves keeps_owned (MMKV.addOnValueChangedListener h cb).
Proof.
  intros Hcb w Ho h0 l b getter key mmkv Hin.
  apply add_listeners in Hin as [Hin|(_ & _ & _ & <-)].
  - by apply (Ho h0 l b getter key mmkv).
  - by destruct (Hcb b).
Qed.

Lemma createMMKVHook_effects_keeps_owned getter b key mmkv :
  preserves keeps_owned (createMMKVHook_effects getter b key mmkv).
Proof.
  intros w Ho.
  destruct (hooks w !! b) as [cell|] eqn:Hcell.
  - destruct (decide (deps cell = Some (key, mmkv))) as [Hdeps|Hdeps].
    + unfold exec. rewrite createMMKVHook_effects_unchanged; [done|by rewrite Hcell].
    + rewrite (createMMKVHook_effects_changed getter b key mmkv cell w Hcell Hdeps).
      intros h l b' getter' key' mmkv' Hin.
      change (listeners h (with_hooks _ ?x)) with (listeners h x) in Hin.
      apply resubscribed_listeners in Hin as [[Hin Hne]|(-> & _ & -> & [= <- <- <- <-])].
      * specialize (Ho h l b' getter' key' mmkv' Hin). simpl.
        destruct (decide (b = b')) as [<-|Hb]; [|by rewrite lookup_insert_ne].
        rewrite Hcell in Ho. simpl in Ho. destruct Hne. congruence.
      * simpl. by rewrite lookup_insert_eq.
  - unfold exec. rewrite createMMKVHook_effects_unchanged; [done|by rewrite Hcell].
Qed.

Lemma createMMKVHook_keeps_owned getter b key instance :
  preserves keeps_owned (createMMKVHook getter b key instance).
Proof.
  intros w Ho.
  destruct (resolve_returns instance w) as (mmkv & Hr & Hhooks).
  assert (Hout : outcome (resolve instance) w = Returned mmkv)
    by (unfold outcome; by rewrite Hr).
  unfold exec at 1. rewrite (createMMKVHook_exec getter b key instance mmkv w Hout). simpl.
  assert (Ho0 : owned (exec (resolve instance) w)).
  { revert Ho. generalize w. change (preserves keeps_owned (resolve instance)).
    unfold resolve, getDefaultInstance.
    repeat first [ apply new_keeps_owned | preserves_step | by (apply owned_same) ]. }
  revert Ho0. apply owned_weaken; [done|]. intros b'. simpl.
  destruct (decide (b = b')) as [<-|Hne]; [|by rewrite lookup_insert_ne].
  rewrite lookup_insert_eq, Hhooks. unfold rendered_cell.
  by destruct (hooks w !! b).
Qed.

Lemma unmount_hook_keeps_owned b : preserves keeps_owned (unmount_hook b).
Proof.
  intros w Ho. unfold unmount_hook. unfold_m.
  destruct (hooks w !! b) as [cell|] eqn:Hcell; simpl; [|done].
  destruct (cleanup cell) as [[h0 l0]|] eqn:Hclean; simpl; [|done].
  intros h l b' getter key mmkv Hin.
  change (listeners h ?x) with (listeners h (exec (MMKV.remove (h0, l0)) w)) in Hin.
  apply remove_listeners in Hin as [Hin Hne].
  specialize (Ho h l b' getter key mmkv Hin). simpl.
  destruct (decide (b = b')) as [<-|Hb]; [|by rewrite lookup_alter_ne].
  rewrite Hcell in Ho. simpl in Ho. rewrite Hclean in Ho. destruct Hne. congruence.
Qed.

Ltac keeps_owned_step :=
  first
    [ preserves_step
    | lazymatch goal with
      | |- preserves _ (createMMKVHook _ _ _ _) => apply createMMKVHook_keeps_owned
      | |- preserves _ (createMMKVHook_effects _ _ _ _) =>
          apply createMMKVHook_effects_keeps_owned
      | |- preserves _ (unmount_hook _) => apply unmount_hook_keeps_owned
      | |- preserves _ (MMKV.new _) => apply new_keeps_owned
      | |- preserves _ (MMKV.remove _) => apply remove_keeps_owned
      | |- preserves _ (MMKV.addOnValueChangedListener _ _) =>
          apply add_keeps_owned; by intros ? []
      | |- keeps_owned _ (with_heap (alter (with_data _) _ _) _) => apply owned_with_data
      | |- keeps_owned _ (with_hooks (alter _ _ _) _) => apply owned_alter_hooks; done
      | |- keeps_owned _ _ => by apply owned_same
      end ].

Ltac keeps_owned_tac := repeat keeps_owned_step.

Lemma call_keeps_owned cb key : preserves keeps_owned (call cb key).
Proof.
  destruct cb; simpl.
  all: unfold createMMKVHook_listener, useMMKVListener_listener, setValue, run_getter,
    MMKV.getString, MMKV.getNumber, MMKV.getBoolean.
  all: keeps_owned_tac.
Qed.

Lemma dispatch_all_keeps_owned h key targets :
  preserves keeps_owned (ChangeNotifier.dispatch_all h key targets).
Proof.
  induction targets as [|l targets IH]; simpl; [keeps_owned_tac|].
  unfold ChangeNotifier.dispatch.
  repeat first [ apply call_keeps_owned | apply IH | keeps_owned_step ].
Qed.

Lemma perform_keeps_owned a : preserves keeps_owned (perform a).
Proof.
  destruct a; simpl.
  all: unfold render_hook, render_object, render_listener, unmount_listener,
    useMMKV, useMMKVObject, useMMKVString,
    useMMKVListener, useMMKVListener_effect, useMemo, useMMKVObject_value,
    useMMKVObject_setValue, createMMKVHook_set,
    resolve, getDefaultInstance, run_getter,
    MMKV.set, MMKV.delete, MMKV.notify, MMKV.getString, MMKV.getNumber,
    MMKV.getBoolean, ChangeNotifier.deliver.
  all: repeat first
    [ keeps_owned_step
    | lazymatch goal with
      | |- preserves _ (ChangeNotifier.dispatch_all _ _ _) => apply dispatch_all_keeps_owned
      end ].
Qed.

Lemma owned_run actions : owned (run actions initial).
Proof.
  apply (preserves_run keeps_owned perform_keeps_owned actions initial).
  intros h l b getter key mmkv Hin. by apply elem_of_nil in Hin.
Qed.
End Owned.

Section Subscribes.
Context `{Host}.

(** A render and its commit, in one step. *)
Lemma render_hook_changed getter b key instance mmkv w :
  denotes instance mmkv w ->
  hooks w !! b ≫= deps <> Some (key, mmkv) ->
  let cell := rendered_cell getter key mmkv (hooks w !! b) w in
  render_hook getter b key instance w
  = (Returned (state cell, {| s_hook := b; s_key := key; s_mmkv := mmkv |}),
     with_hooks
       (<[b := {| state := typed_read getter mmkv key w; valueRef := state cell;
                  deps := Some (key, mmkv);
                  cleanup := Some (mmkv, nextListener w) |}]> (hooks w))
       (resubscribed (hooks w !! b ≫= cleanup) mmkv (HookListener b getter key mmkv) w)).
Proof.
  intros Hden Hdeps cell.
  assert (Hres : resolve instance w = (Returned mmkv, w)) by by apply resolve_denotes.
  assert (Hout : outcome (resolve instance) w = Returned mmkv)
    by (unfold outcome; by rewrite Hres).
  pose proof (createMMKVHook_exec getter b key instance mmkv w Hout) as Hrender.
  unfold exec in Hrender. rewrite Hres in Hrender. simpl in Hrender. fold cell in Hrender.
  set (w1 := with_hooks (<[b := cell]> (hooks w)) w) in *.
  assert (Hcell : hooks w1 !! b = Some cell) by (unfold w1; simpl; by rewrite lookup_insert_eq).
  assert (Hd : deps cell <> Some (key, mmkv)).
  { unfold cell, rendered_cell. destruct (hooks w !! b); simpl in *; done. }
  pose proof (createMMKVHook_effects_changed getter b key mmkv cell w1 Hcell Hd) as Heff.
  unfold render_hook. unfold bind at 1. rewrite Hrender. simpl.
  unfold bind at 1.
  destruct (createMMKVHook_effects getter b key mmkv w1) as [[[]|e] w2] eqn:Hrun.
  - unfold exec in Heff. rewrite Hrun in Heff. simpl in Heff. unfold ret. f_equal.
    rewrite Heff. apply world_eq; simpl; try reflexivity.
    4: { rewrite insert_insert_eq. f_equal.
         unfold cell, rendered_cell. destruct (hooks w !! b); by simpl. }
    all: unfold resubscribed, MMKV.addOnValueChangedListener, MMKV.remove, w1, cell,
           rendered_cell, exec.
    all: destruct (hooks w !! b) as [c|]; simpl; [destruct (cleanup c) as [[]|]|]; done.
  - exfalso. revert Hrun. unfold createMMKVHook_effects, setValue, MMKV.remove,
      MMKV.addOnValueChangedListener. unfold_m. rewrite Hcell.
    case_bool_decide; [done|]. destruct (cleanup cell) as [[]|]; simpl;
      rewrite run_getter_read; done.
Qed.

(** X4.  In any world the program can reach, the render and commit of a
    typed binding on a live store, when the binding is new or its key or
    store is not the one of its last commit, returns the value the binding
    held before (a fresh typed read on the first render) and leaves the
    binding subscribed: its listener is the one just registered, it is the
    only registered listener on any store that writes the binding's state,
    the listener of the previous commit is cancelled, the state is a fresh
    typed read of the new key, and no store content and no other binding
    changes. *)
Theorem render_hook_subscribes (actions : list Action) (getter : Getter) (b : HookId)
  (key : string) (instance : Nullable HandleId) (mmkv : HandleId) :
  let w := run actions initial in
  denotes instance mmkv w ->
  mmkv < length (heap w) ->
  hooks w !! b ≫= deps <> Some (key, mmkv) ->
  let w' := exec (render_hook getter b key instance) w in
  outcome (render_hook getter b key instance) w
  = Returned (match hooks w !! b with
              | Some cell => state cell
              | None => typed_read getter mmkv key w
              end, {| s_hook := b; s_key := key; s_mmkv := mmkv |})
  /\ subscribed b getter key mmkv (nextListener w) w'
  /\ (forall h l cb, (l, cb) ∈ listeners h w' -> writes_to b cb ->
       h = mmkv /\ l = nextListener w)
  /\ state_of b w' = Some (typed_read getter mmkv key w')
  /\ hooks w' !! b ≫= deps = Some (key, mmkv)
  /\ hooks w' !! b ≫= cleanup = Some (mmkv, nextListener w)
  /\ (forall h l, hooks w !! b ≫= cleanup = Some (h, l) -> l ∈ ids h w -> l ∉ ids h w')
  /\ (forall h, contents h w' = contents h w)
  /\ forall b', b' <> b -> hooks w' !! b' = hooks w !! b'.
Proof.
  intros w Hden Hlive Hdeps w'.
  assert (Hwf : wf w) by apply wf_run.
  assert (Ho : owned w) by apply owned_run.
  pose proof (render_hook_changed getter b key instance mmkv w Hden Hdeps) as Hrun.
  cbv zeta in Hrun. unfold w', outcome, exec. rewrite Hrun. cbn [fst snd].
  set (old := hooks w !! b ≫= cleanup).
  set (cb := HookListener b getter key mmkv).
  set (ws := resubscribed old mmkv cb w).
  assert (Hl : forall h hs, listeners h (with_hooks hs ws) = listeners h ws) by done.
  assert (Hone : forall h l cb',
            (l, cb') ∈ listeners h ws -> writes_to b cb' ->
            h = mmkv /\ l = nextListener w).
  { intros h l cb' Hin Hw.
    apply resubscribed_listeners in Hin as [[Hin Hne]|(-> & _ & -> & _)]; [|done].
    destruct cb' as [b' getter' key' mmkv'| |]; simpl in Hw; try done. subst b'.
    destruct Hne. apply (Ho h l b getter' key' mmkv' Hin). }
  split; [by destruct (hooks w !! b)|].
  split; [|split; [|split; [|split; [|split; [|split; [|split]]]]]].
  - split; [simpl; by rewrite lookup_insert_eq|]. rewrite Hl. split.
    + by apply resubscribed_registered.
    + intros l cb' Hreg Hw. apply registered_Some in Hreg.
      by destruct (Hone mmkv l cb' Hreg Hw).
  - intros h l cb'. rewrite Hl. apply Hone.
  - unfold state_of. simpl. rewrite lookup_insert_eq. simpl. f_equal.
    symmetry. apply typed_read_resubscribed.
  - simpl. by rewrite lookup_insert_eq.
  - simpl. by rewrite lookup_insert_eq.
  - intros h l Hold Hreg Hin. unfold ids in Hin. rewrite Hl in Hin.
    apply list_elem_of_fmap in Hin as ([l' c] & Heq & Hin). simpl in Heq. subst l'.
    apply resubscribed_listeners in Hin as [[Hin Hne]|(_ & _ & Hfresh & _)]; [done|].
    apply (wf_bounded w Hwf) in Hreg. lia.
  - intros h. apply contents_resubscribed.
  - intros b' Hne. simpl. by rewrite lookup_insert_ne.
Qed.
End Subscribes.

Section Rerender.
Context `{Host}.

Lemma createMMKVHook_mounted getter b key instance mmkv cell w :
  hooks w !! b = Some cell ->
  denotes instance mmkv w ->
  createMMKVHook getter b key instance w
  = (Returned (state cell, {| s_hook := b; s_key := key; s_mmkv := mmkv |}),
     with_hooks
       (alter (fun c => {| state := state c; valueRef := state cell;
                           deps := deps c; cleanup := cleanup c |}) b (hooks w)) w).
Proof.
  intros Hcell Hden. unfold createMMKVHook.
  unfold bind at 1. rewrite (resolve_denotes instance mmkv w Hden).
  unfold_m. by rewrite Hcell.
Qed.

(** X5.  The render and commit of a mounted typed binding with the key and
    store of its last commit returns the binding's state and assigns it to
    [valueRef.current]; it registers and cancels no listener, reads and
    writes no store, and touches no other binding. *)
Theorem render_hook_same_dependencies (getter : Getter) (b : HookId) (key : string)
  (instance : Nullable HandleId) (mmkv : HandleId) (cell : HookCell) (w : World) :
  hooks w !! b = Some cell ->
  deps cell = Some (key, mmkv) ->
  denotes instance mmkv w ->
  let w' := exec (render_hook getter b key instance) w in
  outcome (render_hook getter b key instance) w
  = Returned (state cell, {| s_hook := b; s_key := key; s_mmkv := mmkv |})
  /\ heap w' = heap w
  /\ nextListener w' = nextListener w
  /\ inflight w' = inflight w
  /\ trace w' = trace w
  /\ hooks w' !! b
     = Some {| state := state cell; valueRef := state cell;
               deps := deps cell; cleanup := cleanup cell |}
  /\ forall b', b' <> b -> hooks w' !! b' = hooks w !! b'.
Proof.
  intros Hcell Hdeps Hden w'.
  assert (Hrender : render_hook getter b key instance w
    = (Returned (state cell, {| s_hook := b; s_key := key; s_mmkv := mmkv |}),
       with_hooks
         (alter (fun c => {| state := state c; valueRef := state cell;
                             deps := deps c; cleanup := cleanup c |}) b (hooks w)) w)).
  { unfold render_hook. unfold bind at 1.
    rewrite (createMMKVHook_mounted getter b key instance mmkv cell w Hcell Hden).
    unfold createMMKVHook_effects. unfold_m. rewrite lookup_alter_eq, Hcell. simpl.
    rewrite Hdeps. by rewrite bool_decide_eq_true_2. }
  unfold w', outcome, exec. rewrite Hrender. simpl.
  repeat split.
  - by rewrite lookup_alter_eq, Hcell.
  - intros b' Hne. by rewrite lookup_alter_ne.
Qed.
End Rerender.

(** ** Write, deliver, render *)

Section RoundTrip.
Context `{Host}.

Lemma typed_read_typed_as getter h key w :
  typed_read getter h key w = contents h w !! key ≫= typed_as getter.
Proof.
  unfold typed_read. destruct (contents h w !! key) as [[]|]; by destruct getter.
Qed.

Lemma createMMKVHook_effects_returns getter b key mmkv w :
  outcome (createMMKVHook_effects getter b key mmkv) w = Returned tt.
Proof.
  unfold createMMKVHook_effects, setValue, MMKV.remove, MMKV.addOnValueChangedListener.
  unfold_m. destruct (hooks w !! b) as [cell|]; [|done].
  case_bool_decide; [done|].
  destruct (cleanup cell) as [[]|]; simpl; by rewrite run_getter_read.
Qed.

Lemma render_hook_outcome getter b key instance w :
  outcome (render_hook getter b key instance) w
  = outcome (createMMKVHook getter b key instance) w.
Proof.
  unfold render_hook. rewrite outcome_bind.
  destruct (outcome (createMMKVHook getter b key instance) w) as [r|e]; [|done].
  rewrite outcome_bind. by rewrite createMMKVHook_effects_returns.
Qed.

(** X6.  In any world the program can reach, when a typed binding is
    rendered on a live store and key it was not committed with, a boolean,
    number, string or [undefined] is passed to the returned setter and the
    notifications in flight are delivered, the next render returns the value
    written if it has the type of the binding's accessor and [undefined]
    otherwise (also after [undefined], which deletes the key); the store
    holds the value written. *)
Theorem typed_binding_roundtrip (actions : list Action) (getter : Getter) (b : HookId)
  (key : string) (instance : Nullable HandleId) (mmkv : HandleId) (v : JsValue) :
  let w := run actions initial in
  let set := {| s_hook := b; s_key := key; s_mmkv := mmkv |} in
  denotes instance mmkv w ->
  mmkv < length (heap w) ->
  hooks w !! b ≫= deps <> Some (key, mmkv) ->
  is_primitive (typeof v) = true \/ typeof v = TUndefined ->
  let w1 := exec (render_hook getter b key instance) w in
  let w2 := exec ChangeNotifier.flush (exec (createMMKVHook_set set v) w1) in
  outcome (render_hook getter b key instance) w2
  = Returned (as_stored v ≫= typed_as getter, set)
  /\ contents mmkv w2 !! key = as_stored v.
Proof.
  intros w set Hden Hlive Hdeps Htype w1 w2.
  assert (Hwf : wf w) by apply wf_run.
  assert (Ho : owned w) by apply owned_run.
  pose proof (render_hook_changed getter b key instance mmkv w Hden Hdeps) as Hrun.
  cbv zeta in Hrun.
  assert (Hsub : subscribed b getter key mmkv (nextListener w) w1).
  { unfold w1, exec. rewrite Hrun. cbn [fst snd].
    split; [simpl; by rewrite lookup_insert_eq|].
    change (listeners mmkv (with_hooks _ ?x)) with (listeners mmkv x). split.
    - by apply resubscribed_registered.
    - intros l cb' Hreg Hw. apply registered_Some in Hreg.
      apply resubscribed_listeners in Hreg as [[Hin Hne]|(_ & _ & -> & _)]; [|done].
      destruct cb' as [b' getter' key' mmkv'| |]; simpl in Hw; try done. subst b'.
      destruct Hne. apply (Ho mmkv l b getter' key' mmkv' Hin). }
  assert (Hd1 : defaultInstance w1 = defaultInstance w).
  { unfold w1, exec. rewrite Hrun. cbn [fst snd].
    unfold resubscribed, MMKV.addOnValueChangedListener, MMKV.remove, exec.
    destruct (hooks w !! b) as [c|]; simpl; [destruct (cleanup c) as [[]|]|]; done. }
  assert (Hnew : match v with
                 | VFunction f => f (hooks w1 !! s_hook set ≫= valueRef)
                 | _ => v
                 end = v).
  { destruct v as [|[]| | | |]; try done. destruct Htype; discriminate. }
  pose proof (setter_reaches_binding b getter (nextListener w) set v w1) as Hreach.
  cbv zeta in Hreach. rewrite Hnew in Hreach.
  destruct (Hreach Hsub Htype) as (Hstate & Hcont & _ & Hd2 & _ & [cell Hcell]).
  fold w2 in Hstate, Hcont, Hd2, Hcell. simpl in Hstate, Hcont.
  split; [|exact Hcont].
  rewrite render_hook_outcome.
  assert (Hden2 : denotes instance mmkv w2).
  { apply (denotes_default instance mmkv w); [|done]. by rewrite Hd2, Hd1. }
  unfold outcome. rewrite (createMMKVHook_mounted getter b key instance mmkv cell w2 Hcell Hden2).
  simpl. do 2 f_equal.
  unfold state_of in Hstate. rewrite Hcell in Hstate. injection Hstate as ->.
  by rewrite typed_read_typed_as, Hcont.
Qed.
End RoundTrip.

(** ** Unmounting a typed binding *)

#[global] Instance stays_silent_preorder b : PreOrder (stays_silent b).
Proof.
  split; [by intros w Hw|].
  intros x y z Hxy Hyz Hx. destruct (Hxy Hx) as [Hy Hs]. destruct (Hyz Hy) as [Hz Hs'].
  split; [done|]. by rewrite Hs'.
Qed.

Section Silent.
Context `{Host}.

Lemma silent_weaken b w w' :
  (forall h l cb, (l, cb) ∈ listeners h w' -> (l, cb) ∈ listeners h w) ->
  state_of b w' = state_of b w ->
  stays_silent b w w'.
Proof.
  intros Hsub Hstate Hs. split; [|done]. intros h l cb Hin. by apply (Hs h l), Hsub.
Qed.

Lemma silent_same b w w' : heap w' = heap w -> hooks w' = hooks w -> stays_silent b w w'.
Proof.
  intros Hh Hk. apply silent_weaken.
  - intros h l cb. unfold listeners. by rewrite Hh.
  - unfold state_of. by rewrite Hk.
Qed.

Lemma silent_alter_other b b' f w :
  b' <> b -> stays_silent b w (with_hooks (alter f b' (hooks w)) w).
Proof.
  intros Hne. apply silent_weaken; [done|]. unfold state_of. simpl.
  by rewrite lookup_alter_ne.
Qed.

Lemma silent_insert_other b b' c w :
  b' <> b -> stays_silent b w (with_hooks (<[b' := c]> (hooks w)) w).
Proof.
  intros Hne. apply silent_weaken; [done|]. unfold state_of. simpl.
  by rewrite lookup_insert_ne.
Qed.

Lemma silent_alter_state b b' f w :
  (forall c, state (f c) = state c) ->
  stays_silent b w (with_hooks (alter f b' (hooks w)) w).
Proof.
  intros Hf. apply silent_weaken; [done|]. unfold state_of. simpl.
  destruct (decide (b' = b)) as [->|Hne]; [|by rewrite lookup_alter_ne].
  rewrite lookup_alter_eq. destruct (hooks w !! b); simpl; [by rewrite Hf|done].
Qed.

Lemma silent_with_data b f h w :
  stays_silent b w (with_heap (alter (with_data f) h (heap w)) w).
Proof.
  apply silent_weaken; [|done]. intros h0 l cb.
  rewrite listeners_unfold. simpl. by rewrite listeners_alter_data.
Qed.

Lemma new_stays_silent b configuration :
  preserves (stays_silent b) (MMKV.new configuration).
Proof.
  intros w. apply silent_weaken; [|done]. intros h l cb.
  unfold MMKV.new, exec. rewrite listeners_unfold. simpl. rewrite listeners_new.
  case_decide; [by intros ?%elem_of_nil|done].
Qed.

Lemma remove_stays_silent b listener : preserves (stays_silent b) (MMKV.remove listener).
Proof.
  intros w. apply silent_weaken; [|done]. intros h l cb. destruct listener as [h0 l0].
  rewrite remove_listeners. by intros [? _].
Qed.

Lemma add_stays_silent b h cb :
  ~ writes_to b cb -> preserves (stays_silent b) (MMKV.addOnValueChangedListener h cb).
Proof.
  intros Hcb w Hs. split; [|done]. intros h0 l cb' Hin.
  apply add_listeners in Hin as [Hin|(_ & _ & _ & ->)]; [by apply (Hs h0 l)|done].
Qed.

Ltac stays_silent_step :=
  first
    [ preserves_step
    | lazymatch goal with
      | |- preserves _ (MMKV.new _) => apply new_stays_silent
      | |- preserves _ (MMKV.remove _) => apply remove_stays_silent
      | |- preserves _ (MMKV.addOnValueChangedListener _ _) =>
          apply add_stays_silent; first [ simpl; congruence | by intros [] ]
      | |- stays_silent _ _ (with_heap (alter (with_data _) _ _) _) =>
          apply silent_with_data
      | |- stays_silent _ _ (with_hooks (alter _ _ _) _) =>
          first [ apply silent_alter_state; done | apply silent_alter_other; congruence ]
      | |- stays_silent _ _ (with_hooks (<[_ := _]> _) _) =>
          apply silent_insert_other; congruence
      | |- stays_silent _ _ _ => by apply silent_same
      end ].

Ltac stays_silent_tac := repeat stays_silent_step.

Lemma call_stays_silent b cb key :
  ~ writes_to b cb -> preserves (stays_silent b) (call cb key).
Proof. destruct cb; simpl; intros Hw; unfold_hooks; stays_silent_tac. Qed.

Lemma dispatch_stays_silent b h key l :
  preserves (stays_silent b) (ChangeNotifier.dispatch h key l).
Proof.
  intros w Hs. unfold ChangeNotifier.dispatch.
  change (exec (let! registry := gets (listeners h) in _) w)
    with (exec (match registered l (listeners h w) with
                | Some cb => modify (log (Invoked l key));; call cb key
                | None => ret tt
                end) w).
  destruct (registered l (listeners h w)) as [cb|] eqn:Hreg; [|by apply silent_same].
  apply registered_Some in Hreg.
  assert (Hstep : preserves (stays_silent b) (modify (log (Invoked l key));; call cb key)).
  { stays_silent_tac. apply call_stays_silent. by apply (Hs h l). }
  by apply Hstep.
Qed.

Lemma dispatch_all_stays_silent b h key targets :
  preserves (stays_silent b) (ChangeNotifier.dispatch_all h key targets).
Proof.
  induction targets as [|l targets IH]; simpl; [stays_silent_tac|].
  apply preserves_bind; [apply _|apply dispatch_stays_silent|intros; apply IH].
Qed.

Lemma perform_stays_silent b a :
  ~ renders b a -> preserves (stays_silent b) (perform a).
Proof.
  destruct a; simpl; intros Hr; unfold_hooks; unfold getDefaultInstance.
  all: repeat first
    [ stays_silent_step
    | lazymatch goal with
      | |- preserves _ (ChangeNotifier.dispatch_all _ _ _) =>
          apply dispatch_all_stays_silent
      end ].
Qed.

Lemma run_stays_silent b actions w :
  Forall (fun a => ~ renders b a) actions -> stays_silent b w (run actions w).
Proof.
  intros Hall. revert w.
  induction Hall as [|a actions Ha Hall IH]; intros w; simpl; [reflexivity|].
  etransitivity; [by apply perform_stays_silent|]. apply IH.
Qed.

(** Unmounting runs the cleanup, if there is one. *)
Lemma unmount_hook_exec b w :
  exec (unmount_hook b) w
  = match hooks w !! b ≫= cleanup with
    | Some listener =>
        with_hooks
          (alter (fun c => {| state := state c; valueRef := valueRef c;
                              deps := None; cleanup := None |}) b (hooks w))
          (exec (MMKV.remove listener) w)
    | None => w
    end.
Proof.
  unfold unmount_hook, MMKV.remove. unfold_m.
  destruct (hooks w !! b) as [c|]; simpl; [destruct (cleanup c) as [[h l]|]|]; done.
Qed.

(** X7.  In any world the program can reach, once a typed binding is
    unmounted no registered listener on any store writes its state, and this
    stays so, with the state as it was, whatever is written, delivered,
    registered or rendered afterwards, until the binding itself is rendered
    again. *)
Theorem unmount_hook_silences (before after : list Action) (b : HookId) :
  let w := run before initial in
  let w' := run after (exec (unmount_hook b) w) in
  Forall (fun a => ~ renders b a) after ->
  silent b w' /\ state_of b w' = state_of b w.
Proof.
  intros w w' Hall.
  assert (Ho : owned w) by apply owned_run.
  clearbody w.
  assert (Hs : silent b (exec (unmount_hook b) w)
               /\ state_of b (exec (unmount_hook b) w) = state_of b w).
  { rewrite unmount_hook_exec.
    destruct (@mbind option _ HookCell Listener cleanup (hooks w !! b))
      as [[h0 l0]|] eqn:Hclean.
    - split.
      + intros h l cb Hin Hw.
        change (listeners h (with_hooks _ ?x)) with (listeners h x) in Hin.
        apply remove_listeners in Hin as [Hin Hne].
        destruct cb as [b' getter key mmkv| |]; simpl in Hw; try done. subst b'.
        specialize (Ho h l b getter key mmkv Hin).
        pose proof (eq_trans (eq_sym Hclean) Ho) as [= -> ->]. by destruct Hne.
      + unfold state_of. simpl. rewrite lookup_alter_eq. by destruct (hooks w !! b).
    - split; [|done]. intros h l cb Hin Hw.
      destruct cb as [b' getter key mmkv| |]; simpl in Hw; try done. subst b'.
      specialize (Ho h l b getter key mmkv Hin).
      by pose proof (eq_trans (eq_sym Hclean) Ho). }
  destruct Hs as [Hs Hstate].
  destruct (run_stays_silent b after _ Hall Hs) as [Hs' Hstate'].
  split; [done|]. unfold w'. by rewrite Hstate'.
Qed.
End Silent.

(** ** The listener of a listener binding *)

#[global] Instance keeps_owned_ref_preorder : PreOrder keeps_owned_ref.
Proof. split; [by intros w Hw|]. intros x y z Hxy Hyz Hx. by apply Hyz, Hxy. Qed.

#[global] Instance stays_mute_preorder c : PreOrder (stays_mute c).
Proof. split; [by intros w Hw|]. intros x y z Hxy Hyz Hx. by apply Hyz, Hxy. Qed.

Section ListenerBinding.
Context `{Host}.

Lemma owned_ref_weaken w w' :
  (forall h l cb, (l, cb) ∈ listeners h w' -> (l, cb) ∈ listeners h w) ->
  (forall c, listenerCells w' !! c ≫= l_cleanup = listenerCells w !! c ≫= l_cleanup) ->
  keeps_owned_ref w w'.
Proof.
  intros Hsub Hclean Ho h l c Hin. rewrite Hclean. by apply (Ho h l c), Hsub.
Qed.

Lemma owned_ref_same w w' :
  heap w' = heap w -> listenerCells w' = listenerCells w -> keeps_owned_ref w w'.
Proof.
  intros Hh Hk. apply owned_ref_weaken.
  - intros h l cb. unfold listeners. by rewrite Hh.
  - intros c. by rewrite Hk.
Qed.

Lemma owned_ref_with_data f h w :
  keeps_owned_ref w (with_heap (alter (with_data f) h (heap w)) w).
Proof.
  apply owned_ref_weaken; [|done]. intros h0 l cb.
  rewrite listeners_unfold. simpl. by rewrite listeners_alter_data.
Qed.

Lemma new_keeps_owned_ref configuration :
  preserves keeps_owned_ref (MMKV.new configuration).
Proof.
  intros w. apply owned_ref_weaken; [|done]. intros h l cb.
  unfold MMKV.new, exec. rewrite listeners_unfold. simpl. rewrite listeners_new.
  case_decide; [by intros ?%elem_of_nil|done].
Qed.

Lemma remove_keeps_owned_ref listener : preserves keeps_owned_ref (MMKV.remove listener).
Proof.
  intros w. apply owned_ref_weaken; [|done]. intros h l cb. destruct listener as [h0 l0].
  rewrite remove_listeners. by intros [? _].
Qed.

Lemma add_keeps_owned_ref h cb :
  (forall c, cb <> RefListener c) ->
  preserves keeps_owned_ref (MMKV.addOnValueChangedListener h cb).
Proof.
  intros Hcb w Ho h0 l c Hin.
  apply add_listeners in Hin as [Hin|(_ & _ & _ & <-)]; [by apply (Ho h0 l c)|].
  by destruct (Hcb c).
Qed.

Lemma useMMKVListener_render_keeps_owned_ref c fn w :
  let cell := default {| ref := fn; l_deps := None; l_cleanup := None |}
                (listenerCells w !! c) in
  keeps_owned_ref w
    (with_listenerCells
       (<[c := {| ref := fn; l_deps := l_deps cell; l_cleanup := l_cleanup cell |}]>
          (listenerCells w)) w).
Proof.
  intros cell. apply owned_ref_weaken; [done|]. intros c'. simpl.
  destruct (decide (c = c')) as [<-|Hne]; [|by rewrite lookup_insert_ne].
  rewrite lookup_insert_eq. unfold cell. by destruct (listenerCells w !! c).
Qed.

Lemma useMMKVListener_effect_keeps_owned_ref c mmkv :
  preserves keeps_owned_ref (useMMKVListener_effect c mmkv).
Proof.
  intros w Ho.
  destruct (listenerCells w !! c) as [cell|] eqn:Hcell.
  - destruct (decide (l_deps cell = Some mmkv)) as [Hdeps|Hdeps].
    + unfold useMMKVListener_effect. unfold_m. rewrite Hcell.
      by rewrite bool_decide_eq_true_2.
    + rewrite (useMMKVListener_effect_changed c mmkv cell w Hcell Hdeps).
      intros h l c' Hin.
      change (listeners h (with_listenerCells _ ?x)) with (listeners h x) in Hin.
      apply resubscribed_listeners in Hin as [[Hin Hne]|(-> & _ & -> & [= <-])].
      * specialize (Ho h l c' Hin). simpl.
        destruct (decide (c = c')) as [<-|Hc]; [|by rewrite lookup_alter_ne].
        rewrite Hcell in Ho. simpl in Ho. destruct Hne. congruence.
      * simpl. by rewrite lookup_alter_eq, Hcell.
  - unfold useMMKVListener_effect. unfold_m. by rewrite Hcell.
Qed.

Lemma unmount_listener_exec c w :
  exec (unmount_listener c) w
  = match listenerCells w !! c ≫= l_cleanup with
    | Some listener =>
        with_listenerCells
          (alter (fun cl => {| ref := ref cl; l_deps := None; l_cleanup := None |})
             c (listenerCells w))
          (exec (MMKV.remove listener) w)
    | None => w
    end.
Proof.
  unfold unmount_listener, MMKV.remove. unfold_m.
  destruct (listenerCells w !! c) as [cl|]; simpl; [destruct (l_cleanup cl) as [[h l]|]|];
    done.
Qed.

Lemma unmount_listener_keeps_owned_ref c : preserves keeps_owned_ref (unmount_listener c).
Proof.
  intros w Ho. rewrite unmount_listener_exec.
  destruct (@mbind option _ ListenerCell Listener l_cleanup (listenerCells w !! c))
    as [[h0 l0]|] eqn:Hclean; [|done].
  intros h l c' Hin.
  change (listeners h (with_listenerCells _ ?x)) with (listeners h x) in Hin.
  apply remove_listeners in Hin as [Hin Hne].
  specialize (Ho h l c' Hin). simpl.
  destruct (decide (c = c')) as [<-|Hc]; [|by rewrite lookup_alter_ne].
  pose proof (eq_trans (eq_sym Hclean) Ho) as [= -> ->]. by destruct Hne.
Qed.

Ltac keeps_owned_ref_step :=
  first
    [ preserves_step
    | lazymatch goal with
      | |- preserves _ (useMMKVListener_effect _ _) =>
          apply useMMKVListener_effect_keeps_owned_ref
      | |- preserves _ (unmount_listener _) => apply unmount_listener_keeps_owned_ref
      | |- preserves _ (MMKV.new _) => apply new_keeps_owned_ref
      | |- preserves _ (MMKV.remove _) => apply remove_keeps_owned_ref
      | |- preserves _ (MMKV.addOnValueChangedListener _ _) =>
          apply add_keeps_owned_ref; by intros ?
      | |- keeps_owned_ref _ (with_heap (alter (with_data _) _ _) _) =>
          apply owned_ref_with_data
      | |- keeps_owned_ref _ _ =>
          first [ by apply owned_ref_same | apply useMMKVListener_render_keeps_owned_ref ]
      end ].

Ltac keeps_owned_ref_tac := repeat keeps_owned_ref_step.

Lemma call_keeps_owned_ref cb key : preserves keeps_owned_ref (call cb key).
Proof. destruct cb; simpl; unfold_hooks; keeps_owned_ref_tac. Qed.

Lemma dispatch_all_keeps_owned_ref h key targets :
  preserves keeps_owned_ref (ChangeNotifier.dispatch_all h key targets).
Proof.
  induction targets as [|l targets IH]; simpl; [keeps_owned_ref_tac|].
  unfold ChangeNotifier.dispatch.
  repeat first [ apply call_keeps_owned_ref | apply IH | keeps_owned_ref_step ].
Qed.

Lemma perform_keeps_owned_ref a : preserves keeps_owned_ref (perform a).
Proof.
  destruct a; simpl.
  all: unfold render_hook, render_object, render_listener, unmount_hook,
    useMMKV, useMMKVObject, useMMKVString, createMMKVHook, createMMKVHook_effects,
    useMMKVListener, useMemo, useMMKVObject_value,
    useMMKVObject_setValue, createMMKVHook_set, setValue,
    resolve, getDefaultInstance, run_getter,
    MMKV.set, MMKV.delete, MMKV.notify, MMKV.getString, MMKV.getNumber,
    MMKV.getBoolean, ChangeNotifier.deliver.
  all: repeat first
    [ keeps_owned_ref_step
    | lazymatch goal with
      | |- preserves _ (ChangeNotifier.dispatch_all _ _ _) =>
          apply dispatch_all_keeps_owned_ref
      end ].
Qed.

Lemma owned_ref_run actions : owned_ref (run actions initial).
Proof.
  apply (preserves_run keeps_owned_ref perform_keeps_owned_ref actions initial).
  intros h l c Hin. by apply elem_of_nil in Hin.
Qed.

Lemma mute_weaken c w w' :
  (forall h l cb, (l, cb) ∈ listeners h w' -> (l, cb) ∈ listeners h w) ->
  stays_mute c w w'.
Proof. intros Hsub Hm h l Hin. by apply (Hm h l), Hsub. Qed.

Lemma mute_same c w w' : heap w' = heap w -> stays_mute c w w'.
Proof. intros Hh. apply mute_weaken. intros h l cb. unfold listeners. by rewrite Hh. Qed.

Lemma mute_with_data c f h w :
  stays_mute c w (with_heap (alter (with_data f) h (heap w)) w).
Proof.
  apply mute_weaken. intros h0 l cb.
  rewrite listeners_unfold. simpl. by rewrite listeners_alter_data.
Qed.

Lemma new_stays_mute c configuration : preserves (stays_mute c) (MMKV.new configuration).
Proof.
  intros w. apply mute_weaken. intros h l cb.
  unfold MMKV.new, exec. rewrite listeners_unfold. simpl. rewrite listeners_new.
  case_decide; [by intros ?%elem_of_nil|done].
Qed.

Lemma remove_stays_mute c listener : preserves (stays_mute c) (MMKV.remove listener).
Proof.
  intros w. apply mute_weaken. intros h l cb. destruct listener as [h0 l0].
  rewrite remove_listeners. by intros [? _].
Qed.

Lemma add_stays_mute c h cb :
  cb <> RefListener c -> preserves (stays_mute c) (MMKV.addOnValueChangedListener h cb).
Proof.
  intros Hcb w Hm h0 l Hin.
  apply add_listeners in Hin as [Hin|(_ & _ & _ & Heq)]; [by apply (Hm h0 l)|done].
Qed.

Ltac stays_mute_step :=
  first
    [ preserves_step
    | lazymatch goal with
      | |- preserves _ (MMKV.new _) => apply new_stays_mute
      | |- preserves _ (MMKV.remove _) => apply remove_stays_mute
      | |- preserves _ (MMKV.addOnValueChangedListener _ _) =>
          apply add_stays_mute; congruence
      | |- stays_mute _ _ (with_heap (alter (with_data _) _ _) _) => apply mute_with_data
      | |- stays_mute _ _ _ => by apply mute_same
      end ].

Ltac stays_mute_tac := repeat stays_mute_step.

Lemma call_stays_mute c cb key : preserves (stays_mute c) (call cb key).
Proof. destruct cb; simpl; unfold_hooks; stays_mute_tac. Qed.

Lemma dispatch_all_stays_mute c h key targets :
  preserves (stays_mute c) (ChangeNotifier.dispatch_all h key targets).
Proof.
  induction targets as [|l targets IH]; simpl; [stays_mute_tac|].
  unfold ChangeNotifier.dispatch.
  repeat first [ apply call_stays_mute | apply IH | stays_mute_step ].
Qed.

Lemma perform_stays_mute c a :
  ~ renders_listener c a -> preserves (stays_mute c) (perform a).
Proof.
  destruct a; simpl; intros Hr; unfold_hooks; unfold getDefaultInstance.
  all: repeat first
    [ stays_mute_step
    | lazymatch goal with
      | |- preserves _ (ChangeNotifier.dispatch_all _ _ _) => apply dispatch_all_stays_mute
      end ].
Qed.

Lemma run_stays_mute c actions w :
  Forall (fun a => ~ renders_listener c a) actions -> stays_mute c w (run actions w).
Proof.
  intros Hall. revert w.
  induction Hall as [|a actions Ha Hall IH]; intros w; simpl; [reflexivity|].
  etransitivity; [by apply perform_stays_mute|]. apply IH.
Qed.

(** X8.  In any world the program can reach, once a listener binding is
    unmounted no registered listener on any store calls its callback, and
    this stays so whatever happens afterwards, until the binding itself is
    rendered again. *)
Theorem unmount_listener_silences (before after : list Action) (c : HookId) :
  let w := run before initial in
  let w' := run after (exec (unmount_listener c) w) in
  Forall (fun a => ~ renders_listener c a) after ->
  mute c w'.
Proof.
  intros w w' Hall.
  assert (Ho : owned_ref w) by apply owned_ref_run.
  clearbody w. apply (run_stays_mute c after _ Hall).
  rewrite unmount_listener_exec.
  destruct (@mbind option _ ListenerCell Listener l_cleanup (listenerCells w !! c))
    as [[h0 l0]|] eqn:Hclean.
  - intros h l Hin.
    change (listeners h (with_listenerCells _ ?x)) with (listeners h x) in Hin.
    apply remove_listeners in Hin as [Hin Hne].
    specialize (Ho h l c Hin).
    pose proof (eq_trans (eq_sym Hclean) Ho) as [= -> ->]. by destruct Hne.
  - intros h l Hin. specialize (Ho h l c Hin).
    by pose proof (eq_trans (eq_sym Hclean) Ho).
Qed.
End ListenerBinding.

(** X9.  In any world the program can reach, the render and commit of a
    listener binding on a live store it was not committed with (or of a new
    binding) registers one listener on that store, which calls the callback
    of this render; it is the only registered listener on any store that
    calls the binding's callback, the listener of the previous commit is
    cancelled, and every other listener stays registered. *)
Theorem render_listener_rebinds `{Host} (actions : list Action) (c : HookId) (fn : UserFn)
  (instance : Nullable HandleId) (mmkv : HandleId) :
  let w := run actions initial in
  denotes instance mmkv w ->
  mmkv < length (heap w) ->
  listenerCells w !! c ≫= l_deps <> Some mmkv ->
  let w' := exec (render_listener c fn instance) w in
  let fresh := nextListener w in
  listenerCells w' !! c
  = Some {| ref := fn; l_deps := Some mmkv; l_cleanup := Some (mmkv, fresh) |}
  /\ registered fresh (listeners mmkv w') = Some (RefListener c)
  /\ (forall h l, (l, RefListener c) ∈ listeners h w' -> h = mmkv /\ l = fresh)
  /\ (forall key,
        trace (exec (ChangeNotifier.dispatch mmkv key fresh) w')
        = trace w' ++ [Invoked fresh key; UserCalled fn key])
  /\ (forall old l,
        listenerCells w !! c ≫= l_cleanup = Some (old, l) ->
        l ∈ ids old w -> l ∉ ids old w')
  /\ (forall h l cb,
        (l, cb) ∈ listeners h w ->
        listenerCells w !! c ≫= l_cleanup <> Some (h, l) ->
        (l, cb) ∈ listeners h w').
Proof.
  intros w Hden Hlive Hdeps w' fresh.
  assert (Hwf : wf w) by apply wf_run.
  assert (Ho : owned_ref w) by apply owned_ref_run.
  assert (Hw' : w' = with_listenerCells
      (<[c := {| ref := fn; l_deps := Some mmkv; l_cleanup := Some (mmkv, fresh) |}]>
         (listenerCells w))
      (resubscribed (listenerCells w !! c ≫= l_cleanup) mmkv (RefListener c) w))
    by (by apply render_listener_changed).
  assert (Hlist : forall h, listeners h w'
            = listeners h (resubscribed (listenerCells w !! c ≫= l_cleanup) mmkv
                             (RefListener c) w)) by (by rewrite Hw').
  assert (Hreg : registered fresh (listeners mmkv w') = Some (RefListener c)).
  { rewrite Hlist. by apply resubscribed_registered. }
  split; [rewrite Hw'; apply lookup_insert_eq|]. split; [exact Hreg|].
  split; [|split; [|split]].
  - intros h l Hin. rewrite Hlist in Hin.
    apply resubscribed_listeners in Hin as [[Hin Hne]|(-> & _ & -> & _)]; [|done].
    destruct Hne. apply (Ho h l c Hin).
  - intros key. unfold ChangeNotifier.dispatch, useMMKVListener_listener. unfold_m.
    rewrite Hreg. simpl. unfold useMMKVListener_listener. unfold_m.
    rewrite Hw'. simpl. rewrite lookup_insert_eq. simpl. by rewrite <- app_assoc.
  - intros old l Hold Hin Hin'. unfold ids in Hin'.
    apply list_elem_of_fmap in Hin' as ([l' cb] & Heq & Hin'). simpl in Heq. subst l'.
    rewrite Hlist in Hin'. apply resubscribed_listeners in Hin' as [[_ Hne]|Hnew].
    + by rewrite Hold in Hne.
    + destruct Hnew as (_ & _ & -> & _).
      pose proof (wf_bounded w Hwf old _ Hin). unfold fresh in *. lia.
  - intros h l cb Hin Hne. rewrite Hlist. apply resubscribed_listeners. by left.
Qed.

(** ** The bindings on concrete stores *)

Section RenderExamples.
#[local] Existing Instance ExampleHost.host.

(** Binding 0, committed on key [user.name], is rendered on key
    [user.email]: listener 0 is cancelled and listener 1 is the binding's. *)
Lemma render_hook_subscribes_witness :
  let w := run name_mounted initial in
  let w' := exec (render_hook GetString 0 "user.email" JsUndefined) w in
  denotes JsUndefined 0 w
  /\ 0 < length (heap w)
  /\ hooks w !! 0 ≫= deps <> Some ("user.email", 0)
  /\ subscribed 0 GetString "user.email" 0 (nextListener w) w'
  /\ 0 ∉ ids 0 w'.
Proof.
  intros w w'.
  assert (Hden : denotes JsUndefined 0 w) by (vm_compute; reflexivity).
  assert (Hlive : 0 < length (heap w)) by (vm_compute; lia).
  assert (Hdeps : hooks w !! 0 ≫= deps <> Some ("user.email", 0))
    by (vm_compute; discriminate).
  destruct (render_hook_subscribes name_mounted GetString 0 "user.email" JsUndefined 0
              Hden Hlive Hdeps) as (_ & Hsub & _ & _ & _ & _ & Hold & _).
  split; [exact Hden|]. split; [exact Hlive|]. split; [exact Hdeps|].
  split; [exact Hsub|].
  apply Hold; [vm_compute; reflexivity|vm_compute; left].
Defined.

(** Binding 0 is rendered again on key [user.name]. *)
Lemma render_hook_same_dependencies_witness :
  let cell := {| state := None; valueRef := None; deps := Some ("user.name", 0);
                 cleanup := Some (0, 0) |} in
  hooks mounted_name !! 0 = Some cell
  /\ denotes JsUndefined 0 mounted_name
  /\ outcome (render_hook GetString 0 "user.name" JsUndefined) mounted_name
     = Returned (None, name_setter)
  /\ heap (exec (render_hook GetString 0 "user.name" JsUndefined) mounted_name)
     = heap mounted_name.
Proof.
  intros cell.
  assert (Hcell : hooks mounted_name !! 0 = Some cell) by (vm_compute; reflexivity).
  assert (Hden : denotes JsUndefined 0 mounted_name) by (vm_compute; reflexivity).
  destruct (render_hook_same_dependencies GetString 0 "user.name" JsUndefined 0 cell
              mounted_name Hcell eq_refl Hden) as (Hout & Hheap & _).
  split; [exact Hcell|]. split; [exact Hden|]. split; [exact Hout|exact Hheap].
Defined.

(** A number binding returns the number written through its setter, and
    [undefined] after a string is. *)
Lemma typed_binding_roundtrip_witness :
  let w := run [GetDefaultInstance] initial in
  let set := {| s_hook := 4; s_key := "count"; s_mmkv := 0 |} in
  let w1 := exec (render_hook GetNumber 4 "count" JsUndefined) w in
  denotes JsUndefined 0 w
  /\ 0 < length (heap w)
  /\ hooks w !! 4 ≫= deps <> Some ("count", 0)
  /\ outcome (render_hook GetNumber 4 "count" JsUndefined)
       (exec ChangeNotifier.flush (exec (createMMKVHook_set set (VJson (JNumber 3%float))) w1))
     = Returned (Some (SNumber 3%float), set)
  /\ outcome (render_hook GetNumber 4 "count" JsUndefined)
       (exec ChangeNotifier.flush (exec (createMMKVHook_set set (VJson (JString "three"))) w1))
     = Returned (None, set).
Proof.
  intros w set w1.
  assert (Hden : denotes JsUndefined 0 w) by (vm_compute; reflexivity).
  assert (Hlive : 0 < length (heap w)) by (vm_compute; lia).
  assert (Hdeps : hooks w !! 4 ≫= deps <> Some ("count", 0)) by (vm_compute; discriminate).
  destruct (typed_binding_roundtrip [GetDefaultInstance] GetNumber 4 "count" JsUndefined 0
              (VJson (JNumber 3%float)) Hden Hlive Hdeps (or_introl eq_refl))
    as [Hnumber _].
  destruct (typed_binding_roundtrip [GetDefaultInstance] GetNumber 4 "count" JsUndefined 0
              (VJson (JString "three")) Hden Hlive Hdeps (or_introl eq_refl))
    as [Hstring _].
  split; [exact Hden|]. split; [exact Hlive|]. split; [exact Hdeps|].
  split; [exact Hnumber|exact Hstring].
Defined.

(** Binding 0 is unmounted; another party then writes its key.  The store
    holds the new name and the binding's state is what it was. *)
Lemma unmount_hook_silences_witness :
  let w := run name_mounted initial in
  let w' := run name_written (exec (unmount_hook 0) w) in
  Forall (fun a => ~ renders 0 a) name_written
  /\ silent 0 w'
  /\ state_of 0 w' = state_of 0 w
  /\ typed_read GetString 0 "user.name" w' = Some (SString "Ann").
Proof.
  intros w w'.
  assert (Hall : Forall (fun a => ~ renders 0 a) name_written)
    by (repeat constructor; intros []).
  destruct (unmount_hook_silences name_mounted name_written 0 Hall) as [Hsilent Hstate].
  split; [exact Hall|]. split; [exact Hsilent|]. split; [exact Hstate|].
  vm_compute. reflexivity.
Defined.

(** Listener binding 3 is unmounted; a later write reaches no listener of
    it. *)
Lemma unmount_listener_silences_witness :
  let w := run [RenderListener 3 "first" JsUndefined] initial in
  let w' := run name_written (exec (unmount_listener 3) w) in
  Forall (fun a => ~ renders_listener 3 a) name_written
  /\ registered 0 (listeners 0 w) = Some (RefListener 3)
  /\ mute 3 w'.
Proof.
  intros w w'.
  assert (Hall : Forall (fun a => ~ renders_listener 3 a) name_written)
    by (repeat constructor; intros []).
  split; [exact Hall|]. split; [vm_compute; reflexivity|].
  exact (unmount_listener_silences [RenderListener 3 "first" JsUndefined] name_written 3
           Hall).
Defined.

(** Listener binding 3, committed on the default store, is rendered on the
    store of [user_storage]. *)
Lemma render_listener_rebinds_witness :
  let w := run listening_two_stores initial in
  let w' := exec (render_listener 3 "second" (Present 1)) w in
  denotes (Present 1) 1 w
  /\ 1 < length (heap w)
  /\ listenerCells w !! 3 ≫= l_deps <> Some 1
  /\ registered (nextListener w) (listeners 1 w') = Some (RefListener 3)
  /\ 0 ∉ ids 0 w'.
Proof.
  intros w w'.
  assert (Hden : denotes (Present 1) 1 w) by reflexivity.
  assert (Hlive : 1 < length (heap w)) by (vm_compute; lia).
  assert (Hdeps : listenerCells w !! 3 ≫= l_deps <> Some 1) by (vm_compute; discriminate).
  destruct (render_listener_rebinds listening_two_stores 3 "second" (Present 1) 1
              Hden Hlive Hdeps) as (_ & Hreg & _ & _ & Hold & _).
  split; [exact Hden|]. split; [exact Hlive|]. split; [exact Hdeps|].
  split; [exact Hreg|].
  apply (Hold 0 0); [vm_compute; reflexivity|vm_compute; left].
Defined.

(** The setter of the object binding stores the JSON text of an object. *)
Example object_setter_stores_text :
  trace (exec (useMMKVObject_setValue user_setter (VJson ExampleHost.user)) object_binding)
  = trace object_binding
    ++ [CalledSet 0 "user" (VJson (JString ExampleHost.user_text))].
Proof. vm_compute. reflexivity. Qed.
End RenderExamples.
